(** * Host-new bootstrap script (src/app.py): a shallow embedding

    The script is a linear sequence of shell-outs, downloads, archive
    extractions and one supervised child process.  Everything it does is an
    effect on the outside world, so the embedding is a state-and-exception
    monad over a [World]: the process environment ([os.environ]), the current
    working directory, an opaque external state (file system, network, child
    processes) reached only through the [OS] interface, and a chronological
    trace of every effect performed.

    Python exceptions are modelled for the [Exception] subclasses the calls
    can raise; [print] is total.  Asynchronous interpreter signals
    ([KeyboardInterrupt], [SystemExit]) are outside the model.

    The calls of the installers are modelled as calls that come to an end:
    commands run under a timeout, downloads and file operations return or
    raise.  The launcher is different by design: it starts the application,
    reads its output until the child closes it and then waits for its exit,
    with no limit of time.  A child that never comes to an end, as a server
    does not, keeps the interpreter in that call for ever, so a computation
    has a third way to end besides a value and an exception: [Blocked]. *)

From Stdlib Require Import ZArith String Ascii List Lia.
From stdpp Require Import base strings gmap list pretty.

Local Open Scope Z_scope.

(** ** Strings as Python uses them *)

Module Str.

(** [bool(s)]: a string is truthy when it is not empty. *)
Definition nonempty (s : string) : bool :=
  match s with EmptyString => false | String _ _ => true end.

(** [bool(s.strip())]: something other than white space is left. *)
Fixpoint nonblank (s : string) : bool :=
  match s with
  | EmptyString => false
  | String c s' => if Ascii.is_space c then nonblank s' else true
  end.

(** [s[:n]] *)
Fixpoint take (n : nat) (s : string) : string :=
  match n, s with
  | S k, String c s' => String c (take k s')
  | _, _ => EmptyString
  end.

(** [s.startswith(p)] *)
Fixpoint startswith (p s : string) : bool :=
  match p, s with
  | EmptyString, _ => true
  | String a p', String b s' => if decide (a = b) then startswith p' s' else false
  | String _ _, EmptyString => false
  end.

(** [s.endswith("/")] *)
Fixpoint endswith_slash (s : string) : bool :=
  match s with
  | EmptyString => false
  | String c EmptyString => bool_decide (c = "/"%char)
  | String _ s' => endswith_slash s'
  end.

(** [sep in s] for a one-character [sep]. *)
Fixpoint contains (sep : ascii) (s : string) : bool :=
  match s with
  | EmptyString => false
  | String c s' => if decide (c = sep) then true else contains sep s'
  end.

(** [s.split(sep)] for a one-character [sep]: never the empty list. *)
Fixpoint split (sep : ascii) (s : string) : list string :=
  match s with
  | EmptyString => [EmptyString]
  | String c s' =>
      if decide (c = sep) then EmptyString :: split sep s'
      else match split sep s' with
           | h :: t => String c h :: t
           | [] => [String c EmptyString]
           end
  end.

(** [" ".join(l)] *)
Fixpoint join_space (l : list string) : string :=
  match l with
  | [] => EmptyString
  | [x] => x
  | x :: rest => x +:+ " " +:+ join_space rest
  end.

End Str.

Arguments Str.take : simpl never.
Arguments String.append : simpl never.

(** [os.path.join(a, b)] of posixpath. *)
Definition os_path_join (a b : string) : string :=
  if Str.startswith "/" b then b
  else if negb (Str.nonempty a) || Str.endswith_slash a then a +:+ b
  else a +:+ "/" +:+ b.

(** ** Exceptions, outcomes and effects *)

(** The [Exception] subclasses the script can meet. *)
Inductive exn : Type :=
| TimeoutExpired
| KeyError (key : string)
| OSError (msg : string).

Definition str_exn (e : exn) : string :=
  match e with
  | TimeoutExpired => "Command timed out"
  | KeyError k => "'" +:+ k +:+ "'"
  | OSError m => m
  end.

(** What [subprocess.run(..., capture_output=True, timeout=t)] can do. *)
Inductive RunOutcome : Type :=
| Completed (returncode : Z) (stdout stderr : string)
| RunRaised (e : exn).

Definition run_succeeded (o : RunOutcome) : bool :=
  match o with
  | Completed rc _ _ => rc =? 0
  | RunRaised _ => false
  end.

(** File-system and network calls that may raise and may change the outside. *)
Inductive SysCall : Type :=
| Makedirs (path : string)
| Urlretrieve (url dst : string)
| TarExtract (archive mode dest : string)
| Remove (path : string)
| Symlink (src dst : string)
| Chmod (path : string) (mode : Z).

Inductive Event : Type :=
| EvPrint (text : string)
| EvEcho (line : string)
| EvCall (fn : string)
| EvRet (fn : string) (result : bool)
| EvRun (cmd : string) (timeout : Z) (outcome : RunOutcome)
| EvSleep (seconds : Z)
| EvSys (c : SysCall)
| EvChdir (dir : string)
| EvPutenv (key value : string)
| EvPopen (argv : list string).

(** The interface to everything outside the interpreter.  [Ext] is the state
    of the outside; queries read it, calls return the next one.

    [popen_stream] tells what a launched child does: the lines it writes and
    how it comes to an end, [Some (inr rc)] for an exit with code [rc] and
    [Some (inl e)] for an exception raised by the launch or the reading.
    [None] is a child that never comes to an end: the lines are then those it
    has written so far, and nothing follows them. *)
Record OS : Type := {
  Ext : Type;
  sys_executable : string;
  os_uname_machine : Ext -> string;
  os_path_expanduser : Ext -> gmap string string -> string -> string;
  os_path_exists : Ext -> string -> string -> bool;
  os_path_islink : Ext -> string -> string -> bool;
  shutil_which : Ext -> gmap string string -> string -> string -> bool;
  subprocess_run :
    Ext -> gmap string string -> string -> string -> Z -> RunOutcome * Ext;
  sys_call : Ext -> string -> SysCall -> option exn * Ext;
  os_chdir : Ext -> string -> string -> option exn;
  popen_stream :
    Ext -> gmap string string -> string -> list string ->
    (list string * option (exn + Z)) * Ext
}.

(** How a computation ends: with a value, with an exception, or not at all,
    the interpreter being blocked in a call that never returns. *)
Inductive Res (A : Type) : Type :=
| Ok (a : A)
| Raise (e : exn)
| Blocked.
Arguments Ok {A} a.
Arguments Raise {A} e.
Arguments Blocked {A}.

Section Script.

Variable os : OS.

Record World : Type := mkWorld {
  environ : gmap string string;
  cwd : string;
  ext : Ext os;
  trace : list Event
}.

(** ** The monad of the script *)

Definition M (A : Type) : Type := World -> Res A * World.

Definition ret {A} (a : A) : M A := fun w => (Ok a, w).

Definition bind {A B} (m : M A) (k : A -> M B) : M B :=
  fun w => match m w with
           | (Ok a, w') => k a w'
           | (Raise e, w') => (Raise e, w')
           | (Blocked, w') => (Blocked, w')
           end.

(** [try: m  except Exception as e: h e] *)
Definition try_except {A} (m : M A) (h : exn -> M A) : M A :=
  fun w => match m w with
           | (Ok a, w') => (Ok a, w')
           | (Raise e, w') => h e w'
           | (Blocked, w') => (Blocked, w')
           end.

Definition log (e : Event) : M unit :=
  fun w => (Ok tt, mkWorld (environ w) (cwd w) (ext w) (trace w ++ [e])).

Definition when (b : bool) (m : M unit) : M unit := if b then m else ret tt.

End Script.

Arguments ret {os A} a.
Arguments bind {os A B} m k.
Arguments try_except {os A} m h.
Arguments log {os} e.
Arguments when {os} b m.
Arguments environ {os} w.
Arguments cwd {os} w.
Arguments ext {os} w.
Arguments trace {os} w.
Arguments mkWorld {os}.

Declare Scope py_scope.
Delimit Scope py_scope with py.
Notation "x <- m ;; k" := (bind m (fun x => k))
  (at level 100, m at next level, right associativity) : py_scope.
Notation "m ;; k" := (bind m (fun _ => k))
  (at level 100, right associativity) : py_scope.
Local Open Scope py_scope.

Section Primitives.

Context {os : OS}.

Definition print (s : string) : M os unit := log (EvPrint s).

(** [time.sleep(n)] *)
Definition time_sleep (n : Z) : M os unit := log (EvSleep n).

(** [subprocess.run(cmd, shell=True, capture_output=True, text=True,
    timeout=timeout)]: the completed process, or the exception raised. *)
Definition py_subprocess_run (cmd : string) (timeout : Z)
  : M os (Z * string * string) :=
  fun w =>
    let '(o, x) := subprocess_run os (ext w) (environ w) (cwd w) cmd timeout in
    let w' := mkWorld (environ w) (cwd w) x (trace w ++ [EvRun cmd timeout o]) in
    match o with
    | Completed rc so se => (Ok (rc, so, se), w')
    | RunRaised e => (Raise e, w')
    end.

Definition py_sys (c : SysCall) : M os unit :=
  fun w =>
    let '(r, x) := sys_call os (ext w) (cwd w) c in
    let w' := mkWorld (environ w) (cwd w) x (trace w ++ [EvSys c]) in
    match r with
    | None => (Ok tt, w')
    | Some e => (Raise e, w')
    end.

(** [os.chdir(d)] *)
Definition py_chdir (d : string) : M os unit :=
  fun w =>
    match os_chdir os (ext w) (cwd w) d with
    | None =>
        (Ok tt, mkWorld (environ w) (os_path_join (cwd w) d) (ext w)
                  (trace w ++ [EvChdir d]))
    | Some e =>
        (Raise e, mkWorld (environ w) (cwd w) (ext w) (trace w ++ [EvChdir d]))
    end.

(** [os.environ[k]] *)
Definition environ_get (k : string) : M os string :=
  fun w => match environ w !! k with
           | Some v => (Ok v, w)
           | None => (Raise (KeyError k), w)
           end.

(** [os.environ[k] = v] *)
Definition environ_set (k v : string) : M os unit :=
  fun w => (Ok tt, mkWorld (<[k := v]> (environ w)) (cwd w) (ext w) (trace w)).

(** [os.putenv(k, v)] *)
Definition os_putenv (k v : string) : M os unit := log (EvPutenv k v).

Definition path_exists (p : string) : M os bool :=
  fun w => (Ok (os_path_exists os (ext w) (cwd w) p), w).

Definition path_islink (p : string) : M os bool :=
  fun w => (Ok (os_path_islink os (ext w) (cwd w) p), w).

Definition expanduser (p : string) : M os string :=
  fun w => (Ok (os_path_expanduser os (ext w) (environ w) p), w).

Definition uname_machine : M os string :=
  fun w => (Ok (os_uname_machine os (ext w)), w).

(** ** [run_command] *)

(** The body of the [try] of one attempt: [Some r] is [return r], [None] is
    falling off the end of the block. *)
Definition attempt_try (cmd : string) (retries timeout attempt : Z)
  : M os (option (bool * string)) :=
  print ("Attempt " +:+ pretty (attempt + 1) +:+ "/" +:+ pretty retries
         +:+ ": " +:+ cmd) ;;
  result <- py_subprocess_run cmd timeout ;;
  let '(returncode, stdout, stderr) := result in
  if returncode =? 0 then
    print ("✓ Success: " +:+ cmd) ;;
    when (Str.nonblank stdout)
      (print ("Output: " +:+ Str.take 500 stdout +:+ "...")) ;;
    ret (Some (true, stdout))
  else
    print ("✗ Failed: " +:+ cmd) ;;
    when (Str.nonempty stderr)
      (print ("Error: " +:+ Str.take 500 stderr +:+ "...")) ;;
    when (attempt <? retries - 1)
      (print "Retrying after 2 seconds..." ;; time_sleep 2) ;;
    ret None.

Definition attempt_except (cmd : string) (e : exn)
  : M os (option (bool * string)) :=
  match e with
  | TimeoutExpired => print ("Timeout: " +:+ cmd) ;; ret None
  | _ => print ("Exception: " +:+ str_exn e) ;; ret None
  end.

(** [for attempt in attempts: ...] followed by the final
    [return] of the pair of [False] and the empty string. *)
Fixpoint run_command_loop (cmd : string) (retries timeout : Z)
    (attempts : list Z) : M os (bool * string) :=
  match attempts with
  | [] => ret (false, EmptyString)
  | attempt :: rest =>
      r <- try_except (attempt_try cmd retries timeout attempt)
                      (attempt_except cmd) ;;
      match r with
      | Some v => ret v
      | None => run_command_loop cmd retries timeout rest
      end
  end.

(** [range(n)] *)
Definition range (n : Z) : list Z := seqZ 0 n.

Definition run_command (cmd : string) (retries timeout : Z)
  : M os (bool * string) :=
  run_command_loop cmd retries timeout (range retries).

(** [run_command(cmd)] with the defaults [retries=1, timeout=300]. *)
Definition run_command1 (cmd : string) : M os (bool * string) :=
  run_command cmd 1 300.

(** ** [check_command_exists] and [add_to_path] *)

Definition check_command_exists (cmd : string) : M os bool :=
  fun w => (Ok (shutil_which os (ext w) (environ w) (cwd w) cmd), w).

Definition add_to_path (path : string) : M os bool :=
  if Str.nonempty path then
    e <- path_exists path ;;
    if (e : bool) then
      cur <- environ_get "PATH" ;;
      if bool_decide (path ∈ Str.split ":" cur) then ret false
      else
        old <- environ_get "PATH" ;;
        environ_set "PATH" (path +:+ ":" +:+ old) ;;
        new <- environ_get "PATH" ;;
        os_putenv "PATH" new ;;
        print ("Added " +:+ path +:+ " to PATH") ;;
        ret true
    else ret false
  else ret false.

End Primitives.

(** ** The four installation strategies *)

Section Installers.

Context {os : OS}.

Definition nl : string := String "010"%char EmptyString.

Fixpoint rule (n : nat) : string :=
  match n with O => EmptyString | S k => String "="%char (rule k) end.

(** [if os.path.exists(p) or os.path.islink(p): try: os.remove(p)
    except: pass] *)
Definition remove_stale_link (p : string) : M os unit :=
  e <- path_exists p ;;
  l <- (if (e : bool) then ret true else path_islink p) ;;
  when l (try_except (py_sys (Remove p)) (fun _ => ret tt)).

Definition install_nodejs_portable_binary : M os bool :=
  print "Downloading portable Node.js binary..." ;;
  try_except
    (machine <- uname_machine ;;
     let arch :=
       if bool_decide (machine ∈ ["x86_64"; "amd64"]) then "x64"
       else if bool_decide (machine ∈ ["aarch64"; "arm64"]) then "arm64"
       else "x64" in
     home_dir <- expanduser "~" ;;
     let node_dir := os_path_join (os_path_join home_dir ".local") "nodejs" in
     let bin_dir := os_path_join (os_path_join home_dir ".local") "bin" in
     py_sys (Makedirs node_dir) ;;
     py_sys (Makedirs bin_dir) ;;
     let version := "20.17.0" in
     let node_url := "https://nodejs.org/dist/v" +:+ version +:+ "/node-v"
                     +:+ version +:+ "-linux-" +:+ arch +:+ ".tar.xz" in
     print ("Downloading Node.js " +:+ version +:+ " for " +:+ arch +:+ "...") ;;
     let node_tar_path := os_path_join node_dir "node.tar.xz" in
     py_sys (Urlretrieve node_url node_tar_path) ;;
     py_sys (TarExtract node_tar_path "r:xz" node_dir) ;;
     py_sys (Remove node_tar_path) ;;
     let extracted_dir := "node-v" +:+ version +:+ "-linux-" +:+ arch in
     let node_extracted_path := os_path_join node_dir extracted_dir in
     let node_bin_path :=
       os_path_join (os_path_join node_extracted_path "bin") "node" in
     let npm_bin_path :=
       os_path_join (os_path_join node_extracted_path "bin") "npm" in
     let node_link_path := os_path_join bin_dir "node" in
     let npm_link_path := os_path_join bin_dir "npm" in
     remove_stale_link node_link_path ;;
     remove_stale_link npm_link_path ;;
     py_sys (Symlink node_bin_path node_link_path) ;;
     py_sys (Symlink npm_bin_path npm_link_path) ;;
     add_to_path bin_dir ;;
     node <- check_command_exists "node" ;;
     both <- (if (node : bool) then check_command_exists "npm" else ret false) ;;
     if (both : bool) then
       print "Portable Node.js installed successfully!" ;;
       run_command1 "node --version" ;;
       run_command1 "npm --version" ;;
       ret true
     else ret false)
    (fun e => print ("Portable binary method failed: " +:+ str_exn e) ;;
              ret false).

Definition install_npm_separately (bin_dir : string) : M os bool :=
  try_except
    (let npm_url := "https://registry.npmjs.org/npm/-/npm-10.8.1.tgz" in
     let npm_tar_path := os_path_join bin_dir "npm.tgz" in
     print "Downloading npm separately..." ;;
     py_sys (Urlretrieve npm_url npm_tar_path) ;;
     py_sys (TarExtract npm_tar_path "r:gz" bin_dir) ;;
     let npm_bin_path :=
       os_path_join (os_path_join (os_path_join bin_dir "package") "bin")
                    "npm-cli.js" in
     let npm_link_path := os_path_join bin_dir "npm" in
     e <- path_exists npm_bin_path ;;
     if (e : bool) then
       remove_stale_link npm_link_path ;;
       py_sys (Symlink npm_bin_path npm_link_path) ;;
       py_sys (Chmod npm_link_path 493) ;;
       print "npm installed separately!" ;;
       run_command1 "npm --version" ;;
       ret true
     else ret false)
    (fun e => print ("Separate npm installation failed: " +:+ str_exn e) ;;
              ret false).

(** [for url in download_urls: try: ... except Exception: ...; continue];
    [true] is the [return True] inside the loop. *)
Fixpoint precompiled_downloads (bin_dir node_bin_path : string)
    (download_urls : list string) : M os bool :=
  match download_urls with
  | [] => ret false
  | url :: rest =>
      done <- try_except
        (print ("Downloading from: " +:+ url) ;;
         py_sys (Urlretrieve url node_bin_path) ;;
         py_sys (Chmod node_bin_path 493) ;;
         add_to_path bin_dir ;;
         node <- check_command_exists "node" ;;
         if (node : bool) then
           print "Precompiled Node.js installed!" ;;
           run_command1 "node --version" ;;
           install_npm_separately bin_dir ;;
           ret true
         else ret false)
        (fun e => print ("Download from " +:+ url +:+ " failed: "
                         +:+ str_exn e) ;;
                  ret false) ;;
      if (done : bool) then ret true
      else precompiled_downloads bin_dir node_bin_path rest
  end.

Definition install_nodejs_precompiled_binary : M os bool :=
  print "Trying precompiled Node.js binary..." ;;
  try_except
    (home <- expanduser "~" ;;
     let install_dir := os_path_join home ".nodejs" in
     let bin_dir := os_path_join install_dir "bin" in
     py_sys (Makedirs install_dir) ;;
     py_sys (Makedirs bin_dir) ;;
     machine <- uname_machine ;;
     let arch :=
       if bool_decide (machine ∈ ["x86_64"; "amd64"]) then "x64" else "arm64" in
     let download_urls :=
       [ "https://github.com/nodejs/node/raw/main/bin/linux-" +:+ arch +:+ "/node";
         "https://nodejs.org/download/release/latest/linux-" +:+ arch +:+ "/node";
         "https://unofficial-builds.nodejs.org/download/release/latest/linux-"
           +:+ arch +:+ "/node" ] in
     let node_bin_path := os_path_join bin_dir "node" in
     precompiled_downloads bin_dir node_bin_path download_urls)
    (fun e => print ("Precompiled binary method failed: " +:+ str_exn e) ;;
              ret false).

Definition install_nodejs_static_binary : M os bool :=
  print "Trying static Node.js binary..." ;;
  try_except
    (home <- expanduser "~" ;;
     let install_dir := os_path_join home ".static-node" in
     py_sys (Makedirs install_dir) ;;
     machine <- uname_machine ;;
     let arch :=
       if bool_decide (machine ∈ ["x86_64"; "amd64"]) then "x64" else "arm64" in
     let static_url :=
       "https://github.com/mhart/alpine-node/releases/download/v20.17.0/node-v20.17.0-linux-"
       +:+ arch +:+ ".tar.gz" in
     let static_tar_path := os_path_join install_dir "node-static.tar.gz" in
     print "Downloading static Node.js binary..." ;;
     py_sys (Urlretrieve static_url static_tar_path) ;;
     py_sys (TarExtract static_tar_path "r:gz" install_dir) ;;
     let bin_dir := os_path_join install_dir "bin" in
     add_to_path bin_dir ;;
     node <- check_command_exists "node" ;;
     if (node : bool) then
       print "Static Node.js installed!" ;;
       run_command1 "node --version" ;;
       run_command1 "npm --version" ;;
       ret true
     else ret false)
    (fun e => print ("Static binary method failed: " +:+ str_exn e) ;;
              ret false).

(** The directory the source archive unpacks to. *)
Definition source_dir_of (home : string) : string :=
  os_path_join (os_path_join home ".node-build") "node-v20.17.0".

(** The configure, build, install and verify steps of the source build,
    from [print("Configuring ...")] on: [true] is the [return True] in the
    innermost branch, [false] is leaving the outer [if]. *)
Definition configure_make_install : M os bool :=
  print "Configuring Node.js build..." ;;
  configured <- run_command1 "./configure --prefix=$HOME/.local/node-built" ;;
  if fst configured then
    print "Building Node.js (this may take a while)..." ;;
    built <- run_command1 "make -j2" ;;
    if fst built then
      made <- run_command1 "make install" ;;
      if fst made then
        built_bin <- expanduser "~/.local/node-built/bin" ;;
        add_to_path built_bin ;;
        node <- check_command_exists "node" ;;
        if (node : bool) then
          print "Node.js built from source!" ;;
          run_command1 "node --version" ;;
          run_command1 "npm --version" ;;
          ret true
        else ret false
      else ret false
    else ret false
  else ret false.

(** The body of the [try] of [install_nodejs_from_source_simple]: [true] is
    its [return True], [false] is reaching the end of the block, past
    [os.chdir("/")]. *)
Definition source_build_try : M os bool :=
  home <- expanduser "~" ;;
  let build_dir := os_path_join home ".node-build" in
  py_sys (Makedirs build_dir) ;;
  let source_url := "https://nodejs.org/dist/v20.17.0/node-v20.17.0.tar.gz" in
  let source_tar_path := os_path_join build_dir "node-src.tar.gz" in
  print "Downloading Node.js source..." ;;
  py_sys (Urlretrieve source_url source_tar_path) ;;
  py_sys (TarExtract source_tar_path "r:gz" build_dir) ;;
  let source_dir := os_path_join build_dir "node-v20.17.0" in
  py_chdir source_dir ;;
  installed <- configure_make_install ;;
  if (installed : bool) then ret true
  else py_chdir "/" ;; ret false.

Definition install_nodejs_from_source_simple : M os bool :=
  print "Trying simplified Node.js source build..." ;;
  try_except source_build_try
    (fun e => print ("Source build method failed: " +:+ str_exn e) ;;
              ret false).

(** ** [install_nodejs_restricted] *)

(** [r = f()], with the call and its result entered in the trace. *)
Definition call (fn : string) (f : M os bool) : M os bool :=
  log (EvCall fn) ;;
  r <- f ;;
  log (EvRet fn r) ;;
  ret r.

Definition methods : list (string * M os bool) :=
  [ ("install_nodejs_portable_binary", install_nodejs_portable_binary);
    ("install_nodejs_precompiled_binary", install_nodejs_precompiled_binary);
    ("install_nodejs_static_binary", install_nodejs_static_binary);
    ("install_nodejs_from_source_simple", install_nodejs_from_source_simple) ].

(** [for i, method in enumerate(ms, i): ...] followed by the two lines after
    the loop; [total] is [len(methods)]. *)
Fixpoint try_methods (total : nat) (i : Z) (ms : list (string * M os bool))
  : M os bool :=
  match ms with
  | [] => print "All Node.js installation methods failed!" ;; ret false
  | (fn, method) :: rest =>
      print (nl +:+ "Trying method " +:+ pretty i +:+ "/" +:+ pretty total) ;;
      success <- call fn method ;;
      if (success : bool) then
        print ("✓ Node.js installed successfully using method " +:+ pretty i) ;;
        ret true
      else
        print ("✗ Method " +:+ pretty i +:+ " failed") ;;
        try_methods total (i + 1) rest
  end.

Definition install_nodejs_restricted : M os bool :=
  print (nl +:+ rule 60) ;;
  print "INSTALLING NODE.JS IN RESTRICTED ENVIRONMENT" ;;
  print (rule 60) ;;
  node_exists <- check_command_exists "node" ;;
  npm_exists <- check_command_exists "npm" ;;
  if node_exists && npm_exists then
    print "Node.js and npm are already installed" ;;
    run_command1 "node --version" ;;
    run_command1 "npm --version" ;;
    ret true
  else try_methods (length methods) 1 methods.

End Installers.

(** ** [install_python_dependencies_safe] *)

Section Dependencies.

Context {os : OS}.

Definition packages : list string :=
  [ "flask"; "aiofiles"; "aiohttp"; "asyncio"; "beautifulsoup4";
    "dnspython"; "future==0.18.3"; "gitpython"; "httpx[http2]";
    "heroku3"; "hachoir"; "motor==3.3.2"; "psutil"; "pykeyboard";
    "pymongo==4.6.3"; "python-dotenv"; "pyyaml==6.0.1"; "requests";
    "qrcode"; "tgcrypto"; "gpytranslate"; "googlesearch-python";
    "telegraph"; "speedtest-cli"; "unidecode"; "urllib3"; "wget";
    "yt-dlp"; "bing-image-urls"; "Cloudscraper";
    "pillow>=9.0.0"; "py-tgcalls>=0.9.0"; "SafoneAPI>=1.0.60";
    "youtube-search-python>=1.6.0"; "spotipy>=2.0.0" ].

Definition git_repos : list string :=
  [ "git+https://github.com/KurimuzonAkuma/pyrogram@dev";
    "git+https://github.com/alexmercerind/youtube-search-python@main";
    "git+https://github.com/joetats/youtube_search@master" ].

Definition problem_packages : list (string * string) :=
  [ ("lxml", "lxml");
    ("search_engine_parser", "search_engine_parser");
    ("bing_image_downloader", "bing_image_downloader");
    ("MukeshAPI", "MukeshAPI");
    ("telethon==1.33.1", "telethon");
    ("ffmpeg-python", "ffmpeg-python") ].

(** [f"{sys.executable} -m pip install --no-cache-dir --prefer-binary {p}"] *)
Definition pip_binary (p : string) : string :=
  sys_executable os +:+ " -m pip install --no-cache-dir --prefer-binary " +:+ p.

(** [f"{sys.executable} -m pip install --no-cache-dir {p}"] *)
Definition pip_plain (p : string) : string :=
  sys_executable os +:+ " -m pip install --no-cache-dir " +:+ p.

(** The double-quote character of the [lxml] command line. *)
Definition dquote : string := String "034"%char EmptyString.

Definition pip_lxml_no_cython : string :=
  sys_executable os
  +:+ " -m pip install --no-cache-dir lxml --install-option=" +:+ dquote
  +:+ "--without-cython" +:+ dquote.

(** [for package in pkgs: ...], threading [all_success]. *)
Fixpoint install_packages (pkgs : list string) (all_success : bool)
  : M os bool :=
  match pkgs with
  | [] => ret all_success
  | package :: rest =>
      print ("Installing " +:+ package +:+ "...") ;;
      first <- run_command1 (pip_binary package) ;;
      if fst first then install_packages rest all_success
      else
        second <- run_command1 (pip_plain package) ;;
        if fst second then install_packages rest all_success
        else
          print ("Warning: Failed to install " +:+ package) ;;
          install_packages rest false
  end.

(** [for repo in repos: ...] *)
Fixpoint install_repos (repos : list string) (all_success : bool)
  : M os bool :=
  match repos with
  | [] => ret all_success
  | repo :: rest =>
      print ("Installing from " +:+ repo +:+ "...") ;;
      r <- run_command1 (pip_plain repo) ;;
      if fst r then install_repos rest all_success
      else
        print ("Warning: Failed to install from " +:+ repo) ;;
        install_repos rest false
  end.

(** [for package_cmd, package_name in problems: ...] *)
Fixpoint install_problem_packages (problems : list (string * string))
    (all_success : bool) : M os bool :=
  match problems with
  | [] => ret all_success
  | (package_cmd, package_name) :: rest =>
      first <- run_command1 (pip_binary package_cmd) ;;
      success <-
        (if fst first then ret true
         else
           second <- run_command1 (pip_plain package_cmd) ;;
           if negb (fst second) && bool_decide (package_cmd = "lxml") then
             third <- run_command1 pip_lxml_no_cython ;;
             ret (fst third)
           else ret (fst second)) ;;
      if (success : bool) then install_problem_packages rest all_success
      else
        print ("Warning: Failed to install " +:+ package_name) ;;
        install_problem_packages rest false
  end.

Definition install_python_dependencies_safe : M os bool :=
  print (nl +:+ rule 60) ;;
  print "INSTALLING PYTHON DEPENDENCIES" ;;
  print (rule 60) ;;
  run_command1
    (sys_executable os +:+ " -m pip install --upgrade pip setuptools wheel") ;;
  all_success <- install_packages packages true ;;
  all_success <- install_repos git_repos all_success ;;
  install_problem_packages problem_packages all_success.

End Dependencies.

(** ** [start_application] *)

Section Launcher.

Context {os : OS}.

Definition entry_points : list (list string) :=
  [ [sys_executable os; "-m"; "SONALI"];
    [sys_executable os; "main.py"];
    [sys_executable os; "app.py"];
    [sys_executable os; "bot.py"];
    [sys_executable os; "server.py"];
    [sys_executable os; "index.py"];
    [sys_executable os; "start.py"] ].

(** [subprocess.Popen(argv, stdout=PIPE, stderr=STDOUT, ...)], the loop that
    echoes every line of the child, and [process.wait()]: the exit code, or
    the exception that ended it.  Neither the loop nor the wait has a time
    limit: while the child keeps running the call does not return. *)
Definition py_popen_stream (argv : list string) : M os Z :=
  fun w =>
    let '((lines, fin), x) :=
      popen_stream os (ext w) (environ w) (cwd w) argv in
    let w' := mkWorld (environ w) (cwd w) x
                (trace w ++ EvPopen argv :: map EvEcho lines) in
    match fin with
    | Some (inl e) => (Raise e, w')
    | Some (inr returncode) => (Ok returncode, w')
    | None => (Blocked, w')
    end.

(** The file a candidate names: its second token, unless that is a flag. *)
Definition file_token (entry_point : list string) : option string :=
  match entry_point with
  | _ :: tok :: _ => if Str.startswith "-" tok then None else Some tok
  | _ => None
  end.

(** [print("Trying: ...")] and the [try] that launches one candidate and
    streams its output: [true] is the [return True] after a zero exit. *)
Definition try_launch (entry_point : list string) : M os bool :=
  print ("Trying: " +:+ Str.join_space entry_point) ;;
  try_except
    (returncode <- py_popen_stream entry_point ;;
     ret (returncode =? 0))
    (fun e => print ("Failed to start: " +:+ str_exn e) ;; ret false).

(** The guard at the head of the loop body: [true] is its [continue]. *)
Definition skip_missing (entry_point : list string) : M os bool :=
  match file_token entry_point with
  | Some tok =>
      e <- path_exists tok ;;
      if (e : bool) then ret false
      else print ("Skipping " +:+ tok +:+ " - file not found") ;; ret true
  | None => ret false
  end.

(** [for entry_point in eps: ...] followed by [return False]. *)
Fixpoint start_loop (eps : list (list string)) : M os bool :=
  match eps with
  | [] => ret false
  | entry_point :: rest =>
      skip <- skip_missing entry_point ;;
      if (skip : bool) then start_loop rest
      else
        started <- try_launch entry_point ;;
        if (started : bool) then ret true else start_loop rest
  end.

Definition start_application : M os bool :=
  print (nl +:+ rule 80) ;;
  print "STARTING MAIN APPLICATION" ;;
  print (rule 80) ;;
  start_loop entry_points.

(** ** The script body under [if __name__ == "__main__"] *)

Definition mark (b : bool) : string := if b then "✓" else "✗".

Definition summary (node_installed python_success app_started : bool)
  : M os unit :=
  print (nl +:+ rule 80) ;;
  print "INSTALLATION SUMMARY" ;;
  print (rule 80) ;;
  print ("Node.js installed: " +:+ mark node_installed) ;;
  print ("Python dependencies: " +:+ mark python_success) ;;
  print ("Application started: " +:+ mark app_started) ;;
  when (negb app_started)
    (print (nl +:+ "Troubleshooting tips:") ;;
     print "1. Check if your main application file exists" ;;
     print "2. Check for any error messages above" ;;
     print "3. Try running manually: python -m SONALI or python main.py" ;;
     print (nl +:+ "Available files:") ;;
     run_command1 "ls -la" ;;
     ret tt).

Definition main : M os unit :=
  print (rule 80) ;;
  print "ULTIMATE INSTALLATION FOR RESTRICTED ENVIRONMENTS" ;;
  print (rule 80) ;;
  node_installed <- call "install_nodejs_restricted" install_nodejs_restricted ;;
  python_success <-
    call "install_python_dependencies_safe" install_python_dependencies_safe ;;
  app_started <- call "start_application" start_application ;;
  summary node_installed python_success app_started.

End Launcher.

(** ** Reading a trace *)

Definition is_run (e : Event) : bool :=
  match e with EvRun _ _ _ => true | _ => false end.

Definition is_sleep (e : Event) : bool :=
  match e with EvSleep _ => true | _ => false end.

(** The commands executed, in order. *)
Definition executions (tr : list Event) : list string :=
  omap (fun e => match e with EvRun c _ _ => Some c | _ => None end) tr.

(** What each execution did, in order. *)
Definition outcomes (tr : list Event) : list RunOutcome :=
  omap (fun e => match e with EvRun _ _ o => Some o | _ => None end) tr.

(** The pauses taken, in order. *)
Definition sleeps (tr : list Event) : list Z :=
  omap (fun e => match e with EvSleep n => Some n | _ => None end) tr.

(** Executions and pauses, interleaved as they happened. *)
Definition schedule (tr : list Event) : list Event :=
  List.filter (fun e => is_run e || is_sleep e) tr.

(** Events other than the call and return marks of [call]. *)
Definition plain_event (e : Event) : Prop :=
  match e with
  | EvCall _ | EvRet _ _ => False
  | _ => True
  end.

(** The marks left by [call], in order. *)
Definition call_log (tr : list Event) : list Event :=
  List.filter
    (fun e => match e with EvCall _ | EvRet _ _ => true | _ => false end) tr.

(** The commands executed with whether each succeeded, in order. *)
Definition runs (tr : list Event) : list (string * bool) :=
  omap (fun e => match e with
                 | EvRun c _ o => Some (c, run_succeeded o)
                 | _ => None
                 end) tr.

(** A dependency, given by the install commands tried for it in order, was
    attempted: its first command was executed. *)
Definition attempted (tr : list Event) (item : list string) : Prop :=
  exists c, head item = Some c /\ c ∈ executions tr.

(** A dependency was installed: one of its commands succeeded. *)
Definition installed (tr : list Event) (item : list string) : Prop :=
  exists c, c ∈ item /\ (c, true) ∈ runs tr.

(** The runs [rs] and verdict [ok] of trying the commands of [item] in order
    until one succeeds. *)
Fixpoint fallback_runs (item : list string) (rs : list (string * bool))
    (ok : bool) : Prop :=
  match item with
  | [] => False
  | c :: rest =>
      (rs = [(c, true)] /\ ok = true)
      \/ (rest = [] /\ rs = [(c, false)] /\ ok = false)
      \/ (exists rs', rs = (c, false) :: rs' /\ fallback_runs rest rs' ok)
  end.

(** No command belongs to two of the [items]. *)
Fixpoint items_disjoint (items : list (list string)) : Prop :=
  match items with
  | [] => True
  | item :: rest =>
      (forall c other, c ∈ item -> other ∈ rest -> c ∉ other)
      /\ items_disjoint rest
  end.

Fixpoint items_disjointb (items : list (list string)) : bool :=
  match items with
  | [] => true
  | item :: rest =>
      forallb (fun c => forallb (fun other => negb (bool_decide (c ∈ other)))
                          rest) item
      && items_disjointb rest
  end.

(** The marks of a chain of calls that returned [results], in order. *)
Definition chain_log (l : list (string * bool)) : list Event :=
  flat_map (fun fb => [EvCall fb.1; EvRet fb.1 fb.2]) l.

(** The URLs whose download was attempted, in order. *)
Definition downloads (tr : list Event) : list string :=
  omap (fun e => match e with
                 | EvSys (Urlretrieve url _) => Some url
                 | _ => None
                 end) tr.

(** The directories changed to, in order. *)
Definition chdirs (tr : list Event) : list string :=
  omap (fun e => match e with EvChdir d => Some d | _ => None end) tr.

(** The children launched, in order. *)
Definition launches (tr : list Event) : list (list string) :=
  omap (fun e => match e with EvPopen argv => Some argv | _ => None end) tr.

(** Plain events other than a change of directory. *)
Definition quiet_event (e : Event) : Prop :=
  match e with
  | EvCall _ | EvRet _ _ | EvChdir _ => False
  | _ => True
  end.

(** Events of a run that gets nothing from the network: messages, call
    marks, directories created and downloads attempted. *)
Definition offline_event (e : Event) : Prop :=
  match e with
  | EvPrint _ | EvCall _ | EvRet _ _
  | EvSys (Makedirs _) | EvSys (Urlretrieve _ _) => True
  | _ => False
  end.

(** Events a command runner may produce. *)
Definition runner_event (e : Event) : Prop :=
  match e with
  | EvPrint _ | EvRun _ _ _ | EvSleep _ => True
  | _ => False
  end.

(** The download sources of the precompiled binary for an architecture, in
    the order they are tried. *)
Definition precompiled_mirrors (arch : string) : list string :=
  [ "https://github.com/nodejs/node/raw/main/bin/linux-" +:+ arch +:+ "/node";
    "https://nodejs.org/download/release/latest/linux-" +:+ arch +:+ "/node";
    "https://unofficial-builds.nodejs.org/download/release/latest/linux-"
      +:+ arch +:+ "/node" ].

(** The runs of the three build commands when they ended as [b1], [b2] and
    [b3]: each is run only after the one before succeeded. *)
Definition build_runs (b1 b2 b3 : bool) : list (string * bool) :=
  ("./configure --prefix=$HOME/.local/node-built", b1)
  :: (if b1 then
        ("make -j2", b2) :: (if b2 then [("make install", b3)] else [])
      else []).

(** The three phases that are function calls of the script body. *)
Definition phase_names : list string :=
  [ "install_nodejs_restricted"; "install_python_dependencies_safe";
    "start_application" ].

(** An event that may occur inside a phase: anything but the call or return
    mark of a phase. *)
Definition inside_phase (e : Event) : Prop :=
  match e with
  | EvCall fn | EvRet fn _ => fn ∉ phase_names
  | _ => True
  end.

(** The lines of the summary report. *)
Definition summary_lines (node_installed python_success app_started : bool)
  : list Event :=
  [ EvPrint (nl +:+ rule 80);
    EvPrint "INSTALLATION SUMMARY";
    EvPrint (rule 80);
    EvPrint ("Node.js installed: " +:+ mark node_installed);
    EvPrint ("Python dependencies: " +:+ mark python_success);
    EvPrint ("Application started: " +:+ mark app_started) ].

(** The install command lines without the interpreter path in front: the
    upgrade of [pip] first, then one list per dependency. *)
Definition command_suffixes : list (list string) :=
  [" -m pip install --upgrade pip setuptools wheel"]
  :: map (fun p => [ " -m pip install --no-cache-dir --prefer-binary " +:+ p;
                     " -m pip install --no-cache-dir " +:+ p ]) packages
  ++ map (fun r => [ " -m pip install --no-cache-dir " +:+ r ]) git_repos
  ++ map (fun pn : string * string =>
            [ " -m pip install --no-cache-dir --prefer-binary " +:+ pn.1;
              " -m pip install --no-cache-dir " +:+ pn.1 ]
            ++ (if bool_decide (pn.1 = "lxml")
                then [ " -m pip install --no-cache-dir lxml --install-option="
                       +:+ dquote +:+ "--without-cython" +:+ dquote ]
                else [])) problem_packages.

Section Vocabulary.

Context {os : OS}.

Implicit Types (w : World os) (tr : list Event) (P : Event -> Prop).

(** The result of one attempt, read off what the process did. *)
Definition attempt_result (o : RunOutcome) : option (bool * string) :=
  match o with
  | Completed rc so _ => if rc =? 0 then Some (true, so) else None
  | RunRaised _ => None
  end.

(** The pause owed after attempt [a] of [retries] that ended as [o]. *)
Definition backoff_due (retries a : Z) (o : RunOutcome) : bool :=
  match o with
  | Completed rc _ _ => negb (rc =? 0) && (a <? retries - 1)
  | RunRaised _ => false
  end.

Definition step_events (cmd : string) (timeout retries : Z)
    (ao : Z * RunOutcome) : list Event :=
  EvRun cmd timeout ao.2
  :: (if backoff_due retries ao.1 ao.2 then [EvSleep 2] else []).

(** Every run of [m] only appends events satisfying [P] to the trace. *)
Definition emits P {A} (m : M os A) : Prop :=
  forall w, exists tr, trace (m w).2 = trace w ++ tr /\ Forall P tr.

(** [m] always returns normally. *)
Definition total {A} (m : M os A) : Prop :=
  forall w, exists a, (m w).1 = Ok a.

(** [m] always comes to an end, with a value or an exception: it is never
    blocked. *)
Definition ends {A} (m : M os A) : Prop :=
  forall w, (m w).1 <> Blocked.

(** The children with an argument vector in [eps] come to an end, in
    whatever state of the outside they are launched. *)
Definition children_end (eps : list (list string)) : Prop :=
  forall x env d ep, ep ∈ eps -> (popen_stream os x env d ep).1.2 <> None.

(** What a launcher over the candidates [eps] may end in: a value, or a block
    where one of the candidates never comes to an end; never an exception. *)
Definition launcher_result {A} (eps : list (list string)) (r : Res A) : Prop :=
  match r with
  | Ok _ => True
  | Raise _ => False
  | Blocked => ~ children_end eps
  end.

(** [m] never changes the current working directory. *)
Definition keeps_cwd {A} (m : M os A) : Prop :=
  forall w, cwd (m w).2 = cwd w.

(** The names of the four strategies, in the order of [methods]. *)
Definition method_names : list string :=
  [ "install_nodejs_portable_binary"; "install_nodejs_precompiled_binary";
    "install_nodejs_static_binary"; "install_nodejs_from_source_simple" ].

(** The install commands tried, in order, for a package, a repository and a
    problem package. *)
Definition package_attempts (p : string) : list string :=
  [pip_binary (os:=os) p; pip_plain (os:=os) p].

Definition repo_attempts (r : string) : list string := [pip_plain (os:=os) r].

Definition problem_attempts (p : string) : list string :=
  [pip_binary (os:=os) p; pip_plain (os:=os) p]
  ++ (if bool_decide (p = "lxml") then [pip_lxml_no_cython (os:=os)] else []).

(** Every dependency the installer knows: the packages, the repositories and
    the problem packages. *)
Definition dependency_items : list (list string) :=
  map package_attempts packages
  ++ map repo_attempts git_repos
  ++ map (fun pn => problem_attempts pn.1) problem_packages.

(** [f"{sys.executable} -m pip install --upgrade pip setuptools wheel"] *)
Definition pip_upgrade : string :=
  sys_executable os +:+ " -m pip install --upgrade pip setuptools wheel".

(** A launched argument vector is one of the candidates [eps]; when it names
    a file, the file was seen to exist. *)
Definition launch_allowed (eps : list (list string)) (argv : list string)
  : Prop :=
  argv ∈ eps
  /\ match file_token argv with
     | Some tok => exists x d, os_path_exists os x d tok = true
     | None => True
     end.

(** The loop of [start_application], at candidate [ep] in world [w], makes
    an execution attempt: it announces the candidate and launches it. *)
Definition launches_now (ep : list string) (rest : list (list string))
    (w : World os) : Prop :=
  exists tr,
    trace (start_loop (ep :: rest) w).2
    = trace w ++ [EvPrint ("Trying: " +:+ Str.join_space ep); EvPopen ep] ++ tr.

(** The loop, at a candidate naming the file [tok], only reports the file
    missing and carries on with the remaining candidates. *)
Definition skips_now (ep : list string) (tok : string)
    (rest : list (list string)) (w : World os) : Prop :=
  start_loop (ep :: rest) w
  = start_loop rest
      (print ("Skipping " +:+ tok +:+ " - file not found") w).2.

(** The directory the source build changes to, as [os.path.expanduser]
    resolves the home directory in [w]. *)
Definition source_dir_in (w : World os) : string :=
  source_dir_of (os_path_expanduser os (ext w) (environ w) "~").

(** No download ever succeeds: [urllib.request.urlretrieve] raises for every
    URL, whatever the state of the outside. *)
Definition offline : Prop :=
  forall x d url dst, (sys_call os x d (Urlretrieve url dst)).1 <> None.

(** [m] fails without a trace of an installation: it returns [False], leaves
    the environment and the working directory alone, and only emits
    [offline_event]s. *)
Definition fails_offline (m : M os bool) : Prop :=
  forall w, exists x tr,
    m w = (Ok false, mkWorld (environ w) (cwd w) x (trace w ++ tr))
    /\ Forall offline_event tr.

(** The process state [w'] has the environment and the working directory of
    [w]. *)
Definition same_process (w w' : World os) : Prop :=
  environ w' = environ w /\ cwd w' = cwd w.

(** From [w] to [w'] the environment changed at most in [PATH], and [PATH]
    changed at most by directories put in front of it: the new value ends
    with the old one, and its components, as [split(":")] gives them, are
    some added ones followed by the components of the old value, all of
    them and in their order. *)
Definition path_grows (w w' : World os) : Prop :=
  (forall k, k <> "PATH" -> environ w' !! k = environ w !! k)
  /\ match environ w !! "PATH" with
     | Some old =>
         exists pre added,
           environ w' !! "PATH" = Some (pre +:+ old)
           /\ Str.split ":" (pre +:+ old) = added ++ Str.split ":" old
     | None => environ w' !! "PATH" = None
     end.

(** Every run of [m] relates the state before to the state after by [R]. *)
Definition respects (R : World os -> World os -> Prop) {A} (m : M os A)
  : Prop :=
  forall w, R w (m w).2.

(** Relations on process states that runs can be composed along, and that
    do not look at the outside or at the trace. *)
Class ProcRel (R : World os -> World os -> Prop) : Prop := {
  rel_refl : forall w, R w w;
  rel_trans : forall w1 w2 w3, R w1 w2 -> R w2 w3 -> R w1 w3;
  rel_frame : forall w x t, R w (mkWorld (environ w) (cwd w) x t)
}.

(** Events of the launcher: messages, launches and echoed lines. *)
Definition launcher_event (e : Event) : Prop :=
  match e with
  | EvPrint _ | EvPopen _ | EvEcho _ => True
  | _ => False
  end.

(** What an event tells of the state after it: a command, a system call or
    a launch moves the outside on, a change of directory that the system
    accepts moves the process, a [putenv] sets the variable; every other
    event leaves the state as it is.  The event joins the trace. *)
Definition after_event w (e : Event) : World os :=
  match e with
  | EvRun cmd timeout _ =>
      mkWorld (environ w) (cwd w)
        (subprocess_run os (ext w) (environ w) (cwd w) cmd timeout).2
        (trace w ++ [e])
  | EvSys c =>
      mkWorld (environ w) (cwd w) (sys_call os (ext w) (cwd w) c).2
        (trace w ++ [e])
  | EvChdir d =>
      mkWorld (environ w)
        (match os_chdir os (ext w) (cwd w) d with
         | None => os_path_join (cwd w) d
         | Some _ => cwd w
         end)
        (ext w) (trace w ++ [e])
  | EvPutenv k v =>
      mkWorld (<[k := v]> (environ w)) (cwd w) (ext w) (trace w ++ [e])
  | EvPopen argv =>
      mkWorld (environ w) (cwd w)
        (popen_stream os (ext w) (environ w) (cwd w) argv).2
        (trace w ++ [e])
  | _ => mkWorld (environ w) (cwd w) (ext w) (trace w ++ [e])
  end.

(** The state reached from [w] by the events [tr], in order. *)
Definition after w tr : World os := foldl after_event w tr.

(** Events that leave the state as it is. *)
Definition stateless (e : Event) : Prop :=
  match e with
  | EvPrint _ | EvEcho _ | EvCall _ | EvRet _ _ | EvSleep _ => True
  | _ => False
  end.

(** Every run of [m] ends in the state its events tell: the state after a
    part of the events of a run is then the state the run was in at that
    point. *)
Definition replays {A} (m : M os A) : Prop :=
  forall w, exists tr, (m w).2 = after w tr.

(** The lines printed right after a successful check for [node]: by
    [install_nodejs_restricted] and by each of the four strategies. *)
Definition found_messages : list string :=
  [ "Node.js and npm are already installed";
    "Portable Node.js installed successfully!";
    "Precompiled Node.js installed!";
    "Static Node.js installed!";
    "Node.js built from source!" ].

(** [m] never returns [True]. *)
Definition never_true (m : M os bool) : Prop :=
  forall w, (m w).1 <> Ok true.

(** [m] returns [True] only when the first thing it does is to print one of
    the [found_messages]. *)
Definition announces (m : M os bool) : Prop :=
  forall w w', m w = (Ok true, w') ->
    exists msg post,
      msg ∈ found_messages /\ w' = after w (EvPrint msg :: post).

(** [m] returns [True] only in runs with a point where [node] resolved and
    the find was announced next: the events [pre] lead to the point, and
    [shutil.which("node")] succeeds in the state after them. *)
Definition finds_node (m : M os bool) : Prop :=
  forall w w', m w = (Ok true, w') ->
    exists pre msg post,
      w' = after w (pre ++ EvPrint msg :: post)
      /\ msg ∈ found_messages
      /\ shutil_which os (ext (after w pre)) (environ (after w pre))
           (cwd (after w pre)) "node" = true.

(** [cmd] fails whenever it is run with [timeout], whatever the state of the
    outside: it exits non-zero, times out, or cannot be run. *)
Definition always_fails (cmd : string) (timeout : Z) : Prop :=
  forall x env d,
    run_succeeded (subprocess_run os x env d cmd timeout).1 = false.

End Vocabulary.

(** ** A scripted outside world

    The outside state is the number of external calls made so far (commands
    run, system calls, children launched), so a script can answer by time. *)

Record Sim : Type := {
  sim_exe : string;
  sim_machine : string;
  sim_home : string;
  sim_exists : nat -> string -> bool;
  sim_islink : nat -> string -> bool;
  sim_which : nat -> gmap string string -> string -> bool;
  sim_run : nat -> string -> RunOutcome;
  sim_sys : nat -> SysCall -> option exn;
  sim_chdir : nat -> string -> option exn;
  sim_popen : nat -> list string -> list string * (exn + Z)
}.

Definition sim_expanduser (home p : string) : string :=
  match p with
  | String "~"%char rest => home +:+ rest
  | _ => p
  end.

Definition sim_os (s : Sim) : OS := {|
  Ext := nat;
  sys_executable := sim_exe s;
  os_uname_machine := fun _ => sim_machine s;
  os_path_expanduser := fun _ _ p => sim_expanduser (sim_home s) p;
  os_path_exists := fun x _ p => sim_exists s x p;
  os_path_islink := fun x _ p => sim_islink s x p;
  shutil_which := fun x env _ c => sim_which s x env c;
  subprocess_run := fun x _ _ c _ => (sim_run s x c, S x);
  sys_call := fun x _ c => (sim_sys s x c, S x);
  os_chdir := fun x _ d => sim_chdir s x d;
  popen_stream := fun x _ _ argv =>
    ((fst (sim_popen s x argv), Some (snd (sim_popen s x argv))), S x)
|}.

(** A bare host: nothing installed, no network, every command exits 1. *)
Definition bare : Sim := {|
  sim_exe := "/usr/bin/python3";
  sim_machine := "x86_64";
  sim_home := "/home/app";
  sim_exists := fun _ _ => false;
  sim_islink := fun _ _ => false;
  sim_which := fun _ _ _ => false;
  sim_run := fun _ _ => Completed 1 "partial output" "boom";
  sim_sys := fun _ c =>
    match c with
    | Urlretrieve _ _ => Some (OSError "Network is unreachable")
    | _ => None
    end;
  sim_chdir := fun _ _ => None;
  sim_popen := fun _ _ => ([], inl (OSError "No such file or directory"))
|}.

(** The bare host, with every command running into its timeout. *)
Definition hanging : Sim := {|
  sim_exe := sim_exe bare;
  sim_machine := sim_machine bare;
  sim_home := sim_home bare;
  sim_exists := sim_exists bare;
  sim_islink := sim_islink bare;
  sim_which := sim_which bare;
  sim_run := fun _ _ => RunRaised TimeoutExpired;
  sim_sys := sim_sys bare;
  sim_chdir := sim_chdir bare;
  sim_popen := sim_popen bare
|}.

(** Variations of a host. *)
Definition with_files (files : list string) (s : Sim) : Sim := {|
  sim_exe := sim_exe s;
  sim_machine := sim_machine s;
  sim_home := sim_home s;
  sim_exists := fun _ p => bool_decide (p ∈ files);
  sim_islink := sim_islink s;
  sim_which := sim_which s;
  sim_run := sim_run s;
  sim_sys := sim_sys s;
  sim_chdir := sim_chdir s;
  sim_popen := sim_popen s
|}.

Definition with_which (which : nat -> gmap string string -> string -> bool)
    (s : Sim) : Sim := {|
  sim_exe := sim_exe s;
  sim_machine := sim_machine s;
  sim_home := sim_home s;
  sim_exists := sim_exists s;
  sim_islink := sim_islink s;
  sim_which := which;
  sim_run := sim_run s;
  sim_sys := sim_sys s;
  sim_chdir := sim_chdir s;
  sim_popen := sim_popen s
|}.

(** The commands [cmds] are installed system-wide. *)
Definition with_commands (cmds : list string) (s : Sim) : Sim :=
  with_which (fun _ _ c => bool_decide (c ∈ cmds)) s.

(** The commands [cmds] are found once [dir] is a component of [PATH]. *)
Definition with_commands_in (dir : string) (cmds : list string) (s : Sim)
  : Sim :=
  with_which
    (fun _ env c =>
       bool_decide (c ∈ cmds)
       && match env !! "PATH" with
          | Some p => bool_decide (dir ∈ Str.split ":" p)
          | None => false
          end) s.

Definition with_run (run : nat -> string -> RunOutcome) (s : Sim) : Sim := {|
  sim_exe := sim_exe s;
  sim_machine := sim_machine s;
  sim_home := sim_home s;
  sim_exists := sim_exists s;
  sim_islink := sim_islink s;
  sim_which := sim_which s;
  sim_run := run;
  sim_sys := sim_sys s;
  sim_chdir := sim_chdir s;
  sim_popen := sim_popen s
|}.

Definition with_sys (sys : nat -> SysCall -> option exn) (s : Sim) : Sim := {|
  sim_exe := sim_exe s;
  sim_machine := sim_machine s;
  sim_home := sim_home s;
  sim_exists := sim_exists s;
  sim_islink := sim_islink s;
  sim_which := sim_which s;
  sim_run := sim_run s;
  sim_sys := sys;
  sim_chdir := sim_chdir s;
  sim_popen := sim_popen s
|}.

Definition with_popen
    (popen : nat -> list string -> list string * (exn + Z)) (s : Sim) : Sim := {|
  sim_exe := sim_exe s;
  sim_machine := sim_machine s;
  sim_home := sim_home s;
  sim_exists := sim_exists s;
  sim_islink := sim_islink s;
  sim_which := sim_which s;
  sim_run := sim_run s;
  sim_sys := sim_sys s;
  sim_chdir := sim_chdir s;
  sim_popen := popen
|}.

(** A host with a working network and a working tool chain, where a built
    Node.js lands in [~/.local/node-built/bin]. *)
Definition builder : Sim :=
  with_run (fun _ _ => Completed 0 "ok" EmptyString)
    (with_sys (fun _ _ => None)
       (with_files ["/home/app/.local/node-built/bin"]
          (with_commands_in "/home/app/.local/node-built/bin" ["node"; "npm"]
             bare))).

(** A host with a working network, where every command exits 1. *)
Definition no_compiler : Sim := with_sys (fun _ _ => None) bare.

(** A host where only the static-binary archive can be downloaded, and
    unpacks a [node] into [~/.static-node/bin]. *)
Definition static_mirror_only : Sim :=
  with_sys
    (fun _ c =>
       match c with
       | Urlretrieve url _ =>
           if Str.startswith "https://github.com/mhart/alpine-node/" url
           then None else Some (OSError "HTTP Error 404: Not Found")
       | _ => None
       end)
    (with_files ["/home/app/.static-node/bin"]
       (with_commands_in "/home/app/.static-node/bin" ["node"] bare)).

(** A host where every install succeeds except those of [tgcrypto]. *)
Definition no_tgcrypto : Sim :=
  with_run
    (fun _ c =>
       if bool_decide
            (c ∈ [ "/usr/bin/python3 -m pip install --no-cache-dir --prefer-binary tgcrypto";
                   "/usr/bin/python3 -m pip install --no-cache-dir tgcrypto" ])
       then Completed 1 EmptyString "error: no matching distribution"
       else Completed 0 "Successfully installed" EmptyString)
    bare.

(** A host holding the application as [app.py], which runs and exits 0;
    no [SONALI] module can be run. *)
Definition app_py_only : Sim :=
  with_popen
    (fun _ argv =>
       if bool_decide (argv = ["/usr/bin/python3"; "app.py"])
       then (["listening on :8080"], inr 0)
       else (["No module named SONALI"], inr 1))
    (with_files ["app.py"] bare).

(** A host where the first two commands run exit 1 and every later one
    exits 0. *)
Definition flaky : Sim :=
  with_run
    (fun x _ =>
       if (x <? 2)%nat then Completed 1 EmptyString "resource busy"
       else Completed 0 "v20.17.0" EmptyString)
    bare.

(** The scripted outside again, with relative paths looked up under the
    working directory, as [os.path.exists] does. *)
Definition sim_os_in_cwd (s : Sim) : OS := {|
  Ext := nat;
  sys_executable := sim_exe s;
  os_uname_machine := fun _ => sim_machine s;
  os_path_expanduser := fun _ _ p => sim_expanduser (sim_home s) p;
  os_path_exists := fun x d p => sim_exists s x (os_path_join d p);
  os_path_islink := fun x d p => sim_islink s x (os_path_join d p);
  shutil_which := fun x env _ c => sim_which s x env c;
  subprocess_run := fun x _ _ c _ => (sim_run s x c, S x);
  sys_call := fun x _ c => (sim_sys s x c, S x);
  os_chdir := fun x _ d => sim_chdir s x d;
  popen_stream := fun x _ _ argv =>
    ((fst (sim_popen s x argv), Some (snd (sim_popen s x argv))), S x)
|}.

(** The scripted outside again, where the children with an argument vector
    in [servers] never come to an end: they write their lines and keep
    running. *)
Definition sim_os_serving (servers : list (list string)) (s : Sim) : OS := {|
  Ext := nat;
  sys_executable := sim_exe s;
  os_uname_machine := fun _ => sim_machine s;
  os_path_expanduser := fun _ _ p => sim_expanduser (sim_home s) p;
  os_path_exists := fun x _ p => sim_exists s x p;
  os_path_islink := fun x _ p => sim_islink s x p;
  shutil_which := fun x env _ c => sim_which s x env c;
  subprocess_run := fun x _ _ c _ => (sim_run s x c, S x);
  sys_call := fun x _ c => (sim_sys s x c, S x);
  os_chdir := fun x _ d => sim_chdir s x d;
  popen_stream := fun x _ _ argv =>
    ((fst (sim_popen s x argv),
      if bool_decide (argv ∈ servers) then None
      else Some (snd (sim_popen s x argv))), S x)
|}.

(** A host with a working network and no tool chain, holding the
    application as [/srv/app/app.py], which runs and exits 0. *)
Definition app_in_srv : Sim :=
  with_popen
    (fun _ argv =>
       if bool_decide (argv = ["/usr/bin/python3"; "app.py"])
       then (["listening on :8080"], inr 0)
       else (["No module named SONALI"], inr 1))
    (with_sys (fun _ _ => None) (with_files ["/srv/app/app.py"] bare)).

(** A host with [node] installed system-wide and no [npm], where downloads
    work and every command exits 0. *)
Definition node_without_npm : Sim :=
  with_run (fun _ _ => Completed 0 "v18.0.0" EmptyString)
    (with_sys (fun _ _ => None) (with_commands ["node"] bare)).

(** The world a run starts in. *)
Definition boot (s : Sim) : World (sim_os s) :=
  mkWorld (os := sim_os s) {[ "PATH" := "/usr/bin:/bin" ]} "/srv/app" 0%nat [].

(** * Properties *)

Section RunCommandFacts.

Context {os : OS}.

Implicit Types (w : World os) (tr : list Event).


Lemma attempt_step cmd retries timeout a w o x :
  subprocess_run os (ext w) (environ w) (cwd w) cmd timeout = (o, x) ->
  exists tr,
    try_except (attempt_try cmd retries timeout a) (attempt_except cmd) w
    = (Ok (attempt_result o), mkWorld (environ w) (cwd w) x (trace w ++ tr))
    /\ Forall runner_event tr
    /\ schedule tr = step_events cmd timeout retries (a, o).
Proof.
  intros Hrun.
  unfold try_except, attempt_try, attempt_except, bind, print, log,
    py_subprocess_run, when, time_sleep, ret; cbn.
  rewrite Hrun.
  destruct o as [rc so se | e]; cbn.
  - destruct (rc =? 0) eqn:Hrc; cbn.
    + destruct (Str.nonblank so); cbn; rewrite <- ?app_assoc; cbn;
        eexists; (split; [reflexivity |]); split;
        solve [repeat (constructor || exact I)
              | unfold step_events; cbn; now rewrite ?Hrc].
    + destruct (Str.nonempty se), (a <? retries - 1) eqn:Hlast; cbn;
        rewrite <- ?app_assoc; cbn;
        eexists; (split; [reflexivity |]); split;
        solve [repeat (constructor || exact I)
              | unfold step_events; cbn; now rewrite ?Hrc, ?Hlast].
  - destruct e; cbn; rewrite <- ?app_assoc; cbn;
      eexists; (split; [reflexivity |]); split;
      solve [repeat (constructor || exact I) | reflexivity].
Qed.

End RunCommandFacts.

(** ** A small program logic: what a computation may emit, whether it
    returns, and whether it leaves the working directory alone *)

Section Logic.

Context {os : OS}.

Implicit Types (w : World os) (tr : list Event) (P : Event -> Prop).


Lemma emits_weaken P Q {A} (m : M os A) :
  (forall e, P e -> Q e) -> emits P m -> emits Q m.
Proof.
  intros HPQ Hm w. destruct (Hm w) as (tr & Htr & HP).
  exists tr. split; [exact Htr |]. eapply Forall_impl; eauto.
Qed.

Lemma emits_ret P {A} (a : A) : emits P (ret (os:=os) a).
Proof. intros w. exists []. cbn. rewrite app_nil_r. auto. Qed.

Lemma emits_bind P {A B} (m : M os A) (k : A -> M os B) :
  emits P m -> (forall a, emits P (k a)) -> emits P (bind m k).
Proof.
  intros Hm Hk w. unfold bind.
  destruct (Hm w) as (tr1 & H1 & HP1).
  destruct (m w) as [[a | e |] w1]; cbn in *.
  - destruct (Hk a w1) as (tr2 & H2 & HP2).
    exists (tr1 ++ tr2). rewrite H2, H1, app_assoc.
    split; [reflexivity | apply Forall_app; auto].
  - exists tr1. auto.
  - exists tr1. auto.
Qed.

Lemma emits_try P {A} (m : M os A) (h : exn -> M os A) :
  emits P m -> (forall e, emits P (h e)) -> emits P (try_except m h).
Proof.
  intros Hm Hh w. unfold try_except.
  destruct (Hm w) as (tr1 & H1 & HP1).
  destruct (m w) as [[a | e |] w1]; cbn in *.
  - exists tr1. auto.
  - destruct (Hh e w1) as (tr2 & H2 & HP2).
    exists (tr1 ++ tr2). rewrite H2, H1, app_assoc.
    split; [reflexivity | apply Forall_app; auto].
  - exists tr1. auto.
Qed.

Lemma emits_log P e : P e -> emits P (log (os:=os) e).
Proof. intros He w. exists [e]. cbn. auto. Qed.

Lemma emits_silent P {A} (f : World os -> A) :
  emits P (fun w => (Ok (f w), w)).
Proof. intros w. exists []. cbn. rewrite app_nil_r. auto. Qed.

Lemma emits_py_sys P c : P (EvSys c) -> emits P (py_sys (os:=os) c).
Proof.
  intros He w. exists [EvSys c]. unfold py_sys.
  destruct (sys_call os (ext w) (cwd w) c) as [[e |] x]; cbn; auto.
Qed.

Lemma emits_py_chdir P d : P (EvChdir d) -> emits P (py_chdir (os:=os) d).
Proof.
  intros He w. exists [EvChdir d]. unfold py_chdir.
  destruct (os_chdir os (ext w) (cwd w) d); cbn; auto.
Qed.

Lemma emits_environ_get P k : emits P (environ_get (os:=os) k).
Proof.
  intros w. exists []. unfold environ_get.
  destruct (environ w !! k); cbn; rewrite app_nil_r; auto.
Qed.

Lemma emits_environ_set P k v : emits P (environ_set (os:=os) k v).
Proof. intros w. exists []. cbn. rewrite app_nil_r. auto. Qed.

Lemma total_ret {A} (a : A) : total (ret (os:=os) a).
Proof. intros w. exists a. reflexivity. Qed.

Lemma total_bind {A B} (m : M os A) (k : A -> M os B) :
  total m -> (forall a, total (k a)) -> total (bind m k).
Proof.
  intros Hm Hk w. unfold bind.
  destruct (Hm w) as (a & Ha).
  destruct (m w) as [[a' | e |] w1]; cbn in *; [| discriminate ..].
  apply Hk.
Qed.

(** A [try] whose handlers return gives a value as soon as its body comes to
    an end. *)
Lemma total_try {A} (m : M os A) (h : exn -> M os A) :
  ends m -> (forall e, total (h e)) -> total (try_except m h).
Proof.
  intros Hm Hh w. unfold try_except. specialize (Hm w).
  destruct (m w) as [[a | e |] w1]; cbn in *; [eauto | apply Hh | congruence].
Qed.

Lemma total_ends {A} (m : M os A) : total m -> ends m.
Proof. intros Hm w. destruct (Hm w) as (a & ->). discriminate. Qed.

Lemma ends_ret {A} (a : A) : ends (ret (os:=os) a).
Proof. intros w. discriminate. Qed.

Lemma ends_bind {A B} (m : M os A) (k : A -> M os B) :
  ends m -> (forall a, ends (k a)) -> ends (bind m k).
Proof.
  intros Hm Hk w. unfold bind. specialize (Hm w).
  destruct (m w) as [[a | e |] w1]; cbn in *;
    [apply Hk | discriminate | congruence].
Qed.

Lemma ends_try {A} (m : M os A) (h : exn -> M os A) :
  ends m -> (forall e, ends (h e)) -> ends (try_except m h).
Proof.
  intros Hm Hh w. unfold try_except. specialize (Hm w).
  destruct (m w) as [[a | e |] w1]; cbn in *;
    [discriminate | apply Hh | congruence].
Qed.

Lemma ends_log e : ends (log (os:=os) e).
Proof. intros w. discriminate. Qed.

Lemma ends_silent {A} (f : World os -> A) :
  ends (fun w => (Ok (f w), w)).
Proof. intros w. discriminate. Qed.

Lemma ends_py_subprocess_run cmd timeout :
  ends (py_subprocess_run (os:=os) cmd timeout).
Proof.
  intros w. unfold py_subprocess_run.
  destruct (subprocess_run os (ext w) (environ w) (cwd w) cmd timeout)
    as [[rc so se | e] x]; discriminate.
Qed.

Lemma ends_py_sys c : ends (py_sys (os:=os) c).
Proof.
  intros w. unfold py_sys.
  destruct (sys_call os (ext w) (cwd w) c) as [[e |] x]; discriminate.
Qed.

Lemma ends_py_chdir d : ends (py_chdir (os:=os) d).
Proof.
  intros w. unfold py_chdir.
  destruct (os_chdir os (ext w) (cwd w) d); discriminate.
Qed.

Lemma ends_environ_get k : ends (environ_get (os:=os) k).
Proof. intros w. unfold environ_get. destruct (environ w !! k); discriminate. Qed.

Lemma ends_environ_set k v : ends (environ_set (os:=os) k v).
Proof. intros w. discriminate. Qed.

Lemma total_log e : total (log (os:=os) e).
Proof. intros w. exists tt. reflexivity. Qed.

Lemma total_silent {A} (f : World os -> A) :
  total (fun w => (Ok (f w), w)).
Proof. intros w. eexists. reflexivity. Qed.

Lemma keeps_cwd_ret {A} (a : A) : keeps_cwd (ret (os:=os) a).
Proof. intros w. reflexivity. Qed.

Lemma keeps_cwd_bind {A B} (m : M os A) (k : A -> M os B) :
  keeps_cwd m -> (forall a, keeps_cwd (k a)) -> keeps_cwd (bind m k).
Proof.
  intros Hm Hk w. unfold bind. specialize (Hm w).
  destruct (m w) as [[a | e |] w1]; cbn in *; [| exact Hm ..].
  rewrite Hk. exact Hm.
Qed.

Lemma keeps_cwd_try {A} (m : M os A) (h : exn -> M os A) :
  keeps_cwd m -> (forall e, keeps_cwd (h e)) -> keeps_cwd (try_except m h).
Proof.
  intros Hm Hh w. unfold try_except. specialize (Hm w).
  destruct (m w) as [[a | e |] w1]; cbn in *; [exact Hm | | exact Hm].
  rewrite Hh. exact Hm.
Qed.

Lemma keeps_cwd_log e : keeps_cwd (log (os:=os) e).
Proof. intros w. reflexivity. Qed.

Lemma keeps_cwd_silent {A} (f : World os -> A) :
  keeps_cwd (fun w => (Ok (f w), w)).
Proof. intros w. reflexivity. Qed.

Lemma keeps_cwd_py_sys c : keeps_cwd (py_sys (os:=os) c).
Proof.
  intros w. unfold py_sys.
  destruct (sys_call os (ext w) (cwd w) c) as [[e |] x]; reflexivity.
Qed.

Lemma keeps_cwd_environ_get k : keeps_cwd (environ_get (os:=os) k).
Proof. intros w. unfold environ_get. destruct (environ w !! k); reflexivity. Qed.

Lemma keeps_cwd_environ_set k v : keeps_cwd (environ_set (os:=os) k v).
Proof. intros w. reflexivity. Qed.

End Logic.

Create HintDb py discriminated.

#[export] Hint Resolve emits_ret emits_log emits_silent emits_py_sys
  emits_py_chdir emits_environ_get emits_environ_set
  total_ret total_log total_silent
  ends_ret ends_log ends_silent ends_py_subprocess_run ends_py_sys
  ends_py_chdir ends_environ_get ends_environ_set
  keeps_cwd_ret keeps_cwd_log keeps_cwd_silent keeps_cwd_py_sys
  keeps_cwd_environ_get keeps_cwd_environ_set : py.
#[export] Hint Resolve total_ends | 5 : py.

(** One step through the structure of a computation. *)
Ltac py_step :=
  lazymatch goal with
  | |- emits _ (bind _ _) => apply emits_bind; [| intros ?]
  | |- emits _ (try_except _ _) => apply emits_try; [| intros ?]
  | |- total (bind _ _) => apply total_bind; [| intros ?]
  | |- total (try_except _ _) => apply total_try; [| intros ?]
  | |- ends (bind _ _) => apply ends_bind; [| intros ?]
  | |- ends (try_except _ _) => apply ends_try; [| intros ?]
  | |- keeps_cwd (bind _ _) => apply keeps_cwd_bind; [| intros ?]
  | |- keeps_cwd (try_except _ _) => apply keeps_cwd_try; [| intros ?]
  | |- _ (if ?b then _ else _) => destruct b
  | |- _ (match ?x with _ => _ end) => destruct x
  | |- _ (when ?b _) => unfold when
  end.

Ltac py_auto :=
  cbv zeta;
  repeat (first [ py_step
                | solve [ unfold print, time_sleep, os_putenv, path_exists,
                            path_islink, expanduser, uname_machine,
                            check_command_exists;
                          eauto with py ] ]).
Section RunCommandLoop.
Context {os : OS}.
Implicit Types (w : World os) (tr : list Event).

Lemma world_eta w : mkWorld (environ w) (cwd w) (ext w) (trace w ++ []) = w.
Proof. destruct w; cbn. now rewrite app_nil_r. Qed.

Lemma schedule_app tr1 tr2 : schedule (tr1 ++ tr2) = schedule tr1 ++ schedule tr2.
Proof. apply List.filter_app. Qed.

Lemma outcomes_app tr1 tr2 : outcomes (tr1 ++ tr2) = outcomes tr1 ++ outcomes tr2.
Proof. apply omap_app. Qed.

Lemma executions_app tr1 tr2 :
  executions (tr1 ++ tr2) = executions tr1 ++ executions tr2.
Proof. apply omap_app. Qed.

Lemma sleeps_app tr1 tr2 : sleeps (tr1 ++ tr2) = sleeps tr1 ++ sleeps tr2.
Proof. apply omap_app. Qed.

Lemma outcomes_schedule tr : outcomes (schedule tr) = outcomes tr.
Proof.
  unfold outcomes, schedule.
  induction tr as [| [] tr IH]; cbn; rewrite ?IH; reflexivity.
Qed.

Lemma executions_schedule tr : executions (schedule tr) = executions tr.
Proof.
  unfold executions, schedule.
  induction tr as [| [] tr IH]; cbn; rewrite ?IH; reflexivity.
Qed.

Lemma sleeps_schedule tr : sleeps (schedule tr) = sleeps tr.
Proof.
  unfold sleeps, schedule.
  induction tr as [| [] tr IH]; cbn; rewrite ?IH; reflexivity.
Qed.

Lemma outcomes_step cmd t R a o : outcomes (step_events cmd t R (a, o)) = [o].
Proof. unfold step_events. cbn. destruct (backoff_due R a o); reflexivity. Qed.

Lemma executions_step cmd t R ao : executions (step_events cmd t R ao) = [cmd].
Proof. unfold step_events. cbn. destruct (backoff_due _ _ _); reflexivity. Qed.

(** What the retry loop does, for any list of attempt numbers. *)
Lemma run_command_loop_spec cmd retries timeout attempts w :
  exists r x tr,
    run_command_loop cmd retries timeout attempts w
    = (Ok r, mkWorld (environ w) (cwd w) x (trace w ++ tr))
    /\ Forall runner_event tr
    /\ schedule tr
       = flat_map (step_events cmd timeout retries) (zip attempts (outcomes tr))
    /\ Forall (fun o => exists x' env d,
                 (subprocess_run os x' env d cmd timeout).1 = o) (outcomes tr)
    /\ (r.1 = false ->
        r.2 = EmptyString /\ length (outcomes tr) = length attempts)
    /\ (r.1 = true -> exists o, o ∈ outcomes tr /\ run_succeeded o = true).
Proof.
  revert w. induction attempts as [| a rest IH]; intros w.
  - exists (false, EmptyString), (ext w), []. cbn.
    rewrite world_eta. repeat split; auto; discriminate.
  - destruct (subprocess_run os (ext w) (environ w) (cwd w) cmd timeout)
      as [o x1] eqn:Hrun.
    destruct (attempt_step cmd retries timeout a w o x1 Hrun)
      as (tr1 & Hstep & Hev1 & Hsch1).
    assert (Hout1 : outcomes tr1 = [o]).
    { rewrite <- outcomes_schedule, Hsch1. apply outcomes_step. }
    assert (Horigin : exists x' env d,
               (subprocess_run os x' env d cmd timeout).1 = o).
    { exists (ext w), (environ w), (cwd w). now rewrite Hrun. }
    cbn [run_command_loop]. unfold bind at 1. rewrite Hstep.
    destruct (attempt_result o) as [v |] eqn:Hres.
    + assert (Hv : v.1 = true /\ run_succeeded o = true).
      { destruct o as [rc so se | e]; cbn in Hres |- *; [| discriminate].
        destruct (rc =? 0); inversion Hres; auto. }
      destruct Hv as [Hv Hok].
      exists v, x1, tr1. cbn [ret].
      rewrite Hout1, Hsch1. cbn [zip zip_with flat_map].
      rewrite zip_with_nil_r, app_nil_r.
      split; [reflexivity |]. split; [exact Hev1 |]. split; [reflexivity |].
      split; [constructor; auto |]. split.
      * rewrite Hv. discriminate.
      * intros _. exists o. split; [apply list_elem_of_here | exact Hok].
    + destruct (IH (mkWorld (environ w) (cwd w) x1 (trace w ++ tr1)))
        as (r & x & tr2 & Hloop & Hev2 & Hsch2 & Hor2 & Hf & Ht).
      cbn [environ cwd ext trace] in Hloop.
      exists r, x, (tr1 ++ tr2). rewrite Hloop, <- app_assoc.
      rewrite schedule_app, outcomes_app, Hout1, Hsch1, Hsch2.
      cbn [app zip zip_with flat_map length].
      split; [reflexivity |]. split; [apply Forall_app; auto |].
      split; [reflexivity |]. split; [constructor; auto |]. split.
      * intros Hr. destruct (Hf Hr) as [H1 H2]. split; [exact H1 |].
        now rewrite H2.
      * intros Hr. destruct (Ht Hr) as (o' & Ho & Hs). exists o'.
        split; [now apply list_elem_of_further | exact Hs].
Qed.

Lemma run_command_spec cmd retries timeout w :
  exists r x tr,
    run_command cmd retries timeout w
    = (Ok r, mkWorld (environ w) (cwd w) x (trace w ++ tr))
    /\ Forall runner_event tr
    /\ schedule tr
       = flat_map (step_events cmd timeout retries)
           (zip (range retries) (outcomes tr))
    /\ Forall (fun o => exists x' env d,
                 (subprocess_run os x' env d cmd timeout).1 = o) (outcomes tr)
    /\ (r.1 = false ->
        r.2 = EmptyString /\ length (outcomes tr) = Z.to_nat retries)
    /\ (r.1 = true -> exists o, o ∈ outcomes tr /\ run_succeeded o = true).
Proof.
  unfold run_command.
  destruct (run_command_loop_spec cmd retries timeout (range retries) w)
    as (r & x & tr & H).
  assert (Hlen : length (range retries) = Z.to_nat retries)
    by apply length_seqZ.
  rewrite Hlen in H. eauto.
Qed.

Lemma total_run_command cmd retries timeout :
  total (run_command (os:=os) cmd retries timeout).
Proof.
  intros w. destruct (run_command_spec cmd retries timeout w)
    as (r & x & tr & -> & _). eauto.
Qed.

Lemma emits_run_command P cmd retries timeout :
  (forall e, runner_event e -> P e) ->
  emits P (run_command (os:=os) cmd retries timeout).
Proof.
  intros HP w. destruct (run_command_spec cmd retries timeout w)
    as (r & x & tr & -> & Hev & _).
  exists tr. split; [reflexivity |]. eapply Forall_impl; eauto.
Qed.

Lemma keeps_cwd_run_command cmd retries timeout :
  keeps_cwd (run_command (os:=os) cmd retries timeout).
Proof.
  intros w. destruct (run_command_spec cmd retries timeout w)
    as (r & x & tr & -> & _). reflexivity.
Qed.

(** [run_command(cmd)] makes one attempt and reports how it went. *)
Lemma run_command1_spec cmd w :
  exists o out x tr,
    run_command1 cmd w
    = (Ok (run_succeeded o, out), mkWorld (environ w) (cwd w) x (trace w ++ tr))
    /\ Forall runner_event tr
    /\ schedule tr = [EvRun cmd 300 o].
Proof.
  unfold run_command1, run_command. change (range 1) with [0].
  destruct (subprocess_run os (ext w) (environ w) (cwd w) cmd 300)
    as [o x1] eqn:Hrun.
  destruct (attempt_step cmd 1 300 0 w o x1 Hrun) as (tr1 & Hstep & Hev1 & Hsch1).
  cbn [run_command_loop]. unfold bind. rewrite Hstep.
  assert (Hno : backoff_due 1 0 o = false).
  { destruct o as [rc ? ? |]; cbn; [| reflexivity]. apply andb_false_r. }
  unfold step_events in Hsch1. cbn [fst snd] in Hsch1. rewrite Hno in Hsch1.
  destruct o as [rc so se | e]; cbn [attempt_result].
  - destruct (rc =? 0) eqn:Hrc; cbn [ret].
    + exists (Completed rc so se), so, x1, tr1. cbn. rewrite Hrc. auto.
    + exists (Completed rc so se), EmptyString, x1, tr1. cbn. rewrite Hrc. auto.
  - exists (RunRaised e), EmptyString, x1, tr1. cbn. auto.
Qed.

End RunCommandLoop.
#[export] Hint Resolve total_run_command emits_run_command
  keeps_cwd_run_command : py.
#[export] Hint Extern 1 (runner_event _) => exact I : py.


Lemma executions_steps cmd timeout retries (l : list (Z * RunOutcome)) :
  executions (flat_map (step_events cmd timeout retries) l)
  = replicate (length l) cmd.
Proof.
  induction l as [| ao l IH]; cbn [flat_map]; [reflexivity |].
  rewrite executions_app, executions_step, IH. reflexivity.
Qed.

(** C1. A command that fails on every attempt is executed exactly [retries]
    times (no time at all for a count below one), and then [run_command]
    returns the failure pair: a false flag and the empty string. *)
Theorem run_command_exhausts_retries {os : OS} cmd retries timeout (w : World os) :
  always_fails (os:=os) cmd timeout ->
  exists w' tr,
    run_command cmd retries timeout w = (Ok (false, EmptyString), w')
    /\ trace w' = trace w ++ tr
    /\ executions tr = replicate (Z.to_nat retries) cmd.
Proof.
  intros Hfail.
  destruct (run_command_spec cmd retries timeout w)
    as (r & x & tr & Hrun & _ & Hsch & Horigin & Hf & Ht).
  assert (Hr : r.1 = false).
  { destruct r.1 eqn:E; [| reflexivity].
    destruct (Ht eq_refl) as (o & Ho & Hok).
    rewrite Forall_forall in Horigin.
    destruct (Horigin o Ho) as (x' & env & d & <-).
    rewrite Hfail in Hok. discriminate. }
  destruct (Hf Hr) as [Hout Hlen].
  exists (mkWorld (environ w) (cwd w) x (trace w ++ tr)), tr.
  split; [| split; [reflexivity |]].
  - rewrite Hrun. destruct r as [b s]; cbn in *. now subst.
  - rewrite <- executions_schedule, Hsch.
    assert (Hz : length (zip (range retries) (outcomes tr)) = Z.to_nat retries).
    { rewrite length_zip_with. unfold range. rewrite length_seqZ. lia. }
    rewrite <- Hz. apply executions_steps.
Qed.

Lemma run_command_exhausts_retries_witness :
  exists w' tr,
    run_command (os := sim_os bare) "false" 3 300 (boot bare)
    = (Ok (false, EmptyString), w')
    /\ trace w' = trace (boot bare) ++ tr
    /\ executions tr = ["false"; "false"; "false"].
Proof.
  apply (run_command_exhausts_retries (os := sim_os bare) "false" 3 300).
  intros x env d. reflexivity.
Defined.

(** The schedule [run_command] actually follows.  Whatever the command
    does, its executions and pauses are, attempt by attempt: the execution,
    followed by one pause of 2 seconds exactly when the attempt exited
    non-zero and was not the last.  When the runner reports failure every one
    of the [retries] attempts was used, however each of them failed: a
    timeout counts as a failed attempt.  No pause follows an attempt that
    timed out or raised. *)
Theorem run_command_backoff_schedule {os : OS} cmd retries timeout (w : World os) :
  exists r w' tr,
    run_command cmd retries timeout w = (Ok r, w')
    /\ trace w' = trace w ++ tr
    /\ schedule tr
       = flat_map (step_events cmd timeout retries)
           (zip (range retries) (outcomes tr))
    /\ (r.1 = false -> length (outcomes tr) = Z.to_nat retries).
Proof.
  destruct (run_command_spec cmd retries timeout w)
    as (r & x & tr & Hrun & _ & Hsch & _ & Hf & _).
  exists r, (mkWorld (environ w) (cwd w) x (trace w ++ tr)), tr.
  repeat split; auto. intros Hr. now apply Hf.
Qed.

Lemma run_command_backoff_schedule_witness :
  exists r w' tr,
    run_command (os := sim_os bare) "make" 3 300 (boot bare) = (Ok r, w')
    /\ trace w' = trace (boot bare) ++ tr
    /\ schedule tr
       = flat_map (step_events "make" 300 3) (zip (range 3) (outcomes tr))
    /\ (r.1 = false -> length (outcomes tr) = 3%nat).
Proof.
  apply (run_command_backoff_schedule (os := sim_os bare) "make" 3 300).
Defined.

(** C2, a defect of the code.  The backoff of 2 seconds is owed after every
    failed attempt that is not the last, and [run_command] takes it after a
    non-zero exit; after a timeout it does not.  With two attempts allowed
    and a command that runs into its timeout, the first attempt fails and is
    not the last, yet the runner goes straight on to the second: the trace
    holds the two executions and no pause.  The handler of
    [subprocess.TimeoutExpired] only prints; the [time.sleep(2)] sits in the
    branch of the non-zero exit alone. *)
Lemma run_command_no_backoff_after_timeout :
  let tr := trace (run_command (os := sim_os hanging) "make" 2 300
                     (boot hanging)).2 in
  outcomes tr = [RunRaised TimeoutExpired; RunRaised TimeoutExpired]
  /\ sleeps tr = [].
Proof. vm_compute. split; reflexivity. Qed.

(** C9. [run_command] always returns a pair and never raises; when the flag
    is false the output component is the empty string, whatever the failing
    attempts wrote. *)
Theorem run_command_never_raises {os : OS} cmd retries timeout (w : World os) :
  exists ok out w',
    run_command cmd retries timeout w = (Ok (ok, out), w')
    /\ (ok = false -> out = EmptyString).
Proof.
  destruct (run_command_spec cmd retries timeout w)
    as (r & x & tr & Hrun & _ & _ & _ & Hf & _).
  destruct r as [ok out]. exists ok, out. eexists. split; [exact Hrun |].
  intros Hok. now apply Hf.
Qed.

Lemma run_command_never_raises_witness :
  (exists ok out w',
     run_command (os := sim_os bare) "make" 2 300 (boot bare)
     = (Ok (ok, out), w')
     /\ (ok = false -> out = EmptyString))
  /\ outcomes (trace (run_command (os := sim_os bare) "make" 2 300
                        (boot bare)).2)
     = [Completed 1 "partial output" "boom"; Completed 1 "partial output" "boom"]
  /\ (run_command (os := sim_os bare) "make" 2 300 (boot bare)).1
     = Ok (false, EmptyString).
Proof.
  split; [apply (run_command_never_raises (os := sim_os bare) "make" 2 300) |].
  vm_compute. split; reflexivity.
Defined.

Lemma append_cons c (s t : string) : String c s +:+ t = String c (s +:+ t).
Proof. reflexivity. Qed.

Lemma split_prepend (path old : string) :
  Str.contains ":" path = false ->
  Str.split ":" (path +:+ ":" +:+ old) = path :: Str.split ":" old.
Proof.
  induction path as [| c p IH]; intros Hc.
  - reflexivity.
  - cbn [Str.contains] in Hc. rewrite append_cons. cbn [Str.split].
    destruct (decide (c = ":"%char)); [discriminate |].
    rewrite (IH Hc). reflexivity.
Qed.

(** [add_to_path] in closed form. *)
Lemma add_to_path_eq {os : OS} path (w : World os) :
  add_to_path path w =
  if Str.nonempty path && os_path_exists os (ext w) (cwd w) path then
    match environ w !! "PATH" with
    | None => (Raise (KeyError "PATH"), w)
    | Some old =>
        if bool_decide (path ∈ Str.split ":" old) then (Ok false, w)
        else (Ok true,
              mkWorld (<["PATH" := path +:+ ":" +:+ old]> (environ w))
                (cwd w) (ext w)
                (trace w ++ [EvPutenv "PATH" (path +:+ ":" +:+ old);
                             EvPrint ("Added " +:+ path +:+ " to PATH")]))
    end
  else (Ok false, w).
Proof.
  unfold add_to_path.
  destruct (Str.nonempty path); [| reflexivity].
  unfold bind at 1. unfold path_exists at 1. cbn [andb].
  destruct (os_path_exists os (ext w) (cwd w) path); [| reflexivity].
  unfold bind at 1. unfold environ_get at 1.
  destruct (environ w !! "PATH") as [old |] eqn:Hpath; [| reflexivity].
  destruct (bool_decide (path ∈ Str.split ":" old)); [reflexivity |].
  unfold bind, environ_get, environ_set, os_putenv, print, log, ret.
  cbn. rewrite Hpath, lookup_insert_eq. cbn. rewrite <- app_assoc. reflexivity.
Qed.

(** C8, as the code has it.  [add_to_path] changes [PATH] only by prepending
    the directory and a colon; a directory that is already a component of
    [PATH] leaves the whole process state untouched and gives [False]; and for
    a directory whose name holds no colon a second call with the same
    directory changes nothing, after whatever the first one did.  Only the
    last part needs the name to be free of colons. *)
Theorem add_to_path_prepends_once {os : OS} path (w : World os) :
  let w1 := (add_to_path path w).2 in
  (environ w1 = environ w
   \/ exists old, environ w !! "PATH" = Some old
        /\ environ w1 = <["PATH" := path +:+ ":" +:+ old]> (environ w))
  /\ (forall old, environ w !! "PATH" = Some old ->
        path ∈ Str.split ":" old -> add_to_path path w = (Ok false, w))
  /\ (Str.contains ":" path = false -> (add_to_path path w1).2 = w1).
Proof.
  cbv zeta. split; [| split].
  - rewrite add_to_path_eq.
    destruct (_ && _); [| auto].
    destruct (environ w !! "PATH") as [old |]; [| auto].
    destruct (bool_decide _); [auto |]. right. eauto.
  - intros old Hold Hin. rewrite add_to_path_eq, Hold.
    rewrite bool_decide_eq_true_2 by exact Hin.
    now destruct (_ && _).
  - intros Hcolon. rewrite (add_to_path_eq path w).
    destruct (Str.nonempty path && os_path_exists os (ext w) (cwd w) path)
      eqn:Hguard.
    2: { cbn [snd]. rewrite add_to_path_eq, Hguard. reflexivity. }
    destruct (environ w !! "PATH") as [old |] eqn:Hpath.
    2: { cbn [snd]. rewrite add_to_path_eq, Hguard, Hpath. reflexivity. }
    destruct (bool_decide (path ∈ Str.split ":" old)) eqn:Hin.
    { cbn [snd]. rewrite add_to_path_eq, Hguard, Hpath, Hin. reflexivity. }
    cbn [snd]. rewrite add_to_path_eq. cbn [environ cwd ext trace].
    rewrite Hguard, lookup_insert_eq, (split_prepend path old Hcolon).
    rewrite bool_decide_eq_true_2 by apply list_elem_of_here.
    reflexivity.
Qed.

Lemma add_to_path_prepends_once_witness :
  let s := with_files ["/opt/node/bin"] bare in
  let w1 := (add_to_path (os := sim_os s) "/opt/node/bin" (boot s)).2 in
  environ w1 !! "PATH" = Some "/opt/node/bin:/usr/bin:/bin"
  /\ add_to_path "/opt/node/bin" w1 = (Ok false, w1)
  /\ (add_to_path "/opt/node/bin" w1).2 = w1.
Proof.
  intros s w1. split; [vm_compute; reflexivity |].
  pose proof (add_to_path_prepends_once (os := sim_os s) "/opt/node/bin" (boot s))
    as (_ & _ & Hidem).
  pose proof (add_to_path_prepends_once (os := sim_os s) "/opt/node/bin" w1)
    as (_ & Hdedup & _).
  split.
  - apply (Hdedup "/opt/node/bin:/usr/bin:/bin"); [vm_compute; reflexivity |].
    apply (bool_decide_unpack _). vm_compute. exact I.
  - apply Hidem. reflexivity.
Defined.

(** C8 refuted as stated: a directory whose name holds a colon is never found
    among the components of [PATH], so a second call prepends it again. *)
Lemma add_to_path_twice_with_colon :
  let s := with_files ["/opt/a:b"] bare in
  let w1 := (add_to_path (os := sim_os s) "/opt/a:b" (boot s)).2 in
  let w2 := (add_to_path "/opt/a:b" w1).2 in
  environ w1 !! "PATH" = Some "/opt/a:b:/usr/bin:/bin"
  /\ (add_to_path "/opt/a:b" w1).1 = Ok true
  /\ environ w2 !! "PATH" = Some "/opt/a:b:/opt/a:b:/usr/bin:/bin".
Proof. vm_compute. repeat split; reflexivity. Qed.
#[export] Hint Extern 1 (plain_event _) => exact I : py.

Lemma runner_event_plain e : runner_event e -> plain_event e.
Proof. destruct e; cbn; auto. Qed.

#[export] Hint Resolve runner_event_plain : py.

Section StrategyFacts.
Context {os : OS}.

Lemma emits_run_command1 P cmd :
  (forall e, runner_event e -> P e) -> emits P (run_command1 (os:=os) cmd).
Proof. apply emits_run_command. Qed.

Lemma total_run_command1 cmd : total (run_command1 (os:=os) cmd).
Proof. apply total_run_command. Qed.

Lemma keeps_cwd_run_command1 cmd : keeps_cwd (run_command1 (os:=os) cmd).
Proof. apply keeps_cwd_run_command. Qed.

Lemma emits_add_to_path P path :
  (forall k v, P (EvPutenv k v)) -> (forall s, P (EvPrint s)) ->
  emits P (add_to_path (os:=os) path).
Proof. intros Hputenv Hprint. unfold add_to_path. py_auto. Qed.

Lemma keeps_cwd_add_to_path path : keeps_cwd (add_to_path (os:=os) path).
Proof. unfold add_to_path. py_auto. Qed.

Lemma ends_add_to_path path : ends (add_to_path (os:=os) path).
Proof. unfold add_to_path. py_auto. Qed.

End StrategyFacts.

#[export] Hint Resolve emits_run_command1 total_run_command1
  keeps_cwd_run_command1 emits_add_to_path keeps_cwd_add_to_path
  ends_add_to_path : py.

Section StrategyFacts2.
Context {os : OS}.

Lemma emits_remove_stale_link p :
  emits plain_event (remove_stale_link (os:=os) p).
Proof. unfold remove_stale_link. py_auto. Qed.

Lemma emits_install_npm_separately d :
  emits plain_event (install_npm_separately (os:=os) d).
Proof. unfold install_npm_separately. pose proof emits_remove_stale_link. py_auto. Qed.

Lemma ends_remove_stale_link p : ends (remove_stale_link (os:=os) p).
Proof. unfold remove_stale_link. py_auto. Qed.

Lemma total_install_npm_separately d :
  total (install_npm_separately (os:=os) d).
Proof. unfold install_npm_separately. pose proof ends_remove_stale_link. py_auto. Qed.

End StrategyFacts2.

#[export] Hint Resolve emits_remove_stale_link emits_install_npm_separately
  total_install_npm_separately ends_remove_stale_link : py.

Section StrategyFacts3.
Context {os : OS}.

Lemma emits_precompiled_downloads b n urls :
  emits plain_event (precompiled_downloads (os:=os) b n urls).
Proof. induction urls as [| url rest IH]; cbn [precompiled_downloads]; py_auto. Qed.

Lemma ends_precompiled_downloads b n urls :
  ends (precompiled_downloads (os:=os) b n urls).
Proof. induction urls as [| url rest IH]; cbn [precompiled_downloads]; py_auto. Qed.

Lemma emits_portable :
  emits plain_event (install_nodejs_portable_binary (os:=os)).
Proof. unfold install_nodejs_portable_binary. py_auto. Qed.

Lemma total_portable : total (install_nodejs_portable_binary (os:=os)).
Proof. unfold install_nodejs_portable_binary. py_auto. Qed.

Lemma emits_precompiled :
  emits plain_event (install_nodejs_precompiled_binary (os:=os)).
Proof.
  unfold install_nodejs_precompiled_binary.
  pose proof emits_precompiled_downloads. py_auto.
Qed.

Lemma total_precompiled : total (install_nodejs_precompiled_binary (os:=os)).
Proof.
  unfold install_nodejs_precompiled_binary.
  pose proof ends_precompiled_downloads. py_auto.
Qed.

Lemma emits_static :
  emits plain_event (install_nodejs_static_binary (os:=os)).
Proof. unfold install_nodejs_static_binary. py_auto. Qed.

Lemma total_static : total (install_nodejs_static_binary (os:=os)).
Proof. unfold install_nodejs_static_binary. py_auto. Qed.

Lemma emits_source :
  emits plain_event (install_nodejs_from_source_simple (os:=os)).
Proof.
  unfold install_nodejs_from_source_simple, source_build_try,
    configure_make_install. py_auto.
Qed.

Lemma total_source : total (install_nodejs_from_source_simple (os:=os)).
Proof.
  unfold install_nodejs_from_source_simple, source_build_try,
    configure_make_install. py_auto.
Qed.

End StrategyFacts3.
#[export] Hint Resolve emits_portable total_portable emits_precompiled
  total_precompiled emits_static total_static emits_source total_source : py.

Lemma call_log_app tr1 tr2 : call_log (tr1 ++ tr2) = call_log tr1 ++ call_log tr2.
Proof. apply List.filter_app. Qed.

Lemma call_log_plain tr : Forall plain_event tr -> call_log tr = [].
Proof.
  induction 1 as [| e tr He _ IH]; [reflexivity |].
  unfold call_log in *. destruct e; cbn in *; auto; contradiction.
Qed.

Lemma elem_of_call_log e tr : e ∈ call_log tr -> e ∈ tr.
Proof.
  unfold call_log. rewrite !list_elem_of_In, List.filter_In. tauto.
Qed.

Lemma call_in_call_log fn tr : EvCall fn ∈ tr -> EvCall fn ∈ call_log tr.
Proof.
  unfold call_log. rewrite !list_elem_of_In, List.filter_In. tauto.
Qed.

Lemma ret_in_call_log fn b tr : EvRet fn b ∈ tr -> EvRet fn b ∈ call_log tr.
Proof.
  unfold call_log. rewrite !list_elem_of_In, List.filter_In. tauto.
Qed.

Section Chain.
Context {os : OS}.

(** [call] around a computation that returns and leaves no marks. *)
Lemma call_spec fn (m : M os bool) w :
  emits plain_event m -> total m ->
  exists b w' tr,
    call fn m w = (Ok b, w')
    /\ trace w' = trace w ++ tr
    /\ call_log tr = [EvCall fn; EvRet fn b].
Proof.
  intros Hem Htot. unfold call, bind, log, ret. cbn.
  set (w1 := mkWorld (environ w) (cwd w) (ext w) (trace w ++ [EvCall fn])).
  destruct (Htot w1) as (b & Hb). destruct (Hem w1) as (trm & Htr & Hplain).
  destruct (m w1) as [r w2]. cbn in Hb, Htr. subst r.
  exists b. eexists. exists ([EvCall fn] ++ trm ++ [EvRet fn b]).
  split; [reflexivity |]. cbn [trace]. rewrite Htr. subst w1. cbn [trace].
  split; [now rewrite <- !app_assoc |].
  rewrite !call_log_app, (call_log_plain trm Hplain). reflexivity.
Qed.

(** The chain over any list of strategies that return and leave no marks:
    failures up to the first success, and nothing after it. *)
Lemma try_methods_spec n i (ms : list (string * M os bool)) w :
  Forall (fun fm => emits plain_event fm.2 /\ total fm.2) ms ->
  exists r w' tr results,
    try_methods n i ms w = (Ok r, w')
    /\ trace w' = trace w ++ tr
    /\ call_log tr = chain_log (zip ms.*1 results)
    /\ ((r = false /\ results = replicate (length ms) false)
        \/ (r = true /\ exists k, (k < length ms)%nat
                          /\ results = replicate k false ++ [true])).
Proof.
  intros Hms. revert i w.
  induction Hms as [| [fn m] rest [Hem Htot] _ IH]; intros i w.
  - exists false. eexists. exists [EvPrint "All Node.js installation methods failed!"], [].
    split; [reflexivity |]. split; [reflexivity |]. split; [reflexivity |].
    left. auto.
  - cbn [try_methods]. unfold bind at 1. unfold print at 1, log at 1.
    set (w0 := mkWorld _ _ _ _).
    destruct (call_spec fn m w0 Hem Htot) as (b & w1 & trc & Hcall & Htrc & Hlog).
    unfold bind at 1. cbn [fst snd] in *. rewrite Hcall.
    destruct b.
    + exists true. eexists.
      exists ([EvPrint (nl +:+ "Trying method " +:+ pretty i +:+ "/" +:+ pretty n)]
              ++ trc
              ++ [EvPrint ("✓ Node.js installed successfully using method "
                           +:+ pretty i)]).
      exists [true].
      split; [reflexivity |]. split.
      { cbn. rewrite Htrc. subst w0. cbn. now rewrite <- !app_assoc. }
      split.
      { rewrite !call_log_app, Hlog.
        change (((fn, m) :: rest).*1) with (fn :: rest.*1).
        cbn [zip zip_with]. rewrite zip_with_nil_r. reflexivity. }
      right. split; [reflexivity |]. exists 0%nat. cbn. split; [lia | reflexivity].
    + unfold bind at 1. unfold print at 1, log at 1.
      set (w2 := mkWorld _ _ _ _).
      destruct (IH (i + 1) w2) as (r & w' & tr & results & Hrun & Htr & Hlog' & Hshape).
      exists r, w'.
      exists ([EvPrint (nl +:+ "Trying method " +:+ pretty i +:+ "/" +:+ pretty n)]
              ++ trc ++ [EvPrint ("✗ Method " +:+ pretty i +:+ " failed")] ++ tr).
      exists (false :: results).
      split; [exact Hrun |]. split.
      { rewrite Htr. subst w2. cbn. rewrite Htrc. subst w0. cbn.
        now rewrite <- !app_assoc. }
      split.
      { rewrite !call_log_app, Hlog, Hlog'. reflexivity. }
      destruct Hshape as [[-> ->] | [-> (k & Hk & ->)]].
      * left. auto.
      * right. split; [reflexivity |]. exists (S k). cbn. split; [lia | reflexivity].
Qed.

End Chain.
Lemma downloads_app tr1 tr2 : downloads (tr1 ++ tr2) = downloads tr1 ++ downloads tr2.
Proof. apply omap_app. Qed.

Lemma downloads_runner tr : Forall runner_event tr -> downloads tr = [].
Proof.
  induction 1 as [| e tr He _ IH]; [reflexivity |].
  unfold downloads in *. destruct e; cbn in *; auto; contradiction.
Qed.

Lemma call_log_runner tr : Forall runner_event tr -> call_log tr = [].
Proof.
  intros H. apply call_log_plain. eapply Forall_impl; eauto using runner_event_plain.
Qed.

Lemma executions_of_schedule tr l :
  schedule tr = l -> executions tr = executions l.
Proof. intros <-. symmetry. apply executions_schedule. Qed.

(** C3. When [node] and [npm] both resolve on [PATH], the acquisition chain
    returns success after printing the two version numbers: no strategy is
    called and no download is attempted. *)
Theorem install_nodejs_restricted_already_present {os : OS} (w : World os) :
  shutil_which os (ext w) (environ w) (cwd w) "node" = true ->
  shutil_which os (ext w) (environ w) (cwd w) "npm" = true ->
  exists w' tr,
    install_nodejs_restricted w = (Ok true, w')
    /\ trace w' = trace w ++ tr
    /\ call_log tr = []
    /\ downloads tr = []
    /\ executions tr = ["node --version"; "npm --version"].
Proof.
  intros Hnode Hnpm.
  unfold install_nodejs_restricted, bind, print, log, check_command_exists, ret.
  cbn. rewrite Hnode, Hnpm. cbn.
  match goal with |- context [run_command1 "node --version" ?w0] =>
    destruct (run_command1_spec "node --version" w0)
      as (o1 & out1 & x1 & tr1 & -> & Hev1 & Hsch1) end.
  cbn.
  match goal with |- context [run_command1 "npm --version" ?w0] =>
    destruct (run_command1_spec "npm --version" w0)
      as (o2 & out2 & x2 & tr2 & -> & Hev2 & Hsch2) end.
  cbn. eexists. eexists. split; [reflexivity |]. cbn.
  rewrite <- !app_assoc. split; [reflexivity |].
  rewrite !call_log_app, !downloads_app, !executions_app.
  rewrite (call_log_runner tr1), (call_log_runner tr2) by assumption.
  rewrite (downloads_runner tr1), (downloads_runner tr2) by assumption.
  rewrite (executions_of_schedule _ _ Hsch1), (executions_of_schedule _ _ Hsch2).
  repeat split.
Qed.

Lemma install_nodejs_restricted_already_present_witness :
  let s := with_commands ["node"; "npm"] bare in
  exists w' tr,
    install_nodejs_restricted (os := sim_os s) (boot s) = (Ok true, w')
    /\ trace w' = trace (boot s) ++ tr
    /\ call_log tr = []
    /\ downloads tr = []
    /\ executions tr = ["node --version"; "npm --version"].
Proof.
  intros s.
  apply (install_nodejs_restricted_already_present (os := sim_os s) (boot s));
    reflexivity.
Defined.
Lemma methods_behave {os : OS} :
  Forall (fun fm => emits plain_event fm.2 /\ total fm.2) (methods (os:=os)).
Proof. unfold methods. repeat constructor; cbn; auto with py. Qed.

(** Membership in an explicit list of events, by cases. *)
Ltac in_marks H :=
  repeat (apply elem_of_cons in H as [H | H]; [try congruence |]);
  try (apply elem_of_nil in H; contradiction).

(** C4. The marks left in the trace by [install_nodejs_restricted] are those
    of the four strategies called in the order of [methods], each returning
    [False] until one returns [True]; that one is the last called and the
    chain returns success.  So once strategy [i] has succeeded no later
    strategy is called, and a strategy is called only after every earlier one
    has failed.  The chain returns failure only after all four failed. *)
Theorem install_nodejs_restricted_short_circuits {os : OS} (w : World os) :
  exists r w' tr results,
    install_nodejs_restricted w = (Ok r, w')
    /\ trace w' = trace w ++ tr
    /\ call_log tr = chain_log (zip method_names results)
    /\ ((r = true /\ results = [])
        \/ (r = true /\ exists k, (k < 4)%nat
                          /\ results = replicate k false ++ [true])
        \/ (r = false /\ results = [false; false; false; false]))
    /\ (forall i fn, method_names !! i = Some fn -> EvRet fn true ∈ tr ->
          r = true
          /\ forall j fn', method_names !! j = Some fn' -> (i < j)%nat ->
               EvCall fn' ∉ tr)
    /\ (forall i j fn fn', method_names !! i = Some fn ->
          method_names !! j = Some fn' -> (i < j)%nat ->
          EvCall fn' ∈ tr -> EvRet fn false ∈ tr).
Proof.
  assert (Hshape : exists r w' tr results,
    install_nodejs_restricted w = (Ok r, w')
    /\ trace w' = trace w ++ tr
    /\ call_log tr = chain_log (zip method_names results)
    /\ ((r = true /\ results = [])
        \/ (r = true /\ exists k, (k < 4)%nat
                          /\ results = replicate k false ++ [true])
        \/ (r = false /\ results = [false; false; false; false]))).
  { unfold install_nodejs_restricted, bind, print, log, check_command_exists, ret.
    cbn -[try_methods methods].
    destruct (shutil_which os (ext w) (environ w) (cwd w) "node"
              && shutil_which os (ext w) (environ w) (cwd w) "npm").
    - match goal with |- context [run_command1 "node --version" ?w0] =>
        destruct (run_command1_spec "node --version" w0)
          as (o1 & out1 & x1 & tr1 & -> & Hev1 & Hsch1) end.
      cbn.
      match goal with |- context [run_command1 "npm --version" ?w0] =>
        destruct (run_command1_spec "npm --version" w0)
          as (o2 & out2 & x2 & tr2 & -> & Hev2 & Hsch2) end.
      cbn. exists true. eexists. eexists. exists [].
      split; [reflexivity |]. cbn. rewrite <- !app_assoc.
      split; [reflexivity |]. split; [| auto].
      rewrite !call_log_app.
      rewrite (call_log_runner tr1), (call_log_runner tr2) by assumption.
      reflexivity.
    - match goal with |- context [try_methods ?n ?i ?ms ?w0] =>
        destruct (try_methods_spec n i ms w0 methods_behave)
          as (r & w' & tr & results & -> & Htr & Hlog & Hcases) end.
      exists r, w'. eexists. exists results.
      split; [reflexivity |]. rewrite Htr. cbn. rewrite <- !app_assoc.
      split; [reflexivity |]. split.
      + rewrite !call_log_app. exact Hlog.
      + destruct Hcases as [[-> ->] | [-> Hk]]; auto. }
  destruct Hshape as (r & w' & tr & results & Hrun & Htr & Hlog & Hcases).
  exists r, w', tr, results.
  split; [exact Hrun |]. split; [exact Htr |]. split; [exact Hlog |].
  split; [exact Hcases |].
  assert (Hconcrete :
    (r = true /\ (results = [] \/ results = [true] \/ results = [false; true]
                 \/ results = [false; false; true]
                 \/ results = [false; false; false; true]))
    \/ (r = false /\ results = [false; false; false; false])).
  { destruct Hcases as [[-> ->] | [[-> (k & Hk & ->)] | [-> ->]]]; auto.
    left. split; [reflexivity |].
    destruct k as [| [| [| [|]]]]; auto 6; lia. }
  clear Hcases. split.
  - intros i fn Hi Hret. apply ret_in_call_log in Hret. rewrite Hlog in Hret.
    destruct Hconcrete as [[-> Hres] | [-> ->]].
    + split; [reflexivity |]. intros j fn' Hj Hij Hcall.
      apply call_in_call_log in Hcall. rewrite Hlog in Hcall.
      destruct Hres as [-> | [-> | [-> | [-> | ->]]]];
        cbn in Hret, Hcall; in_marks Hret;
        destruct i as [| [| [| [|]]]]; cbn in Hi; try congruence;
        destruct j as [| [| [| [|]]]]; cbn in Hj; try congruence; try lia;
        inversion Hj; subst fn'; in_marks Hcall.
    + cbn in Hret. in_marks Hret.
  - intros i j fn fn' Hi Hj Hij Hcall.
    apply call_in_call_log in Hcall. rewrite Hlog in Hcall.
    assert (Hgoal : EvRet fn false ∈ call_log tr);
      [| now apply elem_of_call_log].
    rewrite Hlog.
    destruct Hconcrete as [[-> [-> | [-> | [-> | [-> | ->]]]]] | [-> ->]];
      cbn in Hcall |- *;
      destruct j as [| [| [| [|]]]]; cbn in Hj; try congruence; try lia;
      inversion Hj; subst fn'; in_marks Hcall;
      destruct i as [| [| [| [|]]]]; cbn in Hi; try congruence; try lia;
      inversion Hi; subst fn; set_solver.
Qed.
#[export] Hint Extern 1 (quiet_event _) => exact I : py.

Lemma runner_event_quiet e : runner_event e -> quiet_event e.
Proof. destruct e; cbn; auto. Qed.

#[export] Hint Resolve runner_event_quiet : py.

Lemma chdirs_app tr1 tr2 : chdirs (tr1 ++ tr2) = chdirs tr1 ++ chdirs tr2.
Proof. apply omap_app. Qed.

Lemma chdirs_quiet tr : Forall quiet_event tr -> chdirs tr = [].
Proof.
  induction 1 as [| e tr He _ IH]; [reflexivity |].
  unfold chdirs in *. destruct e; cbn in *; auto; contradiction.
Qed.

Section SourceBuild.
Context {os : OS}.

Lemma emits_configure_make_install :
  emits quiet_event (configure_make_install (os:=os)).
Proof. unfold configure_make_install. py_auto. Qed.

Lemma keeps_cwd_configure_make_install :
  keeps_cwd (configure_make_install (os:=os)).
Proof. unfold configure_make_install. py_auto. Qed.

Lemma ends_configure_make_install :
  ends (configure_make_install (os:=os)).
Proof. unfold configure_make_install. py_auto. Qed.

Lemma os_path_join_root d : os_path_join d "/" = "/".
Proof. reflexivity. Qed.

(** Where the [try] block of the source build leaves the process. *)
Lemma source_build_try_cwd (w : World os) :
  exists tr,
    trace (source_build_try w).2 = trace w ++ tr
    /\ match (source_build_try w).1 with
       | Ok true =>
           chdirs tr = [source_dir_in w]
           /\ cwd (source_build_try w).2 = os_path_join (cwd w) (source_dir_in w)
       | Ok false =>
           chdirs tr = [source_dir_in w; "/"]
           /\ cwd (source_build_try w).2 = "/"
       | Raise _ =>
           (chdirs tr = [] \/ chdirs tr = [source_dir_in w]
            \/ chdirs tr = [source_dir_in w; "/"])
           /\ (cwd (source_build_try w).2 = cwd w
               \/ cwd (source_build_try w).2
                  = os_path_join (cwd w) (source_dir_in w))
       | Blocked => False
       end.
Proof.
  destruct (source_build_try w) as [r w'] eqn:Hsbt. cbn [fst snd].
  unfold source_dir_in, source_dir_of.
  unfold source_build_try in Hsbt.
  unfold bind at 1 in Hsbt. unfold expanduser at 1 in Hsbt.
  set (home := os_path_expanduser os (ext w) (environ w) "~") in *.
  cbv zeta in Hsbt.
  set (build := os_path_join home ".node-build") in *.
  set (src := os_path_join build "node-v20.17.0") in *.
  unfold bind at 1 in Hsbt. unfold py_sys at 1 in Hsbt.
  destruct (sys_call os (ext w) (cwd w) _) as [[e |] x1].
  { inversion Hsbt; subst r w'. eexists. cbn. split; [reflexivity |]. auto. }
  unfold bind at 1 in Hsbt. unfold print at 1, log at 1 in Hsbt.
  cbn [environ cwd ext trace] in Hsbt.
  unfold bind at 1 in Hsbt. unfold py_sys at 1 in Hsbt.
  cbn [environ cwd ext trace] in Hsbt.
  destruct (sys_call os x1 (cwd w) _) as [[e |] x2].
  { inversion Hsbt; subst r w'. eexists. cbn. rewrite <- !app_assoc.
    split; [reflexivity |]. auto. }
  unfold bind at 1 in Hsbt. unfold py_sys at 1 in Hsbt.
  cbn [environ cwd ext trace] in Hsbt.
  destruct (sys_call os x2 (cwd w) _) as [[e |] x3].
  { inversion Hsbt; subst r w'. eexists. cbn. rewrite <- !app_assoc.
    split; [reflexivity |]. auto. }
  unfold bind at 1 in Hsbt. unfold py_chdir at 1 in Hsbt.
  cbn [environ cwd ext trace] in Hsbt.
  destruct (os_chdir os x3 (cwd w) src) as [e |].
  { inversion Hsbt; subst r w'. eexists. cbn. rewrite <- !app_assoc.
    split; [reflexivity |]. cbn. auto. }
  unfold bind at 1 in Hsbt.
  match type of Hsbt with context [configure_make_install ?w0] =>
    set (w4 := w0) in *;
    pose proof (keeps_cwd_configure_make_install w4) as Hcwd;
    pose proof (ends_configure_make_install w4) as Hends;
    destruct (emits_configure_make_install w4) as (trb & Htrb & Hquiet) end.
  destruct (configure_make_install w4) as [[installed | e |] w5];
    cbn [fst snd] in *; [| | congruence].
  2: { inversion Hsbt; subst r w'. eexists.
       rewrite Htrb, Hcwd. subst w4. cbn [trace cwd].
       rewrite <- !app_assoc. split; [reflexivity |].
       rewrite !chdirs_app, (chdirs_quiet trb Hquiet). cbn. auto. }
  destruct installed.
  - inversion Hsbt; subst r w'. eexists.
    rewrite Htrb, Hcwd. subst w4. cbn [trace cwd].
    rewrite <- !app_assoc. split; [reflexivity |].
    rewrite !chdirs_app, (chdirs_quiet trb Hquiet). cbn. auto.
  - unfold bind at 1 in Hsbt. unfold py_chdir at 1 in Hsbt.
    destruct (os_chdir os (ext w5) (cwd w5) "/") as [e |];
      inversion Hsbt; subst r w'; eexists; cbn [trace cwd];
      rewrite Htrb, ?Hcwd; subst w4; cbn [trace cwd];
      rewrite <- !app_assoc; (split; [reflexivity |]);
      rewrite !chdirs_app, (chdirs_quiet trb Hquiet); cbn; auto.
Qed.

End SourceBuild.

Lemma chdirs_print s tr : chdirs (EvPrint s :: tr) = chdirs tr.
Proof. reflexivity. Qed.

(** C10. [install_nodejs_from_source_simple] changes the working directory
    of the process and never changes back to the directory it was called in:
    when it returns [True] the process is left in the extracted source tree;
    when its [try] block ends without an exception and it returns [False]
    the process is left in the root directory.  The only directories it ever
    changes to are the source tree and then the root.  The [try] block always
    comes to an end: the wait of the launcher for its child is the only call
    modelled as one that may never return. *)
Theorem install_nodejs_from_source_simple_leaves_cwd {os : OS} (w : World os) :
  let w0 := (print "Trying simplified Node.js source build..." w).2 in
  let src := source_dir_in w in
  exists r w' tr,
    install_nodejs_from_source_simple w = (Ok r, w')
    /\ trace w' = trace w ++ tr
    /\ match (source_build_try w0).1 with
       | Ok true =>
           r = true /\ chdirs tr = [src]
           /\ cwd w' = os_path_join (cwd w) src
       | Ok false =>
           r = false /\ chdirs tr = [src; "/"] /\ cwd w' = "/"
       | Raise _ =>
           r = false
           /\ (chdirs tr = [] \/ chdirs tr = [src] \/ chdirs tr = [src; "/"])
           /\ (cwd w' = cwd w \/ cwd w' = os_path_join (cwd w) src)
       | Blocked => False
       end.
Proof.
  cbv zeta.
  set (w0 := (print "Trying simplified Node.js source build..." w).2).
  assert (Hdef : install_nodejs_from_source_simple w
                 = try_except source_build_try
                     (fun e => print ("Source build method failed: "
                                      +:+ str_exn e) ;; ret false) w0)
    by reflexivity.
  assert (Hw0 : trace w0
                = trace w ++ [EvPrint "Trying simplified Node.js source build..."])
    by reflexivity.
  rewrite Hdef. unfold try_except.
  destruct (source_build_try_cwd w0) as (tr & Htr & Hcases).
  change (source_dir_in w0) with (source_dir_in w) in Hcases.
  change (cwd w0) with (cwd w) in Hcases.
  rewrite Hw0 in Htr. clear Hdef Hw0.
  destruct (source_build_try w0) as [[[|] | e |] w1]; cbn [fst snd] in *;
    [| | | contradiction].
  - exists true, w1, (EvPrint "Trying simplified Node.js source build..." :: tr).
    split; [reflexivity |]. rewrite Htr, <- app_assoc.
    split; [reflexivity |]. rewrite chdirs_print. tauto.
  - exists false, w1, (EvPrint "Trying simplified Node.js source build..." :: tr).
    split; [reflexivity |]. rewrite Htr, <- app_assoc.
    split; [reflexivity |]. rewrite chdirs_print. tauto.
  - exists false. eexists.
    exists (EvPrint "Trying simplified Node.js source build..." :: tr
            ++ [EvPrint ("Source build method failed: " +:+ str_exn e)]).
    unfold bind, print, log, ret. cbn [fst snd trace cwd].
    rewrite Htr, <- !app_assoc. split; [reflexivity |]. split; [reflexivity |].
    rewrite chdirs_print, chdirs_app, app_nil_r. tauto.
Qed.

Lemma install_nodejs_from_source_simple_leaves_cwd_witness :
  (exists r w' tr,
     install_nodejs_from_source_simple (os := sim_os builder) (boot builder)
     = (Ok r, w')
     /\ trace w' = trace (boot builder) ++ tr
     /\ r = true
     /\ chdirs tr = ["/home/app/.node-build/node-v20.17.0"]
     /\ cwd w' = "/home/app/.node-build/node-v20.17.0")
  /\ (install_nodejs_from_source_simple (os := sim_os no_compiler)
        (boot no_compiler)).1 = Ok false
  /\ cwd (install_nodejs_from_source_simple (os := sim_os no_compiler)
            (boot no_compiler)).2 = "/".
Proof.
  split; [| vm_compute; split; reflexivity].
  pose proof (install_nodejs_from_source_simple_leaves_cwd
                (os := sim_os builder) (boot builder)) as H.
  cbv zeta in H. destruct H as (r & w' & tr & Hrun & Htr & Hcases).
  exists r, w', tr. split; [exact Hrun |]. split; [exact Htr |].
  assert (Hok : (source_build_try (os := sim_os builder)
                   (print "Trying simplified Node.js source build..."
                      (boot builder)).2).1 = Ok true)
    by (vm_compute; reflexivity).
  rewrite Hok in Hcases. exact Hcases.
Defined.
Lemma install_nodejs_restricted_short_circuits_witness :
  let s := static_mirror_only in
  let run := install_nodejs_restricted (os := sim_os s) (boot s) in
  (exists r w' tr results,
     install_nodejs_restricted (os := sim_os s) (boot s) = (Ok r, w')
     /\ trace w' = trace (boot s) ++ tr
     /\ call_log tr = chain_log (zip method_names results))
  /\ run.1 = Ok true
  /\ call_log (trace run.2)
     = chain_log [ ("install_nodejs_portable_binary", false);
                   ("install_nodejs_precompiled_binary", false);
                   ("install_nodejs_static_binary", true) ].
Proof.
  intros s run. split.
  - destruct (install_nodejs_restricted_short_circuits (os := sim_os s) (boot s))
      as (r & w' & tr & results & H1 & H2 & H3 & _).
    exists r, w', tr, results. auto.
  - vm_compute. split; reflexivity.
Defined.
(** *** Lists of fallback runs *)

Lemma fallback_runs_head item rs ok :
  fallback_runs item rs ok -> exists c, head item = Some c /\ c ∈ rs.*1.
Proof.
  destruct item as [| c rest]; cbn; [tauto |].
  intros [[-> _] | [(_ & -> & _) | (rs' & -> & _)]];
    exists c; split; auto; cbn; apply list_elem_of_here.
Qed.

Lemma fallback_runs_success item rs :
  fallback_runs item rs true -> exists c, c ∈ item /\ (c, true) ∈ rs.
Proof.
  revert rs. induction item as [| c rest IH]; intros rs; cbn; [tauto |].
  intros [[-> _] | [(_ & _ & Hf) | (rs' & -> & Hrest)]].
  - exists c. split; apply list_elem_of_here.
  - discriminate.
  - destruct (IH rs' Hrest) as (c' & Hin & Hrun).
    exists c'. split; now apply list_elem_of_further.
Qed.

Lemma fallback_runs_failure item rs :
  fallback_runs item rs false -> forall c, (c, true) ∉ rs.
Proof.
  revert rs. induction item as [| c rest IH]; intros rs; cbn; [tauto |].
  intros [[_ Hf] | [(_ & -> & _) | (rs' & -> & Hrest)]] c' Hin.
  - discriminate.
  - apply elem_of_cons in Hin as [Hin | Hin]; [congruence |].
    now apply elem_of_nil in Hin.
  - apply elem_of_cons in Hin as [Hin | Hin]; [congruence |].
    exact (IH rs' Hrest c' Hin).
Qed.

Lemma fallback_runs_commands item rs ok :
  fallback_runs item rs ok -> forall c b, (c, b) ∈ rs -> c ∈ item.
Proof.
  revert rs. induction item as [| c rest IH]; intros rs; cbn; [tauto |].
  intros [[-> _] | [(_ & -> & _) | (rs' & -> & Hrest)]] c' b Hin.
  - apply elem_of_cons in Hin as [Hin | Hin]; [inversion Hin; apply list_elem_of_here |].
    now apply elem_of_nil in Hin.
  - apply elem_of_cons in Hin as [Hin | Hin]; [inversion Hin; apply list_elem_of_here |].
    now apply elem_of_nil in Hin.
  - apply elem_of_cons in Hin as [Hin | Hin]; [inversion Hin; apply list_elem_of_here |].
    apply list_elem_of_further. exact (IH rs' Hrest c' b Hin).
Qed.

(** Commands run for a list of items come from those items. *)
Lemma fallback_runs_all_commands items (oks : list (list (string * bool) * bool)) :
  Forall2 (fun item o => fallback_runs item o.1 o.2) items oks ->
  forall c b, (c, b) ∈ concat oks.*1 -> exists item, item ∈ items /\ c ∈ item.
Proof.
  induction 1 as [| item [rs ok] items oks Hitem _ IH]; intros c b Hin.
  - now apply elem_of_nil in Hin.
  - cbn in Hin. apply elem_of_app in Hin as [Hin | Hin].
    + exists item. split; [apply list_elem_of_here |].
      exact (fallback_runs_commands item rs ok Hitem c b Hin).
    + destruct (IH c b Hin) as (it & Hit & Hc).
      exists it. split; [now apply list_elem_of_further | exact Hc].
Qed.

(** The aggregate verdict over disjoint items: all succeeded exactly when
    every item has a successful run somewhere in the whole list of runs. *)
Lemma aggregate_verdict items (oks : list (list (string * bool) * bool)) pre :
  Forall2 (fun item o => fallback_runs item o.1 o.2) items oks ->
  items_disjoint items ->
  (forall c b item, (c, b) ∈ pre -> item ∈ items -> c ∉ item) ->
  forallb snd oks = true
  <-> forall item, item ∈ items ->
        exists c, c ∈ item /\ (c, true) ∈ pre ++ concat oks.*1.
Proof.
  intros H. revert pre.
  induction H as [| item [rs ok] items oks Hitem Hrest IH]; intros pre Hdis Hpre.
  - split; [| reflexivity]. intros _ item Hin. now apply elem_of_nil in Hin.
  - destruct Hdis as [Hhere Hdis]. cbn [fst snd] in Hitem.
    assert (Hpre' : forall c b it, (c, b) ∈ pre ++ rs -> it ∈ items -> c ∉ it).
    { intros c b it Hin Hit. apply elem_of_app in Hin as [Hin | Hin].
      - eapply Hpre; eauto using list_elem_of_further.
      - apply Hhere; [| exact Hit].
        exact (fallback_runs_commands item rs ok Hitem c b Hin). }
    specialize (IH (pre ++ rs) Hdis Hpre').
    cbn [forallb snd fmap list_fmap concat fst].
    rewrite andb_true_iff, IH. rewrite <- !app_assoc. split.
    + intros [Hok Hall] it Hit.
      apply elem_of_cons in Hit as [-> | Hit]; [| now apply Hall].
      cbn in Hok. subst ok.
      destruct (fallback_runs_success item rs Hitem) as (c & Hc & Hrun).
      exists c. split; [exact Hc |].
      apply elem_of_app. right. apply elem_of_app. now left.
    + intros Hall. split.
      * destruct ok; [reflexivity | exfalso].
        destruct (Hall item (list_elem_of_here _ _)) as (c & Hc & Hrun).
        apply elem_of_app in Hrun as [Hrun | Hrun].
        { exact (Hpre c true item Hrun (list_elem_of_here _ _) Hc). }
        apply elem_of_app in Hrun as [Hrun | Hrun].
        { exact (fallback_runs_failure item rs Hitem c Hrun). }
        destruct (fallback_runs_all_commands items oks Hrest c true Hrun)
          as (it & Hit & Hcit).
        exact (Hhere c it Hc Hit Hcit).
      * intros it Hit. apply Hall. now apply list_elem_of_further.
Qed.

Lemma items_disjointb_sound items :
  items_disjointb items = true -> items_disjoint items.
Proof.
  induction items as [| item rest IH]; cbn; [auto |].
  rewrite andb_true_iff, forallb_forall. intros [Hhere Hrest].
  split; [| auto]. intros c other Hc Hother Hin.
  apply list_elem_of_In in Hc. specialize (Hhere c Hc).
  rewrite forallb_forall in Hhere. apply list_elem_of_In in Hother.
  specialize (Hhere other Hother).
  rewrite bool_decide_eq_true_2 in Hhere by exact Hin. discriminate.
Qed.

Lemma append_inj_l (a b c : string) : a +:+ b = a +:+ c -> b = c.
Proof. induction a as [| x a IH]; cbn; [auto |]. intros H. inversion H. auto. Qed.

Lemma items_disjoint_prefixed (a : string) items :
  items_disjoint items -> items_disjoint (map (map (String.append a)) items).
Proof.
  induction items as [| item rest IH]; cbn; [auto |].
  intros [Hhere Hrest]. split; [| auto].
  intros c other Hc Hother Hin.
  apply list_elem_of_fmap in Hc as (c0 & -> & Hc0).
  apply list_elem_of_fmap in Hother as (other0 & -> & Hother0).
  apply list_elem_of_fmap in Hin as (c1 & Heq & Hc1).
  apply append_inj_l in Heq. subst c1.
  exact (Hhere c0 other0 Hc0 Hother0 Hc1).
Qed.
(** *** The three install loops *)

Lemma runs_app tr1 tr2 : runs (tr1 ++ tr2) = runs tr1 ++ runs tr2.
Proof. apply omap_app. Qed.

Lemma runs_schedule tr : runs (schedule tr) = runs tr.
Proof.
  unfold runs, schedule.
  induction tr as [| [] tr IH]; cbn; rewrite ?IH; reflexivity.
Qed.

Lemma executions_runs tr : executions tr = (runs tr).*1.
Proof.
  unfold executions, runs.
  induction tr as [| [] tr IH]; cbn; rewrite ?IH; reflexivity.
Qed.

Section DependencyLoops.
Context {os : OS}.
Implicit Types (w : World os).

(** One [run_command(cmd)]: what it returns and the run it leaves. *)
Lemma run1 cmd w :
  exists b out w' tr,
    run_command1 cmd w = (Ok (b, out), w')
    /\ trace w' = trace w ++ tr
    /\ runs tr = [(cmd, b)].
Proof.
  destruct (run_command1_spec cmd w) as (o & out & x & tr & Hrun & _ & Hsch).
  exists (run_succeeded o), out. eexists. exists tr.
  split; [exact Hrun |]. split; [reflexivity |].
  rewrite <- runs_schedule, Hsch. reflexivity.
Qed.

Lemma log_trace e w : trace (log e w).2 = trace w ++ [e].
Proof. reflexivity. Qed.

Abbreviation verdicts := (list (list (string * bool) * bool)).

Lemma install_packages_spec pkgs flag w :
  exists r w' tr (oks : verdicts),
    install_packages pkgs flag w = (Ok r, w')
    /\ trace w' = trace w ++ tr
    /\ runs tr = concat oks.*1
    /\ Forall2 (fun item o => fallback_runs item o.1 o.2)
         (map (package_attempts (os:=os)) pkgs) oks
    /\ r = flag && forallb snd oks.
Proof.
  revert flag w. induction pkgs as [| p rest IH]; intros flag w.
  - exists flag, w, [], []. cbn. rewrite app_nil_r, andb_true_r.
    repeat split; constructor.
  - cbn [install_packages]. unfold bind at 1, print at 1, log at 1. cbv beta iota.
    set (w0 := mkWorld _ _ _ _).
    assert (H0 : trace w0 = trace w ++ [EvPrint ("Installing " +:+ p +:+ "...")])
      by reflexivity.
    destruct (run1 (pip_binary (os:=os) p) w0) as (b1 & out1 & w1 & tr1 & Hr1 & Ht1 & Hruns1).
    unfold bind at 1. rewrite Hr1. cbn [fst].
    destruct b1.
    + destruct (IH flag w1) as (r & w' & tr & oks & Hrun & Htr & Hruns & Hall & Hr).
      exists r, w', ([EvPrint ("Installing " +:+ p +:+ "...")] ++ tr1 ++ tr),
        (([(pip_binary (os:=os) p, true)], true) :: oks).
      split; [exact Hrun |]. split.
      { rewrite Htr, Ht1, H0, <- !app_assoc. reflexivity. }
      split.
      { rewrite !runs_app, Hruns1, Hruns. reflexivity. }
      split; [| exact Hr].
      constructor; [| exact Hall]. cbn. auto.
    + destruct (run1 (pip_plain (os:=os) p) w1)
        as (b2 & out2 & w2 & tr2 & Hr2 & Ht2 & Hruns2).
      unfold bind at 1. rewrite Hr2. cbn [fst].
      destruct b2.
      * destruct (IH flag w2) as (r & w' & tr & oks & Hrun & Htr & Hruns & Hall & Hr).
        exists r, w',
          ([EvPrint ("Installing " +:+ p +:+ "...")] ++ tr1 ++ tr2 ++ tr),
          (([(pip_binary (os:=os) p, false); (pip_plain (os:=os) p, true)], true) :: oks).
        split; [exact Hrun |]. split.
        { rewrite Htr, Ht2, Ht1, H0, <- !app_assoc. reflexivity. }
        split.
        { rewrite !runs_app, Hruns1, Hruns2, Hruns. reflexivity. }
        split; [| exact Hr].
        constructor; [| exact Hall]. cbn. right. right.
        eexists. split; [reflexivity |]. auto.
      * unfold bind at 1, print at 1, log at 1. cbv beta iota.
        set (w3 := mkWorld _ _ _ _).
        assert (H3 : trace w3
                     = trace w2 ++ [EvPrint ("Warning: Failed to install " +:+ p)])
          by reflexivity.
        destruct (IH false w3)
          as (r & w' & tr & oks & Hrun & Htr & Hruns & Hall & Hr).
        exists r, w',
          ([EvPrint ("Installing " +:+ p +:+ "...")] ++ tr1 ++ tr2
           ++ [EvPrint ("Warning: Failed to install " +:+ p)] ++ tr),
          (([(pip_binary (os:=os) p, false); (pip_plain (os:=os) p, false)], false) :: oks).
        split; [exact Hrun |]. split.
        { rewrite Htr, H3, Ht2, Ht1, H0, <- !app_assoc. reflexivity. }
        split.
        { rewrite !runs_app, Hruns1, Hruns2, Hruns. reflexivity. }
        split.
        { constructor; [| exact Hall]. cbn. right. right.
          eexists. split; [reflexivity |]. auto. }
        rewrite Hr. cbn. now rewrite andb_false_r.
Qed.

Lemma install_repos_spec repos flag w :
  exists r w' tr (oks : verdicts),
    install_repos repos flag w = (Ok r, w')
    /\ trace w' = trace w ++ tr
    /\ runs tr = concat oks.*1
    /\ Forall2 (fun item o => fallback_runs item o.1 o.2)
         (map (repo_attempts (os:=os)) repos) oks
    /\ r = flag && forallb snd oks.
Proof.
  revert flag w. induction repos as [| p rest IH]; intros flag w.
  - exists flag, w, [], []. cbn. rewrite app_nil_r, andb_true_r.
    repeat split; constructor.
  - cbn [install_repos]. unfold bind at 1, print at 1, log at 1. cbv beta iota.
    set (w0 := mkWorld _ _ _ _).
    assert (H0 : trace w0
                 = trace w ++ [EvPrint ("Installing from " +:+ p +:+ "...")])
      by reflexivity.
    destruct (run1 (pip_plain (os:=os) p) w0) as (b1 & out1 & w1 & tr1 & Hr1 & Ht1 & Hruns1).
    unfold bind at 1. rewrite Hr1. cbn [fst].
    destruct b1.
    + destruct (IH flag w1) as (r & w' & tr & oks & Hrun & Htr & Hruns & Hall & Hr).
      exists r, w', ([EvPrint ("Installing from " +:+ p +:+ "...")] ++ tr1 ++ tr),
        (([(pip_plain (os:=os) p, true)], true) :: oks).
      split; [exact Hrun |]. split.
      { rewrite Htr, Ht1, H0, <- !app_assoc. reflexivity. }
      split.
      { rewrite !runs_app, Hruns1, Hruns. reflexivity. }
      split; [| exact Hr].
      constructor; [| exact Hall]. cbn. auto.
    + unfold bind at 1, print at 1, log at 1. cbv beta iota.
      set (w3 := mkWorld _ _ _ _).
      assert (H3 : trace w3
                   = trace w1
                     ++ [EvPrint ("Warning: Failed to install from " +:+ p)])
        by reflexivity.
      destruct (IH false w3)
        as (r & w' & tr & oks & Hrun & Htr & Hruns & Hall & Hr).
      exists r, w',
        ([EvPrint ("Installing from " +:+ p +:+ "...")] ++ tr1
         ++ [EvPrint ("Warning: Failed to install from " +:+ p)] ++ tr),
        (([(pip_plain (os:=os) p, false)], false) :: oks).
      split; [exact Hrun |]. split.
      { rewrite Htr, H3, Ht1, H0, <- !app_assoc. reflexivity. }
      split.
      { rewrite !runs_app, Hruns1, Hruns. reflexivity. }
      split.
      { constructor; [| exact Hall]. cbn. auto. }
      rewrite Hr. cbn. now rewrite andb_false_r.
Qed.

Lemma install_problem_packages_spec problems flag w :
  exists r w' tr (oks : verdicts),
    install_problem_packages problems flag w = (Ok r, w')
    /\ trace w' = trace w ++ tr
    /\ runs tr = concat oks.*1
    /\ Forall2 (fun item o => fallback_runs item o.1 o.2)
         (map (fun pn => problem_attempts (os:=os) pn.1) problems) oks
    /\ r = flag && forallb snd oks.
Proof.
  revert flag w. induction problems as [| [c name] rest IH]; intros flag w.
  - exists flag, w, [], []. cbn. rewrite app_nil_r, andb_true_r.
    repeat split; constructor.
  - cbn [install_problem_packages].
    destruct (run1 (pip_binary (os:=os) c) w)
      as (b1 & out1 & w1 & tr1 & Hr1 & Ht1 & Hruns1).
    unfold bind at 1. rewrite Hr1. cbn [fst].
    assert (Hstep : exists ok w2 tr2,
      (if b1 then ret true
       else second <- run_command1 (pip_plain (os:=os) c) ;;
            if negb second.1 && bool_decide (c = "lxml")
            then third <- run_command1 (pip_lxml_no_cython (os:=os)) ;;
                 ret third.1
            else ret second.1) w1 = (Ok ok, w2)
      /\ trace w2 = trace w1 ++ tr2
      /\ fallback_runs (problem_attempts (os:=os) c) (runs (tr1 ++ tr2)) ok).
    { unfold problem_attempts. destruct b1.
      - exists true, w1, []. rewrite !app_nil_r, Hruns1. cbn. auto.
      - destruct (run1 (pip_plain (os:=os) c) w1)
          as (b2 & out2 & w2 & tr2 & Hr2 & Ht2 & Hruns2).
        unfold bind at 1. rewrite Hr2. cbn [fst].
        destruct b2; cbn [negb andb].
        + exists true, w2, tr2. rewrite runs_app, Hruns1, Hruns2. cbn.
          split; [reflexivity |]. split; [exact Ht2 |].
          right. right. eexists. split; [reflexivity |]. auto.
        + destruct (bool_decide (c = "lxml")).
          * destruct (run1 (pip_lxml_no_cython (os:=os)) w2)
              as (b3 & out3 & w3 & tr3 & Hr3 & Ht3 & Hruns3).
            unfold bind at 1. rewrite Hr3. cbn [fst ret].
            exists b3, w3, (tr2 ++ tr3).
            rewrite !runs_app, Hruns1, Hruns2, Hruns3, Ht3, Ht2, <- app_assoc.
            cbn.
            split; [reflexivity |]. split; [reflexivity |].
            right. right. eexists. split; [reflexivity |].
            right. right. eexists. split; [reflexivity |].
            destruct b3; auto.
          * exists false, w2, tr2. rewrite runs_app, Hruns1, Hruns2. cbn.
            split; [reflexivity |]. split; [exact Ht2 |].
            right. right. eexists. split; [reflexivity |]. auto. }
    destruct Hstep as (ok & w2 & tr2 & Hbody & Ht2 & Hitem).
    unfold bind at 1. rewrite Hbody.
    destruct ok.
    + destruct (IH flag w2) as (r & w' & tr & oks & Hrun & Htr & Hruns & Hall & Hr).
      exists r, w', (tr1 ++ tr2 ++ tr), ((runs (tr1 ++ tr2), true) :: oks).
      split; [exact Hrun |]. split.
      { rewrite Htr, Ht2, Ht1, <- !app_assoc. reflexivity. }
      split.
      { rewrite !runs_app, Hruns. cbn [fmap list_fmap concat fst].
        rewrite <- ?app_assoc. reflexivity. }
      split; [| exact Hr].
      constructor; [exact Hitem | exact Hall].
    + unfold bind at 1, print at 1, log at 1. cbv beta iota.
      set (w3 := mkWorld _ _ _ _).
      assert (H3 : trace w3
                   = trace w2 ++ [EvPrint ("Warning: Failed to install " +:+ name)])
        by reflexivity.
      destruct (IH false w3)
        as (r & w' & tr & oks & Hrun & Htr & Hruns & Hall & Hr).
      exists r, w',
        (tr1 ++ tr2 ++ [EvPrint ("Warning: Failed to install " +:+ name)] ++ tr),
        ((runs (tr1 ++ tr2), false) :: oks).
      split; [exact Hrun |]. split.
      { rewrite Htr, H3, Ht2, Ht1, <- !app_assoc. reflexivity. }
      split.
      { rewrite !runs_app, Hruns. cbn [fmap list_fmap concat fst].
        rewrite <- ?app_assoc. reflexivity. }
      split.
      { constructor; [exact Hitem | exact Hall]. }
      rewrite Hr. cbn. now rewrite andb_false_r.
Qed.

End DependencyLoops.
Lemma dependency_commands {os : OS} :
  [pip_upgrade (os:=os)] :: dependency_items (os:=os)
  = map (map (String.append (sys_executable os))) command_suffixes.
Proof. reflexivity. Qed.

Lemma command_suffixes_disjoint : items_disjointb command_suffixes = true.
Proof. vm_compute. reflexivity. Qed.

Lemma dependency_items_disjoint {os : OS} :
  items_disjoint ([pip_upgrade (os:=os)] :: dependency_items (os:=os)).
Proof.
  rewrite dependency_commands. apply items_disjoint_prefixed.
  apply items_disjointb_sound, command_suffixes_disjoint.
Qed.

Lemma fallback_runs_all_heads items (oks : list (list (string * bool) * bool)) :
  Forall2 (fun item o => fallback_runs item o.1 o.2) items oks ->
  forall item, item ∈ items ->
    exists c, head item = Some c /\ c ∈ (concat oks.*1).*1.
Proof.
  induction 1 as [| item [rs ok] items oks Hitem _ IH]; intros it Hit.
  - now apply elem_of_nil in Hit.
  - cbn [fmap list_fmap concat fst]. rewrite fmap_app.
    apply elem_of_cons in Hit as [-> | Hit].
    + destruct (fallback_runs_head item rs ok Hitem) as (c & Hc & Hin).
      exists c. split; [exact Hc |]. apply elem_of_app. now left.
    + destruct (IH it Hit) as (c & Hc & Hin).
      exists c. split; [exact Hc |]. apply elem_of_app. now right.
Qed.

(** C5. [install_python_dependencies_safe] always returns; whatever fails,
    the first install command of every package, every repository and every
    problem package is executed; and the flag it returns is [True] exactly
    when each of them had one of its install commands succeed, that is, when
    none of them failed all its attempts. *)
Theorem install_python_dependencies_safe_aggregate {os : OS} (w : World os) :
  exists r w' tr,
    install_python_dependencies_safe w = (Ok r, w')
    /\ trace w' = trace w ++ tr
    /\ (forall item, item ∈ dependency_items (os:=os) -> attempted tr item)
    /\ (r = true
        <-> forall item, item ∈ dependency_items (os:=os) -> installed tr item).
Proof.
  unfold install_python_dependencies_safe.
  unfold bind at 1, print at 1, log at 1. cbv beta iota.
  unfold bind at 1, print at 1, log at 1. cbv beta iota.
  unfold bind at 1, print at 1, log at 1. cbv beta iota.
  cbn [environ cwd ext trace].
  set (w0 := mkWorld _ _ _ _).
  assert (H0 : trace w0
               = trace w ++ [EvPrint (nl +:+ rule 60);
                             EvPrint "INSTALLING PYTHON DEPENDENCIES";
                             EvPrint (rule 60)]).
  { subst w0. cbn [trace]. now rewrite <- !app_assoc. }
  destruct (run1 (pip_upgrade (os:=os)) w0)
    as (b0 & out0 & w1 & tr0 & Hr0 & Ht0 & Hruns0).
  unfold bind at 1. fold (pip_upgrade (os:=os)). rewrite Hr0.
  destruct (install_packages_spec packages true w1)
    as (rA & wA & trA & oksA & HrunA & HtA & HrunsA & HallA & HrA).
  unfold bind at 1. rewrite HrunA.
  destruct (install_repos_spec git_repos rA wA)
    as (rB & wB & trB & oksB & HrunB & HtB & HrunsB & HallB & HrB).
  unfold bind at 1. rewrite HrunB.
  destruct (install_problem_packages_spec problem_packages rB wB)
    as (rC & wC & trC & oksC & HrunC & HtC & HrunsC & HallC & HrC).
  rewrite HrunC.
  set (pre := [EvPrint (nl +:+ rule 60);
               EvPrint "INSTALLING PYTHON DEPENDENCIES"; EvPrint (rule 60)]) in *.
  exists rC, wC, (pre ++ tr0 ++ trA ++ trB ++ trC).
  split; [reflexivity |]. split.
  { rewrite HtC, HtB, HtA, Ht0, H0, <- !app_assoc. reflexivity. }
  assert (Hall : Forall2 (fun item o => fallback_runs item o.1 o.2)
                   (dependency_items (os:=os)) (oksA ++ oksB ++ oksC)).
  { unfold dependency_items. repeat apply Forall2_app; assumption. }
  assert (Hruns : runs (pre ++ tr0 ++ trA ++ trB ++ trC)
                  = [(pip_upgrade (os:=os), b0)]
                    ++ concat (oksA ++ oksB ++ oksC).*1).
  { rewrite !runs_app, Hruns0, HrunsA, HrunsB, HrunsC.
    rewrite !fmap_app, !concat_app. reflexivity. }
  assert (Hflag : rC = forallb snd (oksA ++ oksB ++ oksC)).
  { rewrite HrC, HrB, HrA, !forallb_app. cbn. now rewrite andb_assoc. }
  destruct (dependency_items_disjoint (os:=os)) as [Hup Hdis].
  split.
  - intros item Hitem. unfold attempted.
    destruct (fallback_runs_all_heads _ _ Hall item Hitem) as (c & Hc & Hin).
    exists c. split; [exact Hc |].
    rewrite executions_runs, Hruns, fmap_app. apply elem_of_app. now right.
  - unfold installed. rewrite Hruns, Hflag.
    apply aggregate_verdict; [exact Hall | exact Hdis |].
    intros c b item Hin Hitem.
    apply elem_of_cons in Hin as [Hin | Hin];
      [| now apply elem_of_nil in Hin].
    inversion Hin; subst c b.
    apply Hup; [apply list_elem_of_here | exact Hitem].
Qed.

Lemma install_python_dependencies_safe_aggregate_witness :
  let s := no_tgcrypto in
  let run := install_python_dependencies_safe (os := sim_os s) (boot s) in
  (exists r w' tr,
     install_python_dependencies_safe (os := sim_os s) (boot s) = (Ok r, w')
     /\ trace w' = trace (boot s) ++ tr
     /\ (forall item, item ∈ dependency_items (os := sim_os s) ->
           attempted tr item)
     /\ (r = true
         <-> forall item, item ∈ dependency_items (os := sim_os s) ->
               installed tr item))
  /\ run.1 = Ok false
  /\ length (executions (trace run.2)) = 46%nat
  /\ last (executions (trace run.2))
     = Some "/usr/bin/python3 -m pip install --no-cache-dir --prefer-binary ffmpeg-python".
Proof.
  intros s run. split.
  - apply (install_python_dependencies_safe_aggregate (os := sim_os s) (boot s)).
  - vm_compute. repeat split; reflexivity.
Defined.
Lemma launches_app tr1 tr2 : launches (tr1 ++ tr2) = launches tr1 ++ launches tr2.
Proof. apply omap_app. Qed.

Lemma launches_echo lines : launches (map EvEcho lines) = [].
Proof. induction lines as [| l lines IH]; [reflexivity | exact IH]. Qed.

Lemma launches_trying s ep tr :
  launches ([EvPrint s; EvPopen ep] ++ tr) = ep :: launches tr.
Proof. reflexivity. Qed.

Lemma launches_print s tr : launches (EvPrint s :: tr) = launches tr.
Proof. reflexivity. Qed.

Section LauncherFacts.
Context {os : OS}.
Implicit Types (w : World os).

(** One launch: the child is started and its lines echoed; the result is
    whether it exited zero, unless the child never comes to an end. *)
Lemma try_launch_spec ep w :
  exists r w' tr,
    try_launch ep w = (r, w')
    /\ trace w'
       = trace w ++ [EvPrint ("Trying: " +:+ Str.join_space ep); EvPopen ep] ++ tr
    /\ launches tr = []
    /\ Forall plain_event tr
    /\ launcher_result (os:=os) [ep] r.
Proof.
  unfold try_launch, bind, try_except, print, log, py_popen_stream, ret.
  cbn [environ cwd ext trace fst snd].
  destruct (popen_stream os (ext w) (environ w) (cwd w) ep)
    as [[lines fin] x] eqn:Hp.
  destruct fin as [[e | rc] |]; cbn.
  - exists (Ok false). eexists.
    exists (map EvEcho lines ++ [EvPrint ("Failed to start: " +:+ str_exn e)]).
    split; [reflexivity |]. cbn. rewrite <- !app_assoc. cbn.
    split; [reflexivity |]. rewrite launches_app, launches_echo.
    split; [reflexivity |]. split; [| exact I].
    apply Forall_app. split; [| repeat constructor].
    apply Forall_fmap, Forall_true. intros l. exact I.
  - exists (Ok (rc =? 0)). eexists. exists (map EvEcho lines).
    split; [reflexivity |]. cbn. rewrite <- !app_assoc. cbn.
    split; [reflexivity |]. split; [apply launches_echo |]. split; [| exact I].
    apply Forall_fmap, Forall_true. intros l. exact I.
  - exists Blocked. eexists. exists (map EvEcho lines).
    split; [reflexivity |]. cbn. rewrite <- !app_assoc. cbn.
    split; [reflexivity |]. split; [apply launches_echo |]. split.
    + apply Forall_fmap, Forall_true. intros l. exact I.
    + intros Hend.
      apply (Hend (ext w) (environ w) (cwd w) ep (list_elem_of_here _ _)).
      now rewrite Hp.
Qed.

Lemma skip_missing_spec ep w :
  match file_token ep with
  | Some tok =>
      if os_path_exists os (ext w) (cwd w) tok then
        skip_missing ep w = (Ok false, w)
      else
        skip_missing ep w
        = (Ok true, (print ("Skipping " +:+ tok +:+ " - file not found") w).2)
  | None => skip_missing ep w = (Ok false, w)
  end.
Proof.
  unfold skip_missing. destruct (file_token ep) as [tok |]; [| reflexivity].
  unfold bind, path_exists.
  destruct (os_path_exists os (ext w) (cwd w) tok); reflexivity.
Qed.

Lemma launcher_result_mono {A} eps eps' (r : Res A) :
  (forall ep, ep ∈ eps -> ep ∈ eps') ->
  launcher_result (os:=os) eps r -> launcher_result (os:=os) eps' r.
Proof.
  intros Hsub. destruct r as [a | e |]; cbn; auto.
  intros Hno Hend. apply Hno. intros x env d ep Hin. apply Hend, Hsub, Hin.
Qed.

(** Where every candidate comes to an end the launcher returns. *)
Lemma launcher_result_returns {A} eps (r : Res A) :
  launcher_result (os:=os) eps r -> children_end (os:=os) eps ->
  exists a, r = Ok a.
Proof. destruct r as [a | e |]; cbn; intros H Hend; [eauto | | ]; contradiction. Qed.

(** The launches of the whole loop. *)
Lemma start_loop_spec eps w :
  exists r w' tr,
    start_loop eps w = (r, w')
    /\ trace w' = trace w ++ tr
    /\ Forall plain_event tr
    /\ Forall (launch_allowed (os:=os) eps) (launches tr)
    /\ launcher_result (os:=os) eps r.
Proof.
  revert w. induction eps as [| ep rest IH]; intros w.
  - exists (Ok false), w, []. cbn. rewrite app_nil_r. auto.
  - assert (Hweak : forall l, Forall (launch_allowed (os:=os) rest) l ->
                      Forall (launch_allowed (os:=os) (ep :: rest)) l).
    { intros l Hl. eapply Forall_impl; [exact Hl |]. intros argv [Hin Hok].
      split; [now apply list_elem_of_further | exact Hok]. }
    assert (Hrest : forall r : Res bool,
               launcher_result (os:=os) rest r ->
               launcher_result (os:=os) (ep :: rest) r).
    { intros r. apply launcher_result_mono. intros e He.
      now apply list_elem_of_further. }
    assert (Hlaunch : (file_token ep = None
                       \/ exists tok x d, file_token ep = Some tok
                            /\ os_path_exists os x d tok = true) ->
      skip_missing ep w = (Ok false, w) ->
      exists r w' tr,
        start_loop (ep :: rest) w = (r, w')
        /\ trace w' = trace w ++ tr
        /\ Forall plain_event tr
        /\ Forall (launch_allowed (os:=os) (ep :: rest)) (launches tr)
        /\ launcher_result (os:=os) (ep :: rest) r).
    { intros Hok Hskip.
      assert (Hep : launch_allowed (os:=os) (ep :: rest) ep).
      { split; [apply list_elem_of_here |].
        destruct Hok as [-> | (tok & x & d & -> & Hex)]; eauto. }
      cbn [start_loop]. unfold bind at 1. rewrite Hskip.
      destruct (try_launch_spec ep w)
        as (b & w1 & tr1 & Hl & Ht1 & Hno & Hp1 & Hres).
      unfold bind at 1. rewrite Hl. destruct b as [[|] | e |].
      - exists (Ok true), w1,
          ([EvPrint ("Trying: " +:+ Str.join_space ep); EvPopen ep] ++ tr1).
        split; [reflexivity |]. split; [exact Ht1 |]. split.
        { repeat constructor. exact Hp1. }
        split; [| exact I].
        rewrite launches_trying, Hno. repeat constructor; apply Hep.
      - destruct (IH w1) as (r & w' & tr & Hrun & Htr & Hp & Hall & Hr).
        exists r, w',
          ([EvPrint ("Trying: " +:+ Str.join_space ep); EvPopen ep]
           ++ tr1 ++ tr).
        split; [exact Hrun |]. split.
        { rewrite Htr, Ht1, <- !app_assoc. reflexivity. }
        split.
        { repeat constructor. apply Forall_app. auto. }
        split; [| now apply Hrest].
        rewrite launches_trying, launches_app, Hno.
        constructor; [exact Hep | auto].
      - contradiction.
      - exists Blocked, w1,
          ([EvPrint ("Trying: " +:+ Str.join_space ep); EvPopen ep] ++ tr1).
        split; [reflexivity |]. split; [exact Ht1 |]. split.
        { repeat constructor. exact Hp1. }
        split.
        { rewrite launches_trying, Hno. repeat constructor; apply Hep. }
        revert Hres. apply launcher_result_mono. intros e He.
        apply list_elem_of_singleton in He as ->. apply list_elem_of_here. }
    pose proof (skip_missing_spec ep w) as Hskip.
    destruct (file_token ep) as [tok |] eqn:Htok.
    + destruct (os_path_exists os (ext w) (cwd w) tok) eqn:Hex.
      * apply Hlaunch; [| exact Hskip]. right. eauto.
      * cbn [start_loop]. unfold bind at 1. rewrite Hskip.
        destruct (IH (print ("Skipping " +:+ tok +:+ " - file not found") w).2)
          as (r & w' & tr & Hrun & Htr & Hp & Hall & Hr).
        exists r, w',
          (EvPrint ("Skipping " +:+ tok +:+ " - file not found") :: tr).
        split; [exact Hrun |]. split.
        { rewrite Htr. cbn. rewrite <- !app_assoc. reflexivity. }
        split; [repeat constructor; exact Hp |].
        rewrite launches_print. auto.
    + apply Hlaunch; [now left | exact Hskip].
Qed.

End LauncherFacts.
(** C6. A candidate whose second token is not a flag is launched only when
    that token names an existing path; when it does not, the loop reports the
    skip and carries on with the next candidate, with no execution attempt.
    A candidate whose second token starts with a dash is launched whenever
    the loop reaches it, with no existence check; in [start_application] that
    is the first candidate, which is therefore always the first launched.
    Over a whole run every launch is of a listed candidate that passed this
    test.  The function never raises, and it returns unless one of the
    candidates it launches never comes to an end. *)
Theorem start_application_candidates {os : OS} (w : World os) :
  (exists r w' tr,
     start_application w = (r, w')
     /\ launcher_result (os:=os) (entry_points (os:=os)) r
     /\ trace w' = trace w ++ tr
     /\ Forall (launch_allowed (os:=os) (entry_points (os:=os))) (launches tr)
     /\ head (launches tr) = Some [sys_executable os; "-m"; "SONALI"])
  /\ (forall ep rest (w1 : World os),
        match file_token ep with
        | Some tok =>
            if os_path_exists os (ext w1) (cwd w1) tok
            then launches_now ep rest w1
            else skips_now ep tok rest w1
        | None => launches_now ep rest w1
        end).
Proof.
  assert (Hnow : forall ep rest (w1 : World os),
             skip_missing ep w1 = (Ok false, w1) -> launches_now ep rest w1).
  { intros ep rest w1 Hskip. unfold launches_now.
    cbn [start_loop]. unfold bind at 1. rewrite Hskip.
    destruct (try_launch_spec ep w1) as (b & w2 & tr1 & Hl & Ht1 & _).
    unfold bind at 1. rewrite Hl. destruct b as [[|] | e |].
    - exists tr1. exact Ht1.
    - destruct (start_loop_spec rest w2) as (r & w' & tr & Hrun & Htr & _).
      exists (tr1 ++ tr). rewrite Hrun. cbn [snd].
      rewrite Htr, Ht1, <- !app_assoc. reflexivity.
    - exists tr1. exact Ht1.
    - exists tr1. exact Ht1. }
  split.
  - unfold start_application.
    unfold bind at 1, print at 1, log at 1. cbv beta iota.
    unfold bind at 1, print at 1, log at 1. cbv beta iota.
    unfold bind at 1, print at 1, log at 1. cbv beta iota.
    cbn [environ cwd ext trace].
    set (w0 := mkWorld _ _ _ _).
    destruct (start_loop_spec (entry_points (os:=os)) w0)
      as (r & w' & tr & Hrun & Htr & _ & Hall & Hres).
    exists r, w',
      ([EvPrint (nl +:+ rule 80); EvPrint "STARTING MAIN APPLICATION";
        EvPrint (rule 80)] ++ tr).
    split; [exact Hrun |]. split; [exact Hres |]. split.
    { rewrite Htr. subst w0. cbn [trace]. now rewrite <- !app_assoc. }
    split; [exact Hall |].
    destruct (Hnow [sys_executable os; "-m"; "SONALI"]
                (tail (entry_points (os:=os))) w0 eq_refl) as (tr' & Hfirst).
    change ([sys_executable os; "-m"; "SONALI"] :: tail (entry_points (os:=os)))
      with (entry_points (os:=os)) in Hfirst.
    rewrite Hrun in Hfirst. cbn [snd] in Hfirst.
    rewrite Htr in Hfirst. apply app_inv_head in Hfirst. rewrite Hfirst.
    reflexivity.
  - intros ep rest w1.
    pose proof (skip_missing_spec ep w1) as Hskip.
    destruct (file_token ep) as [tok |]; [| now apply Hnow].
    destruct (os_path_exists os (ext w1) (cwd w1) tok); [now apply Hnow |].
    unfold skips_now. cbn [start_loop]. unfold bind at 1. now rewrite Hskip.
Qed.

Lemma start_application_candidates_witness :
  let s := app_py_only in
  let run := start_application (os := sim_os s) (boot s) in
  (exists r w' tr,
     start_application (os := sim_os s) (boot s) = (Ok r, w')
     /\ trace w' = trace (boot s) ++ tr
     /\ Forall (launch_allowed (os := sim_os s) (entry_points (os := sim_os s)))
          (launches tr)
     /\ head (launches tr) = Some ["/usr/bin/python3"; "-m"; "SONALI"])
  /\ run.1 = Ok true
  /\ launches (trace run.2)
     = [ ["/usr/bin/python3"; "-m"; "SONALI"]; ["/usr/bin/python3"; "app.py"] ]
  /\ EvPrint "Skipping main.py - file not found" ∈ trace run.2.
Proof.
  intros s run. split.
  - destruct (start_application_candidates (os := sim_os s) (boot s))
      as [(r & w' & tr & Hrun & Hres & Htr & Hall & Hhead) _].
    destruct r as [b | e |]; cbn in Hres.
    + exists b, w', tr. auto.
    + contradiction.
    + exfalso. apply Hres. intros x env d ep _. discriminate.
  - vm_compute. split; [reflexivity |]. split; [reflexivity |].
    do 6 apply list_elem_of_further. apply list_elem_of_here.
Defined.
#[export] Hint Extern 1 (inside_phase (EvPrint _)) => exact I : py.

Lemma plain_inside_phase e : plain_event e -> inside_phase e.
Proof. destruct e; cbn; auto; contradiction. Qed.

Lemma runner_inside_phase e : runner_event e -> inside_phase e.
Proof. intros H. apply plain_inside_phase, runner_event_plain, H. Qed.

#[export] Hint Resolve runner_inside_phase : py.

Lemma method_inside_phase fn :
  fn ∈ method_names ->
  inside_phase (EvCall fn) /\ forall b, inside_phase (EvRet fn b).
Proof.
  intros Hin. unfold method_names in Hin.
  repeat (apply elem_of_cons in Hin as [-> | Hin];
          [ split; [| intros b]; cbn; unfold phase_names; intros H;
            repeat (apply elem_of_cons in H as [H | H]; [discriminate |]);
            now apply elem_of_nil in H |]).
  now apply elem_of_nil in Hin.
Qed.

Section Phases.
Context {os : OS}.
Implicit Types (w : World os) (P : Event -> Prop).

(** [call] around a computation that returns: the marks enclose what the
    computation emitted. *)
Lemma call_frame P fn (m : M os bool) w :
  emits P m -> total m ->
  exists b w' tr,
    call fn m w = (Ok b, w')
    /\ trace w' = trace w ++ [EvCall fn] ++ tr ++ [EvRet fn b]
    /\ Forall P tr.
Proof.
  intros Hem Htot. unfold call, bind, log, ret. cbn.
  set (w1 := mkWorld (environ w) (cwd w) (ext w) (trace w ++ [EvCall fn])).
  destruct (Htot w1) as (b & Hb). destruct (Hem w1) as (trm & Htr & HP).
  destruct (m w1) as [r w2]. cbn in Hb, Htr. subst r.
  exists b. eexists. exists trm.
  split; [reflexivity |]. cbn [trace]. rewrite Htr. subst w1. cbn [trace].
  split; [now rewrite <- !app_assoc | exact HP].
Qed.

Lemma emits_call P fn (m : M os bool) :
  P (EvCall fn) -> (forall b, P (EvRet fn b)) -> emits P m ->
  emits P (call fn m).
Proof. intros Hc Hr Hm. unfold call. py_auto. Qed.

Lemma total_call fn (m : M os bool) : total m -> total (call fn m).
Proof. intros Hm. unfold call. py_auto. Qed.

Lemma emits_try_methods n i (ms : list (string * M os bool)) :
  Forall (fun fm => fm.1 ∈ method_names /\ emits plain_event fm.2) ms ->
  emits inside_phase (try_methods n i ms).
Proof.
  intros Hms. revert i.
  induction Hms as [| [fn m] rest [Hfn Hem] _ IH]; intros i;
    cbn [try_methods]; [py_auto |].
  destruct (method_inside_phase fn Hfn) as [Hc Hr].
  pose proof (emits_call inside_phase fn m Hc Hr
                (emits_weaken _ _ m plain_inside_phase Hem)) as Hcall.
  py_auto.
Qed.

Lemma total_try_methods n i (ms : list (string * M os bool)) :
  Forall (fun fm => total fm.2) ms -> total (try_methods n i ms).
Proof.
  intros Hms. revert i.
  induction Hms as [| [fn m] rest Htot _ IH]; intros i;
    cbn [try_methods]; [py_auto |].
  pose proof (total_call fn m Htot) as Hcall. py_auto.
Qed.

Lemma emits_install_nodejs_restricted :
  emits inside_phase (install_nodejs_restricted (os:=os)).
Proof.
  unfold install_nodejs_restricted.
  assert (Hchain : forall n i,
             emits inside_phase (try_methods n i (methods (os:=os)))).
  { intros n i. apply emits_try_methods. unfold methods, method_names.
    repeat constructor; cbn; auto with py; set_solver. }
  py_auto.
Qed.

Lemma total_install_nodejs_restricted :
  total (install_nodejs_restricted (os:=os)).
Proof.
  unfold install_nodejs_restricted.
  assert (Hchain : forall n i, total (try_methods n i (methods (os:=os)))).
  { intros n i. apply total_try_methods. unfold methods.
    repeat constructor; cbn; auto with py. }
  py_auto.
Qed.

Lemma emits_install_packages pkgs flag :
  emits runner_event (install_packages (os:=os) pkgs flag).
Proof.
  revert flag. induction pkgs as [| p rest IH]; intros flag;
    cbn [install_packages]; py_auto.
Qed.

Lemma total_install_packages pkgs flag :
  total (install_packages (os:=os) pkgs flag).
Proof.
  revert flag. induction pkgs as [| p rest IH]; intros flag;
    cbn [install_packages]; py_auto.
Qed.

Lemma emits_install_repos repos flag :
  emits runner_event (install_repos (os:=os) repos flag).
Proof.
  revert flag. induction repos as [| p rest IH]; intros flag;
    cbn [install_repos]; py_auto.
Qed.

Lemma total_install_repos repos flag :
  total (install_repos (os:=os) repos flag).
Proof.
  revert flag. induction repos as [| p rest IH]; intros flag;
    cbn [install_repos]; py_auto.
Qed.

Lemma emits_install_problem_packages problems flag :
  emits runner_event (install_problem_packages (os:=os) problems flag).
Proof.
  revert flag. induction problems as [| [c name] rest IH]; intros flag;
    cbn [install_problem_packages]; py_auto.
Qed.

Lemma total_install_problem_packages problems flag :
  total (install_problem_packages (os:=os) problems flag).
Proof.
  revert flag. induction problems as [| [c name] rest IH]; intros flag;
    cbn [install_problem_packages]; py_auto.
Qed.

Lemma emits_install_python_dependencies_safe :
  emits inside_phase (install_python_dependencies_safe (os:=os)).
Proof.
  apply (emits_weaken runner_event); [apply runner_inside_phase |].
  unfold install_python_dependencies_safe.
  pose proof emits_install_packages. pose proof emits_install_repos.
  pose proof emits_install_problem_packages. py_auto.
Qed.

Lemma total_install_python_dependencies_safe :
  total (install_python_dependencies_safe (os:=os)).
Proof.
  unfold install_python_dependencies_safe.
  pose proof total_install_packages. pose proof total_install_repos.
  pose proof total_install_problem_packages. py_auto.
Qed.

Lemma emits_start_loop eps : emits inside_phase (start_loop (os:=os) eps).
Proof.
  intros w. destruct (start_loop_spec eps w) as (r & w' & tr & -> & Htr & Hp & _).
  exists tr. split; [exact Htr |].
  eapply Forall_impl; [exact Hp | apply plain_inside_phase].
Qed.

Lemma emits_start_application :
  emits inside_phase (start_application (os:=os)).
Proof. unfold start_application. pose proof emits_start_loop. py_auto. Qed.

(** The launcher never raises, and is blocked only where a candidate never
    comes to an end. *)
Lemma launcher_result_start_application w :
  launcher_result (os:=os) (entry_points (os:=os)) (start_application w).1.
Proof.
  unfold start_application.
  unfold bind at 1, print at 1, log at 1. cbv beta iota.
  unfold bind at 1, print at 1, log at 1. cbv beta iota.
  unfold bind at 1, print at 1, log at 1. cbv beta iota.
  match goal with |- context [start_loop ?eps ?w0] =>
    destruct (start_loop_spec eps w0) as (r & w' & tr & -> & _ & _ & _ & Hres)
  end.
  exact Hres.
Qed.

(** Where the candidates come to an end the launcher returns. *)
Lemma total_start_application :
  children_end (os:=os) (entry_points (os:=os)) ->
  total (start_application (os:=os)).
Proof.
  intros Hend w.
  exact (launcher_result_returns _ _ (launcher_result_start_application w) Hend).
Qed.

(** [call] around the launcher: the return mark is entered when the launcher
    returns, and nothing follows what the launcher emitted when it is
    blocked. *)
Lemma call_start_application w :
  exists r w' tr,
    call "start_application" start_application w = (r, w')
    /\ Forall inside_phase tr
    /\ launcher_result (os:=os) (entry_points (os:=os)) r
    /\ trace w'
       = trace w ++ [EvCall "start_application"] ++ tr
         ++ match r with
            | Ok a => [EvRet "start_application" a]
            | _ => []
            end.
Proof.
  unfold call. unfold bind at 1, log at 1. cbv beta iota.
  set (w1 := mkWorld (environ w) (cwd w) (ext w)
               (trace w ++ [EvCall "start_application"])).
  pose proof (launcher_result_start_application w1) as Hres.
  destruct (emits_start_application w1) as (tr & Htr & Hin).
  unfold bind at 1.
  destruct (start_application w1) as [[a | e |] w2]; cbn [fst snd] in *.
  - eexists. eexists. exists tr. unfold bind, log, ret. cbn [fst snd trace].
    split; [reflexivity |]. split; [exact Hin |]. split; [exact I |].
    rewrite Htr. subst w1. cbn [trace]. now rewrite <- !app_assoc.
  - contradiction.
  - exists Blocked, w2, tr.
    split; [reflexivity |]. split; [exact Hin |]. split; [exact Hres |].
    rewrite Htr. subst w1. cbn [trace]. now rewrite <- !app_assoc, app_nil_r.
Qed.

End Phases.
(** What follows the summary lines: nothing after a successful launch,
    otherwise the troubleshooting tips and a directory listing. *)
Lemma summary_spec {os : OS} n p a (w : World os) :
  exists w' tips,
    summary n p a w = (Ok tt, w')
    /\ trace w' = trace w ++ summary_lines n p a ++ tips
    /\ Forall runner_event tips.
Proof.
  unfold summary, bind, print, log, when, ret. cbn [fst snd].
  cbn [environ cwd ext trace].
  destruct a; cbn [negb].
  - eexists. exists []. split; [reflexivity |]. cbn [trace].
    unfold summary_lines. rewrite <- !app_assoc. split; [reflexivity | constructor].
  - cbn [environ cwd ext trace].
    match goal with |- context [run_command1 "ls -la" ?w0] =>
      destruct (run_command1_spec "ls -la" w0)
        as (o & out & x & tr & -> & Hev & _) end.
    eexists.
    exists ([EvPrint (nl +:+ "Troubleshooting tips:");
             EvPrint "1. Check if your main application file exists";
             EvPrint "2. Check for any error messages above";
             EvPrint "3. Try running manually: python -m SONALI or python main.py";
             EvPrint (nl +:+ "Available files:")] ++ tr).
    split; [reflexivity |]. cbn [trace environ cwd ext].
    unfold summary_lines. rewrite <- !app_assoc. split; [reflexivity |].
    repeat (constructor; [exact I |]). exact Hev.
Qed.



(** * Further properties of the command runner *)

Section RunCommandMore.
Context {os : OS}.
Implicit Types (w : World os) (tr : list Event).

(** Which attempts failed and which one ended the loop. *)
Lemma run_command_loop_outcomes cmd retries timeout attempts w :
  exists r x tr,
    run_command_loop cmd retries timeout attempts w
    = (Ok r, mkWorld (environ w) (cwd w) x (trace w ++ tr))
    /\ (r.1 = true ->
        exists pre so se,
          outcomes tr = pre ++ [Completed 0 so se] /\ r.2 = so
          /\ Forall (fun o => run_succeeded o = false) pre)
    /\ (r.1 = false -> Forall (fun o => run_succeeded o = false) (outcomes tr)).
Proof.
  revert w. induction attempts as [| a rest IH]; intros w.
  - exists (false, EmptyString), (ext w), []. cbn. rewrite world_eta.
    split; [reflexivity |]. split; [discriminate | constructor].
  - destruct (subprocess_run os (ext w) (environ w) (cwd w) cmd timeout)
      as [o x1] eqn:Hrun.
    destruct (attempt_step cmd retries timeout a w o x1 Hrun)
      as (tr1 & Hstep & _ & Hsch1).
    assert (Hout1 : outcomes tr1 = [o]).
    { rewrite <- outcomes_schedule, Hsch1. apply outcomes_step. }
    cbn [run_command_loop]. unfold bind at 1. rewrite Hstep.
    destruct o as [rc so se | e]; cbn [attempt_result].
    + destruct (rc =? 0) eqn:Hrc.
      * apply Z.eqb_eq in Hrc. subst rc.
        exists (true, so), x1, tr1. cbn [ret fst snd].
        split; [reflexivity |]. split; [| discriminate].
        intros _. exists [], so, se. rewrite Hout1. auto.
      * destruct (IH (mkWorld (environ w) (cwd w) x1 (trace w ++ tr1)))
          as (r & x & tr2 & Hloop & Ht & Hf).
        cbn [environ cwd ext trace] in Hloop.
        exists r, x, (tr1 ++ tr2). rewrite Hloop, <- app_assoc.
        split; [reflexivity |]. rewrite outcomes_app, Hout1. split.
        -- intros Hr. destruct (Ht Hr) as (pre & so' & se' & Ho & Hs & Hpre).
           exists (Completed rc so se :: pre), so', se'. rewrite Ho.
           split; [reflexivity |]. split; [exact Hs |].
           constructor; [exact Hrc | exact Hpre].
        -- intros Hr. constructor; [exact Hrc | auto].
    + destruct (IH (mkWorld (environ w) (cwd w) x1 (trace w ++ tr1)))
        as (r & x & tr2 & Hloop & Ht & Hf).
      cbn [environ cwd ext trace] in Hloop.
      exists r, x, (tr1 ++ tr2). rewrite Hloop, <- app_assoc.
      split; [reflexivity |]. rewrite outcomes_app, Hout1. split.
      * intros Hr. destruct (Ht Hr) as (pre & so' & se' & Ho & Hs & Hpre).
        exists (RunRaised e :: pre), so', se'. rewrite Ho.
        split; [reflexivity |]. split; [exact Hs |].
        constructor; [reflexivity | exact Hpre].
      * intros Hr. constructor; [reflexivity | auto].
Qed.

End RunCommandMore.

(** X1. [run_command] stops at the first attempt that exits zero: when it
    reports success every earlier attempt failed, the successful attempt is
    the last one made, and the output returned is the whole standard output
    of that attempt.  When it reports failure no attempt succeeded. *)
Theorem run_command_returns_first_success {os : OS} cmd retries timeout
    (w : World os) :
  exists r w' tr,
    run_command cmd retries timeout w = (Ok r, w')
    /\ trace w' = trace w ++ tr
    /\ (r.1 = true ->
        exists pre so se,
          outcomes tr = pre ++ [Completed 0 so se] /\ r.2 = so
          /\ Forall (fun o => run_succeeded o = false) pre)
    /\ (r.1 = false -> Forall (fun o => run_succeeded o = false) (outcomes tr)).
Proof.
  unfold run_command.
  destruct (run_command_loop_outcomes cmd retries timeout (range retries) w)
    as (r & x & tr & Hrun & Ht & Hf).
  exists r. eexists. exists tr. split; [exact Hrun |]. auto.
Qed.

Lemma run_command_returns_first_success_witness :
  let run := run_command (os := sim_os flaky) "node --version" 5 300
               (boot flaky) in
  (exists r w' tr,
     run_command (os := sim_os flaky) "node --version" 5 300 (boot flaky)
     = (Ok r, w')
     /\ trace w' = trace (boot flaky) ++ tr
     /\ (r.1 = true ->
         exists pre so se,
           outcomes tr = pre ++ [Completed 0 so se] /\ r.2 = so
           /\ Forall (fun o => run_succeeded o = false) pre)
     /\ (r.1 = false ->
         Forall (fun o => run_succeeded o = false) (outcomes tr)))
  /\ run.1 = Ok (true, "v20.17.0")
  /\ length (outcomes (trace run.2)) = 3%nat
  /\ sleeps (trace run.2) = [2; 2].
Proof.
  intros run. split.
  - apply (run_command_returns_first_success (os := sim_os flaky)).
  - vm_compute. repeat split; reflexivity.
Defined.

(** X2. [run_command] touches nothing of the process but the outside it runs
    the command in: the environment and the working directory are as before,
    and all it adds to the trace are prints, executions and pauses. *)
Theorem run_command_frame {os : OS} cmd retries timeout (w : World os) :
  exists r x tr,
    run_command cmd retries timeout w
    = (Ok r, mkWorld (environ w) (cwd w) x (trace w ++ tr))
    /\ Forall runner_event tr.
Proof.
  destruct (run_command_spec cmd retries timeout w)
    as (r & x & tr & Hrun & Hev & _).
  exists r, x, tr. auto.
Qed.

(** X3. With a retry count below one [run_command] does not run the command
    at all and does not print: it returns failure at once. *)
Theorem run_command_no_retries {os : OS} cmd retries timeout (w : World os) :
  retries <= 0 ->
  run_command cmd retries timeout w = (Ok (false, EmptyString), w).
Proof.
  intros Hle. unfold run_command, range, seqZ.
  replace (Z.to_nat retries) with 0%nat by lia. reflexivity.
Qed.

Lemma run_command_no_retries_witness :
  run_command (os := sim_os bare) "make" 0 300 (boot bare)
  = (Ok (false, EmptyString), boot bare).
Proof. apply (run_command_no_retries (os := sim_os bare)). lia. Defined.
Lemma sleeps_step cmd t R a o :
  sleeps (step_events cmd t R (a, o)) = if backoff_due R a o then [2] else [].
Proof. unfold step_events. cbn. destruct (backoff_due R a o); reflexivity. Qed.

Lemma backoff_due_not_last R a o : backoff_due R a o = true -> (a <? R - 1) = true.
Proof.
  destruct o as [rc so se | e]; cbn; [| discriminate].
  rewrite andb_true_iff. tauto.
Qed.

Lemma sleeps_steps_bound cmd t R (l : list Z) (outs : list RunOutcome) :
  Forall (fun n => n = 2) (sleeps (flat_map (step_events cmd t R) (zip l outs)))
  /\ (length (sleeps (flat_map (step_events cmd t R) (zip l outs)))
      <= length (List.filter (fun a : Z => (a <? R - 1)%Z) l))%nat.
Proof.
  revert outs. induction l as [| a l IH]; intros outs; [cbn; auto |].
  destruct outs as [| o outs]; [cbn; split; [constructor | lia] |].
  cbn [zip zip_with flat_map]. rewrite sleeps_app, sleeps_step.
  destruct (IH outs) as [Hall Hlen]. cbn [List.filter].
  destruct (backoff_due R a o) eqn:Hb.
  - rewrite (backoff_due_not_last R a o Hb). cbn. split; [constructor; auto | lia].
  - cbn. split; [exact Hall |]. destruct (a <? R - 1); cbn; lia.
Qed.

Lemma count_below b s n :
  (length (List.filter (fun a : Z => (a <? b)%Z)
             ((fun i : nat => (Z.of_nat i + 0)%Z) <$> seq s n))
   <= Z.to_nat b - s)%nat.
Proof.
  revert s. induction n as [| n IH]; intros s; [cbn; lia |].
  cbn [seq fmap list_fmap List.filter]. specialize (IH (S s)).
  destruct (Z.of_nat s + 0 <? b) eqn:Hlt; cbn [length].
  - apply Z.ltb_lt in Hlt. cbn in IH. lia.
  - cbn in IH. lia.
Qed.

(** * Further properties of [add_to_path] *)

Lemma split_nonempty sep (s : string) : Str.split sep s <> [].
Proof.
  destruct s as [| c s]; cbn; [discriminate |].
  destruct (decide (c = sep)); [discriminate |].
  destruct (Str.split sep s); discriminate.
Qed.

(** Splitting two strings joined by the separator. *)
Lemma split_joined sep (a b : string) :
  Str.split sep (a +:+ String sep b) = Str.split sep a ++ Str.split sep b.
Proof.
  induction a as [| c a IH].
  - cbn [Str.split]. change (EmptyString +:+ String sep b) with (String sep b).
    cbn [Str.split]. destruct (decide (sep = sep)); [reflexivity | contradiction].
  - rewrite append_cons. cbn [Str.split].
    destruct (decide (c = sep)); [now rewrite IH |].
    rewrite IH. destruct (Str.split sep a) eqn:Ha; [| reflexivity].
    now apply split_nonempty in Ha.
Qed.

(** X5. [add_to_path] with an empty string, or with a directory that does
    not exist, does nothing at all and gives [False]: [PATH] is not even
    looked up. *)
Theorem add_to_path_ignores_missing {os : OS} path (w : World os) :
  Str.nonempty path = false \/ os_path_exists os (ext w) (cwd w) path = false ->
  add_to_path path w = (Ok false, w).
Proof.
  intros H. rewrite add_to_path_eq.
  destruct H as [-> | ->]; [reflexivity |]. now rewrite andb_false_r.
Qed.

Lemma add_to_path_ignores_missing_witness :
  add_to_path (os := sim_os bare) "/opt/node/bin" (boot bare)
  = (Ok false, boot bare)
  /\ add_to_path (os := sim_os bare) EmptyString (boot bare)
     = (Ok false, boot bare).
Proof.
  split.
  - apply (add_to_path_ignores_missing (os := sim_os bare)). right. reflexivity.
  - apply (add_to_path_ignores_missing (os := sim_os bare)). left. reflexivity.
Defined.

(** X6. When the directory exists but the environment has no [PATH]
    variable, [add_to_path] raises [KeyError('PATH')] and leaves the process
    as it was. *)
Theorem add_to_path_without_path_variable {os : OS} path (w : World os) :
  Str.nonempty path = true ->
  os_path_exists os (ext w) (cwd w) path = true ->
  environ w !! "PATH" = None ->
  add_to_path path w = (Raise (KeyError "PATH"), w).
Proof.
  intros Hne Hex Hnone. now rewrite add_to_path_eq, Hne, Hex, Hnone.
Qed.

Lemma add_to_path_without_path_variable_witness :
  let s := with_files ["/opt/node/bin"] bare in
  let w := mkWorld (os := sim_os s) ∅ "/srv/app" 0%nat [] in
  add_to_path "/opt/node/bin" w = (Raise (KeyError "PATH"), w).
Proof.
  intros s w.
  apply (add_to_path_without_path_variable (os := sim_os s));
    vm_compute; reflexivity.
Defined.

(** X7. When [add_to_path] gives [True], the directory was not a component
    of [PATH]; the new [PATH] is the directory, a colon and the old value,
    so its components are those of the directory followed by all the old
    ones in their order; no other environment variable, the working
    directory and the outside are touched; and the trace gains the
    [os.putenv] call and the message. *)
Theorem add_to_path_success {os : OS} path (w w' : World os) :
  add_to_path path w = (Ok true, w') ->
  exists old,
    environ w !! "PATH" = Some old
    /\ (path ∉ Str.split ":" old)
    /\ environ w' !! "PATH" = Some (path +:+ ":" +:+ old)
    /\ Str.split ":" (path +:+ ":" +:+ old)
       = Str.split ":" path ++ Str.split ":" old
    /\ (forall k, k <> "PATH" -> environ w' !! k = environ w !! k)
    /\ cwd w' = cwd w /\ ext w' = ext w
    /\ trace w'
       = trace w ++ [ EvPutenv "PATH" (path +:+ ":" +:+ old);
                      EvPrint ("Added " +:+ path +:+ " to PATH") ].
Proof.
  rewrite add_to_path_eq.
  destruct (_ && _); [| discriminate].
  destruct (environ w !! "PATH") as [old |] eqn:Hpath; [| discriminate].
  destruct (bool_decide (path ∈ Str.split ":" old)) eqn:Hin; [discriminate |].
  intros H. inversion H; subst w'; clear H. exists old.
  split; [reflexivity |]. split; [now apply bool_decide_eq_false in Hin |].
  cbn [environ cwd ext trace]. split; [apply lookup_insert_eq |].
  split; [apply (split_joined ":"%char) |].
  split; [| auto]. intros k Hk. now apply lookup_insert_ne.
Qed.

Lemma add_to_path_success_witness :
  let s := with_files ["/home/app/.local/bin"] bare in
  exists old,
    environ (boot s) !! "PATH" = Some old
    /\ ("/home/app/.local/bin" ∉ Str.split ":" old)
    /\ environ (add_to_path (os := sim_os s) "/home/app/.local/bin" (boot s)).2
         !! "PATH"
       = Some ("/home/app/.local/bin" +:+ ":" +:+ old).
Proof.
  intros s.
  destruct (add_to_path_success (os := sim_os s) "/home/app/.local/bin"
              (boot s)
              (add_to_path (os := sim_os s) "/home/app/.local/bin" (boot s)).2)
    as (old & H1 & H2 & H3 & _).
  - vm_compute. reflexivity.
  - exists old. auto.
Defined.
(** * Further properties of the acquisition chain *)

Lemma total_returns {os : OS} {A} (m : M os A) (w : World os) :
  total m -> exists a w', m w = (Ok a, w').
Proof.
  intros Hm. destruct (Hm w) as (a & Ha).
  destruct (m w) as [r w']. cbn in Ha. subst r. eauto.
Qed.



(** X9. When [node] or [npm] does not resolve, [install_nodejs_restricted]
    goes to the strategies, and the first one it calls is the portable
    binary: the version commands of the already-installed branch are not what
    it starts with. *)
Theorem install_nodejs_restricted_starts_with_portable {os : OS}
    (w : World os) :
  shutil_which os (ext w) (environ w) (cwd w) "node" = false
  \/ shutil_which os (ext w) (environ w) (cwd w) "npm" = false ->
  exists r w' tr,
    install_nodejs_restricted w = (Ok r, w')
    /\ trace w' = trace w ++ tr
    /\ head (call_log tr) = Some (EvCall "install_nodejs_portable_binary").
Proof.
  intros Habsent.
  assert (Hboth : shutil_which os (ext w) (environ w) (cwd w) "node"
                  && shutil_which os (ext w) (environ w) (cwd w) "npm" = false).
  { destruct Habsent as [-> | ->]; [reflexivity | apply andb_false_r]. }
  unfold install_nodejs_restricted, bind, print, log, check_command_exists, ret.
  cbn -[try_methods methods]. rewrite Hboth.
  match goal with |- context [try_methods ?n ?i ?ms ?w0] =>
    destruct (try_methods_spec n i ms w0 methods_behave)
      as (r & w' & tr & results & -> & Htr & Hlog & Hcases) end.
  exists r, w'. eexists. split; [reflexivity |].
  rewrite Htr. cbn [trace]. rewrite <- !app_assoc. split; [reflexivity |].
  rewrite !call_log_app, Hlog.
  change (methods.*1) with method_names.
  assert (Hne : exists b rest, results = b :: rest).
  { destruct Hcases as [[_ ->] | [_ (k & _ & ->)]]; [cbn; eauto |].
    destruct k; cbn; eauto. }
  destruct Hne as (b & rest & ->). reflexivity.
Qed.

Lemma install_nodejs_restricted_starts_with_portable_witness :
  let s := with_commands ["node"] bare in
  exists r w' tr,
    install_nodejs_restricted (os := sim_os s) (boot s) = (Ok r, w')
    /\ trace w' = trace (boot s) ++ tr
    /\ head (call_log tr) = Some (EvCall "install_nodejs_portable_binary").
Proof.
  intros s.
  apply (install_nodejs_restricted_starts_with_portable (os := sim_os s)).
  right. reflexivity.
Defined.
(** * The acquisition chain without a network *)

(** Case analysis on the next system call; a download can only raise. *)
Ltac offline_sys Hoff :=
  match goal with
  | |- context [sys_call ?o ?x ?d (Urlretrieve ?u ?p)] =>
      let E := fresh "E" in
      destruct (sys_call o x d (Urlretrieve u p)) as [[? |] ?] eqn:E;
      [| exfalso; apply (Hoff x d u p); rewrite E; reflexivity]
  | |- context [sys_call ?o ?x ?d ?c] =>
      destruct (sys_call o x d c) as [[? |] ?]
  end.

Ltac offline_done :=
  eexists; eexists; split;
  [ rewrite <- ?app_assoc; cbn [app]; reflexivity
  | repeat (constructor; [exact I |]); constructor ].

Section Offline.
Context {os : OS}.
Hypothesis Hoff : offline (os:=os).

Lemma portable_fails_offline :
  fails_offline (install_nodejs_portable_binary (os:=os)).
Proof.
  intros w.
  unfold install_nodejs_portable_binary, bind, try_except, print, log, py_sys,
    expanduser, uname_machine, ret.
  cbn -[run_command1 add_to_path remove_stale_link check_command_exists].
  repeat (offline_sys Hoff;
          cbn -[run_command1 add_to_path remove_stale_link check_command_exists]);
    offline_done.
Qed.

Lemma static_fails_offline :
  fails_offline (install_nodejs_static_binary (os:=os)).
Proof.
  intros w.
  unfold install_nodejs_static_binary, bind, try_except, print, log, py_sys,
    expanduser, uname_machine, ret.
  cbn -[run_command1 add_to_path check_command_exists].
  repeat (offline_sys Hoff;
          cbn -[run_command1 add_to_path check_command_exists]);
    offline_done.
Qed.

Lemma source_fails_offline :
  fails_offline (install_nodejs_from_source_simple (os:=os)).
Proof.
  intros w.
  unfold install_nodejs_from_source_simple, source_build_try, bind, try_except,
    print, log, py_sys, expanduser, ret.
  cbn -[configure_make_install py_chdir].
  repeat (offline_sys Hoff; cbn -[configure_make_install py_chdir]);
    offline_done.
Qed.

(** Without a network the mirror loop tries every URL, in order. *)
Lemma precompiled_downloads_offline bin_dir node_bin_path urls (w : World os) :
  exists x tr,
    precompiled_downloads bin_dir node_bin_path urls w
    = (Ok false, mkWorld (environ w) (cwd w) x (trace w ++ tr))
    /\ Forall offline_event tr
    /\ downloads tr = urls.
Proof.
  revert w. induction urls as [| url rest IH]; intros w.
  - exists (ext w), []. cbn. rewrite world_eta. auto.
  - cbn [precompiled_downloads].
    unfold bind at 1, try_except at 1, bind at 1, print at 1, log at 1.
    cbv beta iota. unfold bind at 1, py_sys at 1.
    cbn [environ cwd ext trace].
    destruct (sys_call os (ext w) (cwd w) (Urlretrieve url node_bin_path))
      as [[e |] x1] eqn:E;
      [| exfalso; apply (Hoff (ext w) (cwd w) url node_bin_path);
         rewrite E; reflexivity].
    unfold bind at 1, print at 1, log at 1. cbv beta iota.
    cbn [environ cwd ext trace ret].
    match goal with |- context [precompiled_downloads _ _ rest ?w0] =>
      destruct (IH w0) as (x & tr & -> & Hev & Hd) end.
    cbn [environ cwd ext trace].
    exists x. eexists. split; [rewrite <- !app_assoc; cbn [app]; reflexivity |].
    split; [repeat (constructor; [exact I |]); exact Hev |].
    rewrite <- Hd. reflexivity.
Qed.

(** Without a network the precompiled-binary strategy fails after its three
    mirrors, those of the architecture [os.uname] reports, unless one of its
    two directories could not be created: then it downloads nothing. *)
Lemma precompiled_offline (w : World os) :
  let install_dir :=
    os_path_join (os_path_expanduser os (ext w) (environ w) "~") ".nodejs" in
  let made := sys_call os (ext w) (cwd w) (Makedirs install_dir) in
  let made_bin :=
    sys_call os made.2 (cwd w) (Makedirs (os_path_join install_dir "bin")) in
  let arch :=
    if bool_decide (os_uname_machine os made_bin.2 ∈ ["x86_64"; "amd64"])
    then "x64" else "arm64" in
  exists x tr,
    install_nodejs_precompiled_binary w
    = (Ok false, mkWorld (environ w) (cwd w) x (trace w ++ tr))
    /\ Forall offline_event tr
    /\ downloads tr
       = match made.1, made_bin.1 with
         | None, None => precompiled_mirrors arch
         | _, _ => []
         end.
Proof.
  cbv zeta.
  unfold install_nodejs_precompiled_binary, bind at 1, print at 1, log at 1.
  cbv beta iota. unfold try_except.
  unfold bind at 1, expanduser at 1. cbn [environ cwd ext trace].
  unfold bind at 1, py_sys at 1. cbn [environ cwd ext trace].
  destruct (sys_call os (ext w) (cwd w) _) as [[e |] x1].
  { unfold bind, print, log, ret. cbn. exists x1. eexists.
    split; [rewrite <- !app_assoc; cbn [app]; reflexivity |].
    split; [repeat (constructor; [exact I |]); constructor | reflexivity]. }
  unfold bind at 1, py_sys at 1. cbn [environ cwd ext trace fst snd].
  destruct (sys_call os x1 (cwd w) _) as [[e |] x2].
  { unfold bind, print, log, ret. cbn. exists x2. eexists.
    split; [rewrite <- !app_assoc; cbn [app]; reflexivity |].
    split; [repeat (constructor; [exact I |]); constructor | reflexivity]. }
  unfold bind at 1, uname_machine at 1. cbn [environ cwd ext trace fst snd].
  cbv zeta.
  match goal with |- context [precompiled_downloads ?b ?n ?urls ?w0] =>
    destruct (precompiled_downloads_offline b n urls w0)
      as (x & tr & -> & Hev & Hd) end.
  cbn [environ cwd ext trace].
  exists x. eexists. split; [rewrite <- !app_assoc; cbn [app]; reflexivity |].
  split; [repeat (constructor; [exact I |]); exact Hev |].
  change (downloads (EvPrint "Trying precompiled Node.js binary..."
            :: EvSys (Makedirs (os_path_join
                 (os_path_expanduser os (ext w) (environ w) "~") ".nodejs"))
            :: EvSys (Makedirs (os_path_join (os_path_join
                 (os_path_expanduser os (ext w) (environ w) "~") ".nodejs") "bin"))
            :: tr))
    with (downloads tr).
  rewrite Hd. unfold precompiled_mirrors. reflexivity.
Qed.

Lemma precompiled_fails_offline :
  fails_offline (install_nodejs_precompiled_binary (os:=os)).
Proof.
  intros w. destruct (precompiled_offline w) as (x & tr & H1 & H2 & _). eauto.
Qed.

Lemma call_offline fn (m : M os bool) (w : World os) :
  fails_offline m ->
  exists x tr,
    call fn m w = (Ok false, mkWorld (environ w) (cwd w) x (trace w ++ tr))
    /\ Forall offline_event tr.
Proof.
  intros Hm. unfold call, bind, log, ret. cbn.
  set (w1 := mkWorld (environ w) (cwd w) (ext w) (trace w ++ [EvCall fn])).
  destruct (Hm w1) as (x & tr & -> & Hev). subst w1. cbn [environ cwd ext trace].
  exists x. eexists. split; [rewrite <- !app_assoc; cbn [app]; reflexivity |].
  constructor; [exact I |]. apply Forall_app. split; [exact Hev |].
  repeat constructor.
Qed.

(** The chain over strategies that all fail offline. *)
Lemma try_methods_offline n i (ms : list (string * M os bool)) (w : World os) :
  Forall (fun fm => fails_offline fm.2) ms ->
  exists x tr,
    try_methods n i ms w
    = (Ok false, mkWorld (environ w) (cwd w) x (trace w ++ tr))
    /\ Forall offline_event tr.
Proof.
  intros Hms. revert i w.
  induction Hms as [| [fn m] rest Hm _ IH]; intros i w.
  - cbn. unfold bind, print, log, ret. cbn. offline_done.
  - cbn [try_methods]. unfold bind at 1, print at 1, log at 1. cbv beta iota.
    set (w0 := mkWorld _ _ _ _).
    destruct (call_offline fn m w0 Hm) as (x1 & tr1 & Hcall & Hev1).
    unfold bind at 1. rewrite Hcall.
    unfold bind at 1, print at 1, log at 1. cbv beta iota.
    cbn [environ cwd ext trace].
    match goal with |- context [try_methods n (i + 1) rest ?w2] =>
      destruct (IH (i + 1) w2) as (x & tr & -> & Hev) end.
    subst w0. cbn [environ cwd ext trace].
    exists x. eexists. split; [rewrite <- !app_assoc; cbn [app]; reflexivity |].
    constructor; [exact I |]. apply Forall_app. split; [exact Hev1 |].
    constructor; [exact I | exact Hev].
Qed.

End Offline.

(** X10. On a host where no download succeeds and [node] or [npm] is
    missing, the acquisition chain fails cleanly: it returns [False] having
    only printed, created directories and attempted downloads.  No command
    is run, nothing is extracted or linked, and [PATH] and the working
    directory are as before. *)
Theorem install_nodejs_restricted_offline {os : OS} (w : World os) :
  offline (os:=os) ->
  shutil_which os (ext w) (environ w) (cwd w) "node" = false
  \/ shutil_which os (ext w) (environ w) (cwd w) "npm" = false ->
  exists x tr,
    install_nodejs_restricted w
    = (Ok false, mkWorld (environ w) (cwd w) x (trace w ++ tr))
    /\ Forall offline_event tr.
Proof.
  intros Hoff Habsent.
  assert (Hboth : shutil_which os (ext w) (environ w) (cwd w) "node"
                  && shutil_which os (ext w) (environ w) (cwd w) "npm" = false).
  { destruct Habsent as [-> | ->]; [reflexivity | apply andb_false_r]. }
  unfold install_nodejs_restricted, bind, print, log, check_command_exists, ret.
  cbn -[try_methods methods]. rewrite Hboth.
  assert (Hms : Forall (fun fm => fails_offline fm.2) (methods (os:=os))).
  { unfold methods. repeat constructor; cbn.
    - apply portable_fails_offline, Hoff.
    - apply precompiled_fails_offline, Hoff.
    - apply static_fails_offline, Hoff.
    - apply source_fails_offline, Hoff. }
  match goal with |- context [try_methods ?n ?i ?ms ?w0] =>
    destruct (try_methods_offline n i ms w0 Hms) as (x & tr & -> & Hev) end.
  cbn [environ cwd ext trace].
  exists x. eexists. split; [rewrite <- !app_assoc; cbn [app]; reflexivity |].
  repeat (constructor; [exact I |]). exact Hev.
Qed.

Lemma install_nodejs_restricted_offline_witness :
  exists x tr,
    install_nodejs_restricted (os := sim_os bare) (boot bare)
    = (Ok false, mkWorld (environ (boot bare)) (cwd (boot bare)) x
                   (trace (boot bare) ++ tr))
    /\ Forall offline_event tr.
Proof.
  apply (install_nodejs_restricted_offline (os := sim_os bare) (boot bare)).
  - intros x d url dst. discriminate.
  - left. reflexivity.
Defined.

(** X11. Without a network the precompiled-binary strategy returns [False]
    after trying its three download sources in their fixed order, those of
    the architecture of the host ([x64] for [x86_64] and [amd64], [arm64] for
    anything else).  It tries none of them exactly when one of its two
    directories could not be created.  It never gets to [chmod],
    [add_to_path] or a command. *)
Theorem precompiled_tries_every_mirror {os : OS} (w : World os) :
  offline (os:=os) ->
  let install_dir :=
    os_path_join (os_path_expanduser os (ext w) (environ w) "~") ".nodejs" in
  let made := sys_call os (ext w) (cwd w) (Makedirs install_dir) in
  let made_bin :=
    sys_call os made.2 (cwd w) (Makedirs (os_path_join install_dir "bin")) in
  let arch :=
    if bool_decide (os_uname_machine os made_bin.2 ∈ ["x86_64"; "amd64"])
    then "x64" else "arm64" in
  exists x tr,
    install_nodejs_precompiled_binary w
    = (Ok false, mkWorld (environ w) (cwd w) x (trace w ++ tr))
    /\ Forall offline_event tr
    /\ downloads tr
       = match made.1, made_bin.1 with
         | None, None => precompiled_mirrors arch
         | _, _ => []
         end.
Proof. intros Hoff. apply precompiled_offline, Hoff. Qed.

Lemma precompiled_tries_every_mirror_witness :
  (exists x tr,
     install_nodejs_precompiled_binary (os := sim_os bare) (boot bare)
     = (Ok false, mkWorld (environ (boot bare)) (cwd (boot bare)) x
                    (trace (boot bare) ++ tr))
     /\ Forall offline_event tr
     /\ downloads tr = precompiled_mirrors "x64")
  /\ downloads (trace (install_nodejs_precompiled_binary (os := sim_os bare)
                         (boot bare)).2)
     = [ "https://github.com/nodejs/node/raw/main/bin/linux-x64/node";
         "https://nodejs.org/download/release/latest/linux-x64/node";
         "https://unofficial-builds.nodejs.org/download/release/latest/linux-x64/node" ].
Proof.
  split; [| vm_compute; reflexivity].
  apply (precompiled_tries_every_mirror (os := sim_os bare) (boot bare)).
  intros x d url dst. discriminate.
Defined.
(** * The order of the build commands *)

Lemma runs_print s tr : runs (EvPrint s :: tr) = runs tr.
Proof. reflexivity. Qed.

(** X12. The source build runs [./configure], [make -j2] and [make install]
    in this order, each only after the one before exited zero; the two
    version commands are run only after all three succeeded, and exactly
    then does the build report success. *)
Theorem source_build_command_order {os : OS} (w : World os) :
  exists tr b1 b2 b3 extra,
    trace (configure_make_install w).2 = trace w ++ tr
    /\ runs tr = build_runs b1 b2 b3 ++ extra
    /\ (extra = []
        \/ (b1 = true /\ b2 = true /\ b3 = true
            /\ exists v1 v2,
                 extra = [("node --version", v1); ("npm --version", v2)]))
    /\ ((configure_make_install w).1 = Ok true <-> extra <> []).
Proof.
  destruct (configure_make_install w) as [r w'] eqn:Hc. cbn [fst snd].
  unfold configure_make_install in Hc.
  unfold bind at 1, print at 1, log at 1 in Hc. cbv beta iota in Hc.
  set (w0 := mkWorld _ _ _ _) in Hc.
  assert (H0 : trace w0 = trace w ++ [EvPrint "Configuring Node.js build..."])
    by reflexivity.
  destruct (run1 "./configure --prefix=$HOME/.local/node-built" w0)
    as (b1 & o1 & w1 & tr1 & Hr1 & Ht1 & Hruns1).
  unfold bind at 1 in Hc. rewrite Hr1 in Hc. cbn [fst] in Hc.
  destruct b1.
  2: { inversion Hc; subst r w'.
       exists ([EvPrint "Configuring Node.js build..."] ++ tr1),
         false, false, false, [].
       rewrite Ht1, H0, <- app_assoc. split; [reflexivity |].
       rewrite runs_app, Hruns1. cbn. split; [reflexivity |].
       split; [auto |]. split; [discriminate | congruence]. }
  unfold bind at 1, print at 1, log at 1 in Hc. cbv beta iota in Hc.
  set (w2 := mkWorld _ _ _ _) in Hc.
  assert (H2 : trace w2
               = trace w1 ++ [EvPrint "Building Node.js (this may take a while)..."])
    by reflexivity.
  destruct (run1 "make -j2" w2) as (b2 & o2 & w3 & tr2 & Hr2 & Ht2 & Hruns2).
  unfold bind at 1 in Hc. rewrite Hr2 in Hc. cbn [fst] in Hc.
  destruct b2.
  2: { inversion Hc; subst r w'.
       exists ([EvPrint "Configuring Node.js build..."] ++ tr1
               ++ [EvPrint "Building Node.js (this may take a while)..."] ++ tr2),
         true, false, false, [].
       rewrite Ht2, H2, Ht1, H0, <- !app_assoc. split; [reflexivity |].
       rewrite !runs_app, Hruns1, Hruns2. cbn. split; [reflexivity |].
       split; [auto |]. split; [discriminate | congruence]. }
  destruct (run1 "make install" w3) as (b3 & o3 & w4 & tr3 & Hr3 & Ht3 & Hruns3).
  unfold bind at 1 in Hc. rewrite Hr3 in Hc. cbn [fst] in Hc.
  destruct b3.
  2: { inversion Hc; subst r w'.
       exists ([EvPrint "Configuring Node.js build..."] ++ tr1
               ++ [EvPrint "Building Node.js (this may take a while)..."] ++ tr2
               ++ tr3),
         true, true, false, [].
       rewrite Ht3, Ht2, H2, Ht1, H0, <- !app_assoc. split; [reflexivity |].
       rewrite !runs_app, Hruns1, Hruns2, Hruns3. cbn. split; [reflexivity |].
       split; [auto |]. split; [discriminate | congruence]. }
  assert (Hpre : exists tr,
             trace w4 = trace w ++ tr /\ runs tr = build_runs true true true).
  { exists ([EvPrint "Configuring Node.js build..."] ++ tr1
            ++ [EvPrint "Building Node.js (this may take a while)..."] ++ tr2
            ++ tr3).
    rewrite Ht3, Ht2, H2, Ht1, H0, <- !app_assoc. split; [reflexivity |].
    rewrite !runs_app, Hruns1, Hruns2, Hruns3. reflexivity. }
  destruct Hpre as (trp & Htp & Hrp).
  clear Hr1 Hr2 Hr3 Ht1 Ht2 Ht3 H0 H2 Hruns1 Hruns2 Hruns3.
  unfold bind at 1, expanduser at 1 in Hc. cbv beta iota in Hc.
  unfold bind at 1 in Hc. rewrite add_to_path_eq in Hc.
  set (P := os_path_expanduser os (ext w4) (environ w4) "~/.local/node-built/bin")
    in *.
  assert (Hcont : forall w5 : World os,
    (exists tra, trace w5 = trace w4 ++ tra /\ runs tra = []) ->
    (node <- check_command_exists "node" ;;
     if (node : bool) then
       print "Node.js built from source!" ;;
       run_command1 "node --version" ;;
       run_command1 "npm --version" ;;
       ret true
     else ret false) w5 = (r, w') ->
    exists tr b1 b2 b3 extra,
      trace w' = trace w ++ tr /\ runs tr = build_runs b1 b2 b3 ++ extra
      /\ (extra = []
          \/ (b1 = true /\ b2 = true /\ b3 = true
              /\ exists v1 v2,
                   extra = [("node --version", v1); ("npm --version", v2)]))
      /\ (r = Ok true <-> extra <> [])).
  { intros w5 (tra & Hta & Hra) Heq.
    unfold bind at 1, check_command_exists at 1 in Heq. cbv beta iota in Heq.
    destruct (shutil_which os (ext w5) (environ w5) (cwd w5) "node").
    2: { inversion Heq; subst r w'.
         exists (trp ++ tra), true, true, true, [].
         rewrite Hta, Htp, <- app_assoc. split; [reflexivity |].
         rewrite runs_app, Hrp, Hra. split; [reflexivity |].
         split; [auto |]. split; [discriminate | congruence]. }
    unfold bind at 1, print at 1, log at 1 in Heq. cbv beta iota in Heq.
    set (w6 := mkWorld _ _ _ _) in Heq.
    assert (H6 : trace w6 = trace w5 ++ [EvPrint "Node.js built from source!"])
      by reflexivity.
    destruct (run1 "node --version" w6) as (v1 & p1 & w7 & tr7 & Hr7 & Ht7 & Hruns7).
    unfold bind at 1 in Heq. rewrite Hr7 in Heq.
    destruct (run1 "npm --version" w7) as (v2 & p2 & w8 & tr8 & Hr8 & Ht8 & Hruns8).
    unfold bind at 1 in Heq. rewrite Hr8 in Heq.
    inversion Heq; subst r w'.
    exists (trp ++ tra ++ [EvPrint "Node.js built from source!"] ++ tr7 ++ tr8),
      true, true, true, [("node --version", v1); ("npm --version", v2)].
    rewrite Ht8, Ht7, H6, Hta, Htp, <- !app_assoc. split; [reflexivity |].
    rewrite !runs_app, Hrp, Hra, Hruns7, Hruns8. split; [reflexivity |].
    split; [right; eauto 8 |]. split; [discriminate | reflexivity]. }
  destruct (Str.nonempty P && os_path_exists os (ext w4) (cwd w4) P).
  2: { apply (Hcont w4); [exists []; rewrite app_nil_r; auto | exact Hc]. }
  destruct (environ w4 !! "PATH") as [old |].
  2: { inversion Hc; subst r w'.
       exists trp, true, true, true, []. rewrite app_nil_r.
       split; [exact Htp |]. split; [exact Hrp |].
       split; [auto |]. split; [discriminate | congruence]. }
  destruct (bool_decide (P ∈ Str.split ":" old)).
  - apply (Hcont w4); [exists []; rewrite app_nil_r; auto | exact Hc].
  - eapply Hcont; [| exact Hc]. cbn [trace]. eexists. split; reflexivity.
Qed.

Lemma source_build_command_order_witness :
  (exists tr b1 b2 b3 extra,
     trace (configure_make_install (os := sim_os no_compiler)
              (boot no_compiler)).2
     = trace (boot no_compiler) ++ tr
     /\ runs tr = build_runs b1 b2 b3 ++ extra)
  /\ runs (trace (configure_make_install (os := sim_os no_compiler)
                    (boot no_compiler)).2)
     = [("./configure --prefix=$HOME/.local/node-built", false)]
  /\ runs (trace (configure_make_install (os := sim_os builder)
                    (boot builder)).2)
     = [ ("./configure --prefix=$HOME/.local/node-built", true);
         ("make -j2", true); ("make install", true);
         ("node --version", true); ("npm --version", true) ].
Proof.
  split; [| vm_compute; split; reflexivity].
  destruct (source_build_command_order (os := sim_os no_compiler)
              (boot no_compiler))
    as (tr & b1 & b2 & b3 & extra & H1 & H2 & _).
  exists tr, b1, b2, b3, extra. auto.
Defined.
(** * Further properties of the dependency installer *)

(** The runs of [install_python_dependencies_safe]: the upgrade of [pip],
    then the fallback runs of each dependency in turn. *)
Lemma install_python_dependencies_safe_runs {os : OS} (w : World os) :
  exists r w' tr b0 (oks : list (list (string * bool) * bool)),
    install_python_dependencies_safe w = (Ok r, w')
    /\ trace w' = trace w ++ tr
    /\ runs tr = (pip_upgrade (os:=os), b0) :: concat oks.*1
    /\ Forall2 (fun item o => fallback_runs item o.1 o.2)
         (dependency_items (os:=os)) oks
    /\ r = forallb snd oks.
Proof.
  unfold install_python_dependencies_safe.
  unfold bind at 1, print at 1, log at 1. cbv beta iota.
  unfold bind at 1, print at 1, log at 1. cbv beta iota.
  unfold bind at 1, print at 1, log at 1. cbv beta iota.
  cbn [environ cwd ext trace].
  set (w0 := mkWorld _ _ _ _).
  set (pre := [EvPrint (nl +:+ rule 60);
               EvPrint "INSTALLING PYTHON DEPENDENCIES"; EvPrint (rule 60)]).
  assert (H0 : trace w0 = trace w ++ pre).
  { subst w0 pre. cbn [trace]. now rewrite <- !app_assoc. }
  destruct (run1 (pip_upgrade (os:=os)) w0)
    as (b0 & out0 & w1 & tr0 & Hr0 & Ht0 & Hruns0).
  unfold bind at 1. fold (pip_upgrade (os:=os)). rewrite Hr0.
  destruct (install_packages_spec packages true w1)
    as (rA & wA & trA & oksA & HrunA & HtA & HrunsA & HallA & HrA).
  unfold bind at 1. rewrite HrunA.
  destruct (install_repos_spec git_repos rA wA)
    as (rB & wB & trB & oksB & HrunB & HtB & HrunsB & HallB & HrB).
  unfold bind at 1. rewrite HrunB.
  destruct (install_problem_packages_spec problem_packages rB wB)
    as (rC & wC & trC & oksC & HrunC & HtC & HrunsC & HallC & HrC).
  rewrite HrunC.
  exists rC, wC, (pre ++ tr0 ++ trA ++ trB ++ trC), b0, (oksA ++ oksB ++ oksC).
  split; [reflexivity |]. split.
  { rewrite HtC, HtB, HtA, Ht0, H0, <- !app_assoc. reflexivity. }
  split.
  { rewrite !runs_app, Hruns0, HrunsA, HrunsB, HrunsC.
    rewrite !fmap_app, !concat_app. reflexivity. }
  split.
  { unfold dependency_items. repeat apply Forall2_app; assumption. }
  rewrite HrC, HrB, HrA, !forallb_app. cbn. now rewrite andb_assoc.
Qed.

Lemma fallback_runs_length item rs ok :
  fallback_runs item rs ok -> (1 <= length rs <= length item)%nat.
Proof.
  revert rs. induction item as [| c rest IH]; intros rs; cbn; [tauto |].
  intros [[-> _] | [(_ & -> & _) | (rs' & -> & Hrest)]]; cbn; try lia.
  specialize (IH rs' Hrest). lia.
Qed.

Lemma fallback_runs_total_length items
    (oks : list (list (string * bool) * bool)) :
  Forall2 (fun item o => fallback_runs item o.1 o.2) items oks ->
  (length items <= length (concat oks.*1) <= length (concat items))%nat.
Proof.
  induction 1 as [| item [rs ok] items oks Hitem _ IH]; cbn; [lia |].
  rewrite !length_app. pose proof (fallback_runs_length item rs ok Hitem). lia.
Qed.

(** X13. One call of [install_python_dependencies_safe] executes at least
    45 and at most 87 commands: the upgrade of [pip], then for each of the 44
    dependencies at least its first install command and at most all of its
    fallbacks. *)
Theorem install_python_dependencies_safe_command_count {os : OS}
    (w : World os) :
  exists r w' tr,
    install_python_dependencies_safe w = (Ok r, w')
    /\ trace w' = trace w ++ tr
    /\ (45 <= length (executions tr) <= 87)%nat.
Proof.
  destruct (install_python_dependencies_safe_runs w)
    as (r & w' & tr & b0 & oks & Hrun & Htr & Hruns & Hall & _).
  exists r, w', tr. split; [exact Hrun |]. split; [exact Htr |].
  rewrite executions_runs, Hruns, length_fmap. cbn [length].
  pose proof (fallback_runs_total_length _ _ Hall) as Hlen.
  assert (H44 : length (dependency_items (os:=os)) = 44%nat) by reflexivity.
  assert (H86 : length (concat (dependency_items (os:=os))) = 86%nat)
    by reflexivity.
  lia.
Qed.

(** Within one dependency a command is run only after those before it
    failed. *)
Lemma fallback_order item rs ok :
  NoDup item -> fallback_runs item rs ok ->
  forall i j c c' b, (i < j)%nat ->
    item !! i = Some c -> item !! j = Some c' ->
    (c', b) ∈ rs -> (c, false) ∈ rs.
Proof.
  revert rs. induction item as [| c0 rest IH]; intros rs Hnd; cbn; [tauto |].
  apply NoDup_cons in Hnd as [Hfresh Hnd].
  intros Hfb i j c c' b Hij Hi Hj Hin.
  destruct j as [| j]; [lia |]. cbn in Hj.
  assert (Hc' : c' ∈ rest) by (eapply list_elem_of_lookup_2; eauto).
  destruct Hfb as [[-> _] | [(-> & _ & _) | (rs' & -> & Hrest)]].
  - apply elem_of_cons in Hin as [Hin | Hin];
      [inversion Hin; subst; contradiction | now apply elem_of_nil in Hin].
  - now apply elem_of_nil in Hc'.
  - apply elem_of_cons in Hin as [Hin | Hin];
      [inversion Hin; subst; contradiction |].
    destruct i as [| i]; cbn in Hi.
    + inversion Hi; subst c. apply list_elem_of_here.
    + apply list_elem_of_further.
      apply (IH rs' Hnd Hrest i j c c' b); [lia | assumption ..].
Qed.

(** The runs of a command of [item] are among the runs of [item]. *)
Lemma fallback_runs_locate items (oks : list (list (string * bool) * bool))
    item c b :
  Forall2 (fun item o => fallback_runs item o.1 o.2) items oks ->
  items_disjoint items -> item ∈ items -> c ∈ item ->
  (c, b) ∈ concat oks.*1 ->
  exists rs ok,
    fallback_runs item rs ok /\ (c, b) ∈ rs
    /\ forall cb, cb ∈ rs -> cb ∈ concat oks.*1.
Proof.
  induction 1 as [| it [rs ok] items oks Hit Hrest IH];
    intros Hdis Hitem Hc Hin; [now apply elem_of_nil in Hitem |].
  destruct Hdis as [Hhere Hdis]. cbn [fst snd] in Hit.
  cbn [fmap list_fmap concat fst] in Hin |- *.
  apply elem_of_app in Hin as [Hin | Hin];
    apply elem_of_cons in Hitem as [-> | Hitem].
  - exists rs, ok. split; [exact Hit |]. split; [exact Hin |].
    intros cb Hcb. apply elem_of_app. now left.
  - exfalso. apply (Hhere c item); [| exact Hitem | exact Hc].
    exact (fallback_runs_commands it rs ok Hit c b Hin).
  - exfalso.
    destruct (fallback_runs_all_commands items oks Hrest c b Hin)
      as (other & Hother & Hco).
    exact (Hhere c other Hc Hother Hco).
  - destruct (IH Hdis Hitem Hc Hin) as (rs' & ok' & H1 & H2 & H3).
    exists rs', ok'. split; [exact H1 |]. split; [exact H2 |].
    intros cb Hcb. apply elem_of_app. right. auto.
Qed.

Lemma command_suffixes_nodup :
  forallb (fun item => bool_decide (NoDup item)) command_suffixes = true.
Proof. vm_compute. reflexivity. Qed.

Lemma dependency_items_nodup {os : OS} item :
  item ∈ dependency_items (os:=os) -> NoDup item.
Proof.
  intros Hitem.
  assert (Hin : item ∈ [pip_upgrade (os:=os)] :: dependency_items (os:=os))
    by now apply list_elem_of_further.
  rewrite dependency_commands in Hin.
  apply list_elem_of_fmap in Hin as (suffixes & -> & Hs).
  pose proof command_suffixes_nodup as Hall.
  rewrite forallb_forall in Hall. apply list_elem_of_In in Hs.
  specialize (Hall suffixes Hs). apply bool_decide_eq_true in Hall.
  apply (NoDup_fmap_2_strong _ _); [| exact Hall].
  intros a b _ _. apply append_inj_l.
Qed.

(** X14. For every dependency the install commands are tried in their fixed
    order, and a fallback command is executed only after each earlier command
    for that dependency has been run and failed: nothing is installed a
    second time after it succeeded. *)
Theorem install_python_dependencies_safe_fallback_order {os : OS}
    (w : World os) :
  exists r w' tr,
    install_python_dependencies_safe w = (Ok r, w')
    /\ trace w' = trace w ++ tr
    /\ forall item i j c c' b,
         item ∈ dependency_items (os:=os) -> (i < j)%nat ->
         item !! i = Some c -> item !! j = Some c' ->
         (c', b) ∈ runs tr -> (c, false) ∈ runs tr.
Proof.
  destruct (install_python_dependencies_safe_runs w)
    as (r & w' & tr & b0 & oks & Hrun & Htr & Hruns & Hall & _).
  exists r, w', tr. split; [exact Hrun |]. split; [exact Htr |].
  intros item i j c c' b Hitem Hij Hi Hj Hin.
  destruct (dependency_items_disjoint (os:=os)) as [Hup Hdis].
  assert (Hc' : c' ∈ item) by (eapply list_elem_of_lookup_2; eauto).
  rewrite Hruns in Hin |- *.
  apply elem_of_cons in Hin as [Hin | Hin].
  { exfalso. inversion Hin; subst c' b.
    exact (Hup _ item (list_elem_of_here _ _) Hitem Hc'). }
  destruct (fallback_runs_locate _ _ item c' b Hall Hdis Hitem Hc' Hin)
    as (rs & ok & Hfb & Hrs & Hsub).
  apply list_elem_of_further, Hsub.
  exact (fallback_order item rs ok (dependency_items_nodup item Hitem) Hfb
           i j c c' b Hij Hi Hj Hrs).
Qed.

Lemma install_python_dependencies_safe_fallback_order_witness :
  let s := no_tgcrypto in
  let tr := trace (install_python_dependencies_safe (os := sim_os s)
                     (boot s)).2 in
  (exists r w' tr,
     install_python_dependencies_safe (os := sim_os s) (boot s) = (Ok r, w')
     /\ trace w' = trace (boot s) ++ tr)
  /\ ("/usr/bin/python3 -m pip install --no-cache-dir tgcrypto", false)
       ∈ runs tr
  /\ ("/usr/bin/python3 -m pip install --no-cache-dir flask", true)
       ∉ runs tr.
Proof.
  intros s tr. split.
  - destruct (install_python_dependencies_safe_fallback_order
                (os := sim_os s) (boot s)) as (r & w' & tr' & H1 & H2 & _).
    exists r, w', tr'. auto.
  - split.
    + apply (bool_decide_unpack _). vm_compute. exact I.
    + apply (bool_decide_unpack _). vm_compute. exact I.
Defined.
(** * What a run may change of the process state *)

Lemma append_assoc (a b c : string) : (a +:+ b) +:+ c = a +:+ b +:+ c.
Proof.
  induction a as [| x a IH]; [reflexivity |].
  change (String x ((a +:+ b) +:+ c) = String x (a +:+ b +:+ c)).
  now rewrite IH.
Qed.

#[export] Instance same_process_rel {os : OS} : ProcRel (same_process (os:=os)).
Proof.
  split.
  - intros w. split; reflexivity.
  - intros w1 w2 w3 [H1 H2] [H3 H4]. split; congruence.
  - intros w x t. split; reflexivity.
Qed.

#[export] Instance path_grows_rel {os : OS} : ProcRel (path_grows (os:=os)).
Proof.
  split.
  - intros w. split; [auto |].
    destruct (environ w !! "PATH") as [old |]; [| reflexivity].
    exists EmptyString, []. split; reflexivity.
  - intros w1 w2 w3 [H1 H2] [H3 H4]. split.
    + intros k Hk. rewrite H3, H1; auto.
    + destruct (environ w1 !! "PATH") as [old |].
      * destruct H2 as (pre & added & H2 & Hs2). rewrite H2 in H4.
        destruct H4 as (pre' & added' & H4 & Hs4).
        exists (pre' +:+ pre), (added' ++ added).
        rewrite append_assoc. split; [exact H4 |].
        now rewrite Hs4, Hs2, app_assoc.
      * now rewrite H2 in H4.
  - intros w x t. unfold path_grows. cbn [environ]. split; [auto |].
    destruct (environ w !! "PATH") as [old |]; [| reflexivity].
    exists EmptyString, []. split; reflexivity.
Qed.

Section Relations.
Context {os : OS}.
Context (R : World os -> World os -> Prop) `{!ProcRel R}.

Lemma respects_ret {A} (a : A) : respects R (ret (os:=os) a).
Proof. intros w. apply rel_refl. Qed.

Lemma respects_bind {A B} (m : M os A) (k : A -> M os B) :
  respects R m -> (forall a, respects R (k a)) -> respects R (bind m k).
Proof.
  intros Hm Hk w. unfold bind. specialize (Hm w).
  destruct (m w) as [[a | e |] w1]; cbn in *; [| exact Hm ..].
  eapply rel_trans; [exact Hm | apply Hk].
Qed.

Lemma respects_try {A} (m : M os A) (h : exn -> M os A) :
  respects R m -> (forall e, respects R (h e)) -> respects R (try_except m h).
Proof.
  intros Hm Hh w. unfold try_except. specialize (Hm w).
  destruct (m w) as [[a | e |] w1]; cbn in *; [exact Hm | | exact Hm].
  eapply rel_trans; [exact Hm | apply Hh].
Qed.

Lemma respects_log e : respects R (log (os:=os) e).
Proof. intros w. apply rel_frame. Qed.

Lemma respects_silent {A} (f : World os -> A) :
  respects R (fun w => (Ok (f w), w)).
Proof. intros w. apply rel_refl. Qed.

Lemma respects_py_sys c : respects R (py_sys (os:=os) c).
Proof.
  intros w. unfold py_sys.
  destruct (sys_call os (ext w) (cwd w) c) as [[e |] x]; apply rel_frame.
Qed.

Lemma respects_environ_get k : respects R (environ_get (os:=os) k).
Proof.
  intros w. unfold environ_get. destruct (environ w !! k); apply rel_refl.
Qed.

Lemma respects_py_popen_stream argv : respects R (py_popen_stream (os:=os) argv).
Proof.
  intros w. unfold py_popen_stream.
  destruct (popen_stream os (ext w) (environ w) (cwd w) argv)
    as [[lines [[e | rc] |]] x]; apply rel_frame.
Qed.

Lemma respects_run_command cmd retries timeout :
  respects R (run_command (os:=os) cmd retries timeout).
Proof.
  intros w. destruct (run_command_spec cmd retries timeout w)
    as (r & x & tr & -> & _). apply rel_frame.
Qed.

Lemma respects_run_command1 cmd : respects R (run_command1 (os:=os) cmd).
Proof. apply respects_run_command. Qed.

End Relations.

#[export] Hint Resolve respects_ret respects_log respects_silent
  respects_py_sys respects_environ_get respects_py_popen_stream
  respects_run_command respects_run_command1 : py.

(** One step through a computation, for [respects]. *)
Ltac rel_step :=
  lazymatch goal with
  | |- respects ?R (bind _ _) => apply (respects_bind R); [| intros ?]
  | |- respects ?R (try_except _ _) => apply (respects_try R); [| intros ?]
  | |- _ (if ?b then _ else _) => destruct b
  | |- _ (match ?x with _ => _ end) => destruct x
  | |- _ (when ?b _) => unfold when
  end.

Ltac rel_auto :=
  cbv zeta;
  repeat (first [ rel_step
                | solve [ unfold print, time_sleep, os_putenv, path_exists,
                            path_islink, expanduser, uname_machine,
                            check_command_exists;
                          eauto with py typeclass_instances ] ]).

Section RelationsOfPhases.
Context {os : OS}.

Lemma same_process_install_packages pkgs flag :
  respects same_process (install_packages (os:=os) pkgs flag).
Proof.
  revert flag. induction pkgs as [| p rest IH]; intros flag;
    cbn [install_packages]; rel_auto.
Qed.

Lemma same_process_install_repos repos flag :
  respects same_process (install_repos (os:=os) repos flag).
Proof.
  revert flag. induction repos as [| p rest IH]; intros flag;
    cbn [install_repos]; rel_auto.
Qed.

Lemma same_process_install_problem_packages problems flag :
  respects same_process (install_problem_packages (os:=os) problems flag).
Proof.
  revert flag. induction problems as [| [c name] rest IH]; intros flag;
    cbn [install_problem_packages]; rel_auto.
Qed.

Lemma same_process_dependencies :
  respects same_process (install_python_dependencies_safe (os:=os)).
Proof.
  unfold install_python_dependencies_safe.
  pose proof same_process_install_packages.
  pose proof same_process_install_repos.
  pose proof same_process_install_problem_packages. rel_auto.
Qed.

End RelationsOfPhases.

Lemma respects_weaken {os : OS} (R Q : World os -> World os -> Prop) {A}
    (m : M os A) :
  (forall w w', R w w' -> Q w w') -> respects R m -> respects Q m.
Proof. intros HRQ Hm w. apply HRQ, Hm. Qed.

Lemma same_process_path_grows {os : OS} (w w' : World os) :
  same_process w w' -> path_grows w w'.
Proof.
  intros [Henv _]. unfold path_grows. rewrite Henv. split; [auto |].
  destruct (environ w !! "PATH") as [old |]; [| reflexivity].
  exists EmptyString, []. split; reflexivity.
Qed.

Section PathGrows.
Context {os : OS}.

Lemma path_grows_py_chdir d : respects path_grows (py_chdir (os:=os) d).
Proof.
  intros w. unfold py_chdir.
  destruct (os_chdir os (ext w) (cwd w) d); cbn [snd];
    unfold path_grows; cbn [environ]; (split; [auto |]);
    (destruct (environ w !! "PATH") as [old |]; [| reflexivity]);
    exists EmptyString, []; split; reflexivity.
Qed.

Lemma path_grows_add_to_path path :
  respects path_grows (add_to_path (os:=os) path).
Proof.
  intros w. rewrite add_to_path_eq.
  destruct (_ && _); [| apply rel_refl].
  destruct (environ w !! "PATH") as [old |] eqn:Hpath; [| apply rel_refl].
  destruct (bool_decide _); [apply rel_refl |].
  unfold path_grows. cbn [snd environ]. rewrite Hpath. split.
  - intros k Hk. now apply lookup_insert_ne.
  - exists (path +:+ ":"), (Str.split ":" path).
    rewrite lookup_insert_eq, append_assoc. split; [reflexivity |].
    apply (split_joined ":"%char).
Qed.

End PathGrows.

#[export] Hint Resolve path_grows_py_chdir path_grows_add_to_path : py.

Section PathGrowsStrategies.
Context {os : OS}.

Lemma path_grows_remove_stale_link p :
  respects path_grows (remove_stale_link (os:=os) p).
Proof. unfold remove_stale_link. rel_auto. Qed.

Lemma path_grows_install_npm_separately d :
  respects path_grows (install_npm_separately (os:=os) d).
Proof.
  unfold install_npm_separately. pose proof path_grows_remove_stale_link.
  rel_auto.
Qed.

Lemma path_grows_precompiled_downloads b n urls :
  respects path_grows (precompiled_downloads (os:=os) b n urls).
Proof.
  pose proof path_grows_install_npm_separately.
  induction urls as [| url rest IH]; cbn [precompiled_downloads]; rel_auto.
Qed.

Lemma path_grows_portable :
  respects path_grows (install_nodejs_portable_binary (os:=os)).
Proof.
  unfold install_nodejs_portable_binary. pose proof path_grows_remove_stale_link.
  rel_auto.
Qed.

Lemma path_grows_precompiled :
  respects path_grows (install_nodejs_precompiled_binary (os:=os)).
Proof.
  unfold install_nodejs_precompiled_binary.
  pose proof path_grows_precompiled_downloads. rel_auto.
Qed.

Lemma path_grows_static :
  respects path_grows (install_nodejs_static_binary (os:=os)).
Proof. unfold install_nodejs_static_binary. rel_auto. Qed.

Lemma path_grows_source :
  respects path_grows (install_nodejs_from_source_simple (os:=os)).
Proof.
  unfold install_nodejs_from_source_simple, source_build_try,
    configure_make_install. rel_auto.
Qed.

Lemma respects_call R `{!ProcRel R} fn (m : M os bool) :
  respects R m -> respects R (call fn m).
Proof. intros Hm. unfold call. rel_auto. Qed.

Lemma path_grows_try_methods n i (ms : list (string * M os bool)) :
  Forall (fun fm => respects path_grows fm.2) ms ->
  respects path_grows (try_methods n i ms).
Proof.
  intros Hms. revert i.
  induction Hms as [| [fn m] rest Hm _ IH]; intros i;
    cbn [try_methods]; [rel_auto |].
  pose proof (respects_call path_grows fn m Hm). rel_auto.
Qed.

Lemma path_grows_install_nodejs_restricted :
  respects path_grows (install_nodejs_restricted (os:=os)).
Proof.
  unfold install_nodejs_restricted.
  assert (Hchain : forall n i,
             respects path_grows (try_methods n i (methods (os:=os)))).
  { intros n i. apply path_grows_try_methods. unfold methods.
    constructor; [exact path_grows_portable |].
    constructor; [exact path_grows_precompiled |].
    constructor; [exact path_grows_static |].
    constructor; [exact path_grows_source | constructor]. }
  rel_auto.
Qed.

Lemma same_process_start_loop eps :
  respects same_process (start_loop (os:=os) eps).
Proof.
  induction eps as [| ep rest IH]; cbn [start_loop];
    unfold skip_missing, try_launch; rel_auto.
Qed.

Lemma same_process_start_application :
  respects same_process (start_application (os:=os)).
Proof. unfold start_application. pose proof same_process_start_loop. rel_auto. Qed.

Lemma same_process_summary n p a :
  respects same_process (summary (os:=os) n p a).
Proof. unfold summary. rel_auto. Qed.

End PathGrowsStrategies.
(** * What the phases change, and what they leave *)

Lemma emits_runner_dependencies {os : OS} :
  emits runner_event (install_python_dependencies_safe (os:=os)).
Proof.
  unfold install_python_dependencies_safe.
  pose proof (emits_install_packages (os:=os)).
  pose proof (emits_install_repos (os:=os)).
  pose proof (emits_install_problem_packages (os:=os)). py_auto.
Qed.

(** X15. The dependency phase only prints and runs commands: it returns
    with the environment (so [PATH]) and the working directory as it found
    them, and makes no download, file-system or directory call of its own. *)
Theorem install_python_dependencies_safe_frame {os : OS} (w : World os) :
  exists r w' tr,
    install_python_dependencies_safe w = (Ok r, w')
    /\ environ w' = environ w /\ cwd w' = cwd w
    /\ trace w' = trace w ++ tr
    /\ Forall runner_event tr.
Proof.
  destruct (total_returns _ w total_install_python_dependencies_safe)
    as (r & w' & Hrun).
  pose proof (same_process_dependencies w) as [Henv Hcwd].
  destruct (emits_runner_dependencies w) as (tr & Htr & Hev).
  rewrite Hrun in Henv, Hcwd, Htr. cbn [snd] in *.
  exists r, w', tr. auto.
Qed.

Lemma emits_py_popen_stream {os : OS} argv :
  emits launcher_event (py_popen_stream (os:=os) argv).
Proof.
  intros w. unfold py_popen_stream.
  destruct (popen_stream os (ext w) (environ w) (cwd w) argv)
    as [[lines [[e | rc] |]] x]; cbn [snd trace];
    (eexists; split; [reflexivity |]);
    (constructor; [exact I |]); apply Forall_fmap, Forall_true; intros l; exact I.
Qed.

#[export] Hint Extern 1 (launcher_event _) => exact I : py.
#[export] Hint Resolve emits_py_popen_stream : py.

Lemma emits_launcher_start_loop {os : OS} eps :
  emits launcher_event (start_loop (os:=os) eps).
Proof.
  induction eps as [| ep rest IH]; cbn [start_loop];
    unfold skip_missing, try_launch; py_auto.
Qed.

(** X16. The launcher only prints, starts children and echoes their lines,
    and leaves the environment and the working directory as it found them,
    so every candidate is checked and started in the directory, and with the
    [PATH], that the earlier phases left.  This holds when it returns and
    when it stays blocked on a child that keeps running; it never raises, and
    it returns where the candidates come to an end. *)
Theorem start_application_frame {os : OS} (w : World os) :
  exists r w' tr,
    start_application w = (r, w')
    /\ launcher_result (os:=os) (entry_points (os:=os)) r
    /\ environ w' = environ w /\ cwd w' = cwd w
    /\ trace w' = trace w ++ tr
    /\ Forall launcher_event tr.
Proof.
  pose proof (launcher_result_start_application w) as Hres.
  pose proof (same_process_start_application w) as [Henv Hcwd].
  assert (Hem : emits launcher_event (start_application (os:=os))).
  { unfold start_application. pose proof (emits_launcher_start_loop (os:=os)).
    py_auto. }
  destruct (Hem w) as (tr & Htr & Hev).
  destruct (start_application w) as [r w']. cbn [fst snd] in *.
  exists r, w', tr. split; [reflexivity |].
  repeat (split; [assumption |]). assumption.
Qed.

Lemma path_grows_main {os : OS} : respects path_grows (main (os:=os)).
Proof.
  unfold main.
  pose proof (respects_call (os:=os) path_grows "install_nodejs_restricted"
                install_nodejs_restricted path_grows_install_nodejs_restricted).
  pose proof (respects_call (os:=os) path_grows "install_python_dependencies_safe"
                install_python_dependencies_safe
                (respects_weaken _ _ _ same_process_path_grows
                   same_process_dependencies)).
  pose proof (respects_call (os:=os) path_grows "start_application" start_application
                (respects_weaken _ _ _ same_process_path_grows
                   same_process_start_application)).
  assert (forall n p a, respects path_grows (summary (os:=os) n p a)).
  { intros n p a. apply (respects_weaken same_process); [| apply same_process_summary].
    apply same_process_path_grows. }
  rel_auto.
Qed.

(** X17. Over a whole run, and also when the run stays blocked in the
    launcher, the script changes no environment variable but [PATH], and
    changes [PATH] only by putting directories in front of it: the
    components of the old value are all still there, at the end of the new
    value and in their order, so no entry is removed, rewritten or
    reordered; an unset [PATH] stays unset. *)
Theorem main_only_prepends_to_path {os : OS} (w : World os) :
  (forall k, k <> "PATH" -> environ (main w).2 !! k = environ w !! k)
  /\ match environ w !! "PATH" with
     | Some old =>
         exists pre added,
           environ (main w).2 !! "PATH" = Some (pre +:+ old)
           /\ Str.split ":" (pre +:+ old) = added ++ Str.split ":" old
     | None => environ (main w).2 !! "PATH" = None
     end.
Proof. exact (path_grows_main w). Qed.

Lemma main_only_prepends_to_path_witness :
  let s := static_mirror_only in
  environ (main (os := sim_os s) (boot s)).2 !! "PATH"
  = Some "/home/app/.static-node/bin:/usr/bin:/bin"
  /\ Str.split ":" "/home/app/.static-node/bin:/usr/bin:/bin"
     = ["/home/app/.static-node/bin"] ++ Str.split ":" "/usr/bin:/bin"
  /\ (forall k, k <> "PATH" ->
        environ (main (os := sim_os s) (boot s)).2 !! k = environ (boot s) !! k).
Proof.
  intros s. split; [vm_compute; reflexivity |]. split; [reflexivity |].
  apply (main_only_prepends_to_path (os := sim_os s) (boot s)).
Defined.

(** X18. Once the acquisition chain has returned, nothing in the rest of
    the run changes the environment or the working directory: dependencies
    are installed and the application is looked for and started in the
    directory the chain left, which after a source build is the source tree
    or the root directory rather than the directory the script was started
    in. *)
Theorem main_keeps_what_acquisition_left {os : OS} (w : World os) :
  let w0 := (print (rule 80) ;;
             print "ULTIMATE INSTALLATION FOR RESTRICTED ENVIRONMENTS" ;;
             print (rule 80)) w in
  exists n w1,
    call "install_nodejs_restricted" install_nodejs_restricted w0.2
    = (Ok n, w1)
    /\ environ (main w).2 = environ w1
    /\ cwd (main w).2 = cwd w1.
Proof.
  cbv zeta.
  set (w0 := ((print (rule 80) ;;
               print "ULTIMATE INSTALLATION FOR RESTRICTED ENVIRONMENTS" ;;
               print (rule 80)) w).2).
  destruct (total_returns _ w0
              (total_call "install_nodejs_restricted" _
                 total_install_nodejs_restricted)) as (n & w1 & Hcall).
  exists n, w1. split; [exact Hcall |].
  assert (Hmain : main w
                  = (python_success <-
                       call "install_python_dependencies_safe"
                         install_python_dependencies_safe ;;
                     app_started <- call "start_application" start_application ;;
                     summary n python_success app_started) w1).
  { unfold main. unfold bind at 1 2 3, print at 1 2 3, log at 1 2 3.
    cbv beta iota. unfold bind at 1.
    change (mkWorld _ _ _ _) with w0 at 1. now rewrite Hcall. }
  rewrite Hmain.
  assert (Hrest : respects same_process
            (python_success <-
               call "install_python_dependencies_safe"
                 install_python_dependencies_safe ;;
             app_started <- call "start_application" start_application ;;
             summary (os:=os) n python_success app_started)).
  { pose proof (respects_call (os:=os) same_process "install_python_dependencies_safe"
                  install_python_dependencies_safe same_process_dependencies).
    pose proof (respects_call (os:=os) same_process "start_application"
                  start_application same_process_start_application).
    pose proof (same_process_summary (os:=os) n). rel_auto. }
  exact (Hrest w1).
Qed.

Lemma main_keeps_what_acquisition_left_witness :
  let s := app_in_srv in
  let w := mkWorld (os := sim_os_in_cwd s)
             {[ "PATH" := "/usr/bin:/bin" ]} "/srv/app" 0%nat [] in
  (exists n w1,
     call "install_nodejs_restricted" install_nodejs_restricted
       ((print (rule 80) ;;
         print "ULTIMATE INSTALLATION FOR RESTRICTED ENVIRONMENTS" ;;
         print (rule 80)) w).2 = (Ok n, w1)
     /\ environ (main w).2 = environ w1
     /\ cwd (main w).2 = cwd w1)
  /\ launches (trace (start_application w).2)
     = [ ["/usr/bin/python3"; "-m"; "SONALI"]; ["/usr/bin/python3"; "app.py"] ]
  /\ cwd (main w).2 = "/"
  /\ launches (trace (main w).2) = [ ["/usr/bin/python3"; "-m"; "SONALI"] ].
Proof.
  intros s w. split.
  - apply (main_keeps_what_acquisition_left (os := sim_os_in_cwd s) w).
  - vm_compute. repeat split; reflexivity.
Defined.
(** * Further properties of the launcher *)

Section LauncherMore.
Context {os : OS}.
Implicit Types (w : World os).

(** Candidates that all name files missing where the loop stands are skipped
    one after the other: the loop only prints, so it stands in the same
    place for each of them. *)
Lemma start_loop_all_missing eps w :
  Forall (fun ep => exists tok,
            file_token ep = Some tok
            /\ os_path_exists os (ext w) (cwd w) tok = false) eps ->
  start_loop eps w
  = (Ok false,
     mkWorld (environ w) (cwd w) (ext w)
       (trace w
        ++ map (fun tok => EvPrint ("Skipping " +:+ tok +:+ " - file not found"))
             (omap file_token eps))).
Proof.
  intros Heps. revert w Heps.
  induction eps as [| ep rest IH]; intros w Heps.
  - cbn. now rewrite world_eta.
  - apply Forall_cons in Heps as [(tok & Htok & Hno) Hrest].
    cbn [start_loop]. unfold bind at 1.
    pose proof (skip_missing_spec ep w) as Hskip.
    rewrite Htok, Hno in Hskip. rewrite Hskip.
    rewrite (IH (print ("Skipping " +:+ tok +:+ " - file not found") w).2 Hrest).
    cbn [omap list_omap]. rewrite Htok. cbn. now rewrite <- app_assoc.
Qed.

Lemma start_loop_cons ep rest w :
  start_loop (ep :: rest) w
  = (skip <- skip_missing ep ;;
     if (skip : bool) then start_loop rest
     else started <- try_launch ep ;;
          if (started : bool) then ret true else start_loop rest) w.
Proof. reflexivity. Qed.

End LauncherMore.

(** X19. When the module candidate [python -m SONALI] exits zero,
    [start_application] returns [True] after that single launch: no file
    candidate is checked or started. *)
Theorem start_application_first_success {os : OS} (w : World os) :
  (forall x env d, exists lines x',
     popen_stream os x env d [sys_executable os; "-m"; "SONALI"]
     = ((lines, Some (inr 0)), x')) ->
  exists w' tr,
    start_application w = (Ok true, w')
    /\ trace w' = trace w ++ tr
    /\ launches tr = [[sys_executable os; "-m"; "SONALI"]].
Proof.
  intros Hok.
  unfold start_application.
  unfold bind at 1, print at 1, log at 1. cbv beta iota.
  unfold bind at 1, print at 1, log at 1. cbv beta iota.
  unfold bind at 1, print at 1, log at 1. cbv beta iota.
  cbn [environ cwd ext trace].
  set (w0 := mkWorld _ _ _ _).
  unfold entry_points. cbn [start_loop]. unfold bind at 1.
  change (skip_missing [sys_executable os; "-m"; "SONALI"] w0)
    with (Ok false, w0) at 1. cbv beta iota.
  unfold bind at 1, try_launch at 1, bind at 1, print at 1, log at 1.
  cbv beta iota. unfold try_except at 1, bind at 1, py_popen_stream at 1.
  cbn [environ cwd ext trace].
  destruct (Hok (ext w0) (environ w0) (cwd w0)) as (lines & x' & Hp).
  cbn [environ cwd ext] in Hp. subst w0. cbn [environ cwd ext trace] in *.
  rewrite Hp. cbn [ret Z.eqb].
  eexists. eexists. split; [reflexivity |]. cbn [trace].
  rewrite <- !app_assoc. cbn [app]. split; [reflexivity |].
  change (launches (EvPrint (nl +:+ rule 80)
            :: EvPrint "STARTING MAIN APPLICATION"
            :: EvPrint (rule 80)
            :: EvPrint ("Trying: " +:+ Str.join_space
                          [sys_executable os; "-m"; "SONALI"])
            :: EvPopen [sys_executable os; "-m"; "SONALI"]
            :: map EvEcho lines))
    with ([sys_executable os; "-m"; "SONALI"] :: launches (map EvEcho lines)).
  now rewrite launches_echo.
Qed.

Lemma start_application_first_success_witness :
  let s := with_popen (fun _ _ => (["bot started"], inr 0)) bare in
  exists w' tr,
    start_application (os := sim_os s) (boot s) = (Ok true, w')
    /\ trace w' = trace (boot s) ++ tr
    /\ launches tr = [["/usr/bin/python3"; "-m"; "SONALI"]].
Proof.
  intros s.
  apply (start_application_first_success (os := sim_os s) (boot s)).
  intros x env d. eexists. eexists. reflexivity.
Defined.

(** X20. When the module candidate comes to an end without exiting zero (it
    cannot be started, or it fails) and none of the six candidate files
    exists in the working directory once it has ended, [start_application]
    returns [False] having launched only the module candidate and reported
    each file as missing: a failure to start is reported and never raised.
    Nothing is asked of any other path, nor of any other state of the
    outside. *)
Theorem start_application_nothing_to_run {os : OS} (w : World os) :
  let child :=
    popen_stream os (ext w) (environ w) (cwd w)
      [sys_executable os; "-m"; "SONALI"] in
  let files :=
    ["main.py"; "app.py"; "bot.py"; "server.py"; "index.py"; "start.py"] in
  ((exists e, child.1.2 = Some (inl e))
   \/ (exists rc, rc <> 0 /\ child.1.2 = Some (inr rc))) ->
  (forall tok, tok ∈ files -> os_path_exists os child.2 (cwd w) tok = false) ->
  exists w' tr,
    start_application w = (Ok false, w')
    /\ trace w' = trace w ++ tr
    /\ launches tr = [[sys_executable os; "-m"; "SONALI"]]
    /\ Forall (fun tok =>
                 EvPrint ("Skipping " +:+ tok +:+ " - file not found") ∈ tr)
         files.
Proof.
  cbv zeta. intros Hfail Hno.
  unfold start_application.
  unfold bind at 1, print at 1, log at 1. cbv beta iota.
  unfold bind at 1, print at 1, log at 1. cbv beta iota.
  unfold bind at 1, print at 1, log at 1. cbv beta iota.
  cbn [environ cwd ext trace].
  set (w0 := mkWorld _ _ _ _).
  unfold entry_points. rewrite start_loop_cons. unfold bind at 1.
  change (skip_missing [sys_executable os; "-m"; "SONALI"] w0)
    with (Ok false, w0) at 1. cbv beta iota.
  unfold bind at 1.
  assert (Hl : exists tr1,
             try_launch [sys_executable os; "-m"; "SONALI"] w0
             = (Ok false,
                mkWorld (environ w) (cwd w)
                  (popen_stream os (ext w) (environ w) (cwd w)
                     [sys_executable os; "-m"; "SONALI"]).2
                  (trace w0
                   ++ [EvPrint ("Trying: " +:+ Str.join_space
                                  [sys_executable os; "-m"; "SONALI"]);
                       EvPopen [sys_executable os; "-m"; "SONALI"]] ++ tr1))
             /\ launches tr1 = []).
  { unfold try_launch, bind, try_except, print, log, py_popen_stream, ret.
    subst w0. cbn [environ cwd ext trace fst snd].
    destruct (popen_stream os (ext w) (environ w) (cwd w)
                [sys_executable os; "-m"; "SONALI"]) as [[lines fin] x].
    cbn [fst snd] in Hfail |- *.
    destruct Hfail as [(e & ->) | (rc & Hrc & ->)].
    - exists (map EvEcho lines ++ [EvPrint ("Failed to start: " +:+ str_exn e)]).
      cbn [trace]. rewrite <- !app_assoc. cbn [app].
      split; [reflexivity |]. rewrite launches_app, launches_echo. reflexivity.
    - exists (map EvEcho lines).
      cbn [trace]. rewrite <- !app_assoc. cbn [app].
      apply Z.eqb_neq in Hrc. rewrite Hrc.
      split; [reflexivity | apply launches_echo]. }
  destruct Hl as (tr1 & Hl & Hno1). rewrite Hl.
  set (w1 := mkWorld _ _ _ _).
  rewrite start_loop_all_missing.
  2: { subst w1. cbn [ext cwd].
       repeat (constructor;
               [eexists; split; [reflexivity |]; apply Hno;
                apply (bool_decide_unpack _); vm_compute; exact I |]).
       constructor. }
  cbn [omap list_omap file_token Str.startswith map].
  eexists.
  exists ([EvPrint (nl +:+ rule 80); EvPrint "STARTING MAIN APPLICATION";
           EvPrint (rule 80)]
          ++ [EvPrint ("Trying: " +:+ Str.join_space
                         [sys_executable os; "-m"; "SONALI"]);
              EvPopen [sys_executable os; "-m"; "SONALI"]] ++ tr1
          ++ map (fun tok =>
                    EvPrint ("Skipping " +:+ tok +:+ " - file not found"))
               ["main.py"; "app.py"; "bot.py"; "server.py"; "index.py";
                "start.py"]).
  split; [reflexivity |]. split.
  { subst w1 w0. cbn [trace]. rewrite <- !app_assoc. reflexivity. }
  split.
  { rewrite launches_app, launches_trying, launches_app, Hno1. reflexivity. }
  apply Forall_forall. intros tok Htok.
  apply elem_of_app. right. apply list_elem_of_further, list_elem_of_further.
  apply elem_of_app. right.
  apply (list_elem_of_fmap_2
           (fun tok => EvPrint ("Skipping " +:+ tok +:+ " - file not found"))),
    Htok.
Qed.

Lemma start_application_nothing_to_run_witness :
  let s := with_files ["/etc/hostname"; "requirements.txt"] bare in
  os_path_exists (sim_os s) 0%nat "/srv/app" "requirements.txt" = true
  /\ exists w' tr,
       start_application (os := sim_os s) (boot s) = (Ok false, w')
       /\ trace w' = trace (boot s) ++ tr
       /\ launches tr = [["/usr/bin/python3"; "-m"; "SONALI"]]
       /\ Forall (fun tok =>
                    EvPrint ("Skipping " +:+ tok +:+ " - file not found") ∈ tr)
            ["main.py"; "app.py"; "bot.py"; "server.py"; "index.py";
             "start.py"].
Proof.
  intros s. split; [reflexivity |].
  apply (start_application_nothing_to_run (os := sim_os s) (boot s)).
  - left. eexists. reflexivity.
  - intros tok Htok. cbn.
    repeat (apply elem_of_cons in Htok as [-> | Htok]; [reflexivity |]).
    now apply elem_of_nil in Htok.
Defined.
(** * When the acquisition chain reports success

    The probes of [shutil.which] leave no event, so the state a probe saw is
    named through the events before it: the state of a run changes only as
    its events tell. *)

Section Replay.
Context {os : OS}.
Implicit Types (w : World os) (tr : list Event).

Lemma after_app w tr1 tr2 : after w (tr1 ++ tr2) = after (after w tr1) tr2.
Proof. apply foldl_app. Qed.

Lemma after_nil w : after w [] = w.
Proof. reflexivity. Qed.

Lemma trace_after w tr : trace (after w tr) = trace w ++ tr.
Proof.
  revert w. induction tr as [| e tr IH]; intros w.
  - cbn. now rewrite app_nil_r.
  - change (after w (e :: tr)) with (after (after_event w e) tr).
    rewrite IH. destruct e; cbn [after_event trace]; now rewrite <- app_assoc.
Qed.

Lemma after_stateless w e :
  stateless e ->
  after w [e] = mkWorld (environ w) (cwd w) (ext w) (trace w ++ [e]).
Proof. destruct e; cbn; intros H; solve [reflexivity | contradiction]. Qed.

Lemma replays_ret {A} (a : A) : replays (ret (os:=os) a).
Proof. intros w. exists []. reflexivity. Qed.

Lemma replays_silent {A} (f : World os -> A) :
  replays (fun w => (Ok (f w), w)).
Proof. intros w. exists []. reflexivity. Qed.

Lemma replays_bind {A B} (m : M os A) (k : A -> M os B) :
  replays m -> (forall a, replays (k a)) -> replays (bind m k).
Proof.
  intros Hm Hk w. unfold bind. destruct (Hm w) as (tr1 & H1).
  destruct (m w) as [[a | e |] w1]; cbn [snd] in *; [| eauto ..].
  destruct (Hk a w1) as (tr2 & H2). exists (tr1 ++ tr2).
  now rewrite after_app, <- H1.
Qed.

Lemma replays_try {A} (m : M os A) (h : exn -> M os A) :
  replays m -> (forall e, replays (h e)) -> replays (try_except m h).
Proof.
  intros Hm Hh w. unfold try_except. destruct (Hm w) as (tr1 & H1).
  destruct (m w) as [[a | e |] w1]; cbn [snd] in *; [eauto | | eauto].
  destruct (Hh e w1) as (tr2 & H2). exists (tr1 ++ tr2).
  now rewrite after_app, <- H1.
Qed.

Lemma replays_log e : stateless e -> replays (log (os:=os) e).
Proof. intros He w. exists [e]. now rewrite after_stateless. Qed.

Lemma replays_py_subprocess_run cmd timeout :
  replays (py_subprocess_run (os:=os) cmd timeout).
Proof.
  intros w. unfold py_subprocess_run.
  destruct (subprocess_run os (ext w) (environ w) (cwd w) cmd timeout)
    as [o x] eqn:Hrun.
  exists [EvRun cmd timeout o]. cbn. rewrite Hrun. now destruct o.
Qed.

Lemma replays_py_sys c : replays (py_sys (os:=os) c).
Proof.
  intros w. unfold py_sys.
  destruct (sys_call os (ext w) (cwd w) c) as [r x] eqn:Hsys.
  exists [EvSys c]. cbn. rewrite Hsys. now destruct r.
Qed.

Lemma replays_py_chdir d : replays (py_chdir (os:=os) d).
Proof.
  intros w. unfold py_chdir. exists [EvChdir d]. cbn.
  now destruct (os_chdir os (ext w) (cwd w) d).
Qed.

Lemma replays_environ_get k : replays (environ_get (os:=os) k).
Proof.
  intros w. exists []. unfold environ_get. now destruct (environ w !! k).
Qed.

Lemma after_echo w lines :
  after w (map EvEcho lines)
  = mkWorld (environ w) (cwd w) (ext w) (trace w ++ map EvEcho lines).
Proof.
  revert w. induction lines as [| l lines IH]; intros w.
  - cbn. now rewrite world_eta.
  - change (after w (map EvEcho (l :: lines)))
      with (after (after_event w (EvEcho l)) (map EvEcho lines)).
    rewrite IH. cbn. now rewrite <- app_assoc.
Qed.

Lemma replays_py_popen_stream argv : replays (py_popen_stream (os:=os) argv).
Proof.
  intros w. unfold py_popen_stream.
  destruct (popen_stream os (ext w) (environ w) (cwd w) argv)
    as [[lines fin] x] eqn:Hp.
  exists (EvPopen argv :: map EvEcho lines).
  change (after w (EvPopen argv :: map EvEcho lines))
    with (after (after_event w (EvPopen argv)) (map EvEcho lines)).
  rewrite after_echo. cbn. rewrite Hp, <- app_assoc. cbn.
  now destruct fin as [[e | rc] |].
Qed.

Lemma replays_add_to_path path : replays (add_to_path (os:=os) path).
Proof.
  intros w. rewrite add_to_path_eq.
  destruct (_ && _); [| now exists []].
  destruct (environ w !! "PATH") as [old |]; [| now exists []].
  destruct (bool_decide _); [now exists [] |].
  exists [EvPutenv "PATH" (path +:+ ":" +:+ old);
          EvPrint ("Added " +:+ path +:+ " to PATH")].
  cbn. now rewrite <- app_assoc.
Qed.

End Replay.

#[export] Hint Extern 1 (stateless _) => exact I : py.
#[export] Hint Resolve replays_ret replays_silent replays_log
  replays_py_subprocess_run replays_py_sys replays_py_chdir
  replays_environ_get replays_py_popen_stream replays_add_to_path : py.

Ltac replay_step :=
  lazymatch goal with
  | |- replays (bind _ _) => apply replays_bind; [| intros ?]
  | |- replays (try_except _ _) => apply replays_try; [| intros ?]
  | |- _ (if ?b then _ else _) => destruct b
  | |- _ (match ?x with _ => _ end) => destruct x
  | |- _ (when ?b _) => unfold when
  end.

Ltac replay_auto :=
  cbv zeta;
  repeat (first [ replay_step
                | solve [ unfold print, time_sleep, path_exists, path_islink,
                            expanduser, uname_machine, check_command_exists;
                          eauto with py ] ]).

Section ReplayOfInstallers.
Context {os : OS}.

Lemma replays_run_command cmd retries timeout :
  replays (run_command (os:=os) cmd retries timeout).
Proof.
  unfold run_command. generalize (range retries). intros attempts.
  induction attempts as [| a rest IH]; cbn [run_command_loop];
    unfold attempt_try, attempt_except; replay_auto.
Qed.

Lemma replays_run_command1 cmd : replays (run_command1 (os:=os) cmd).
Proof. apply replays_run_command. Qed.

Lemma replays_remove_stale_link p : replays (remove_stale_link (os:=os) p).
Proof. unfold remove_stale_link. replay_auto. Qed.

Lemma replays_install_npm_separately d :
  replays (install_npm_separately (os:=os) d).
Proof.
  pose proof replays_run_command1. pose proof replays_remove_stale_link.
  unfold install_npm_separately. replay_auto.
Qed.

End ReplayOfInstallers.

#[export] Hint Resolve replays_run_command replays_run_command1
  replays_remove_stale_link replays_install_npm_separately : py.

Section FindsNode.
Context {os : OS}.
Implicit Types (w : World os).

Lemma never_true_ret_false : never_true (ret (os:=os) false).
Proof. intros w. discriminate. Qed.

Lemma never_true_bind {A} (m : M os A) (k : A -> M os bool) :
  (forall a, never_true (k a)) -> never_true (bind m k).
Proof.
  intros Hk w. unfold bind.
  destruct (m w) as [[a | e |] w1]; cbn; [apply Hk | discriminate ..].
Qed.

Lemma never_true_bind_ret {A} (a : A) (k : A -> M os bool) :
  never_true (k a) -> never_true (bind (ret a) k).
Proof. intros Hk w. exact (Hk w). Qed.

Lemma announces_never (m : M os bool) : never_true m -> announces m.
Proof. intros Hm w w' H. exfalso. apply (Hm w). now rewrite H. Qed.

Lemma finds_node_never (m : M os bool) : never_true m -> finds_node m.
Proof. intros Hm w w' H. exfalso. apply (Hm w). now rewrite H. Qed.

(** A success message followed by steps that change the state only as
    their events tell. *)
Lemma announces_print msg (k : M os bool) :
  msg ∈ found_messages -> replays k -> announces (print msg ;; k).
Proof.
  intros Hmsg Hk w w' Hrun. unfold bind, print, log in Hrun.
  match type of Hrun with k ?w1 = _ =>
    destruct (Hk w1) as (post & Hpost); rewrite Hrun in Hpost;
    cbn [snd] in Hpost end.
  exists msg, post. split; [exact Hmsg |]. rewrite Hpost. reflexivity.
Qed.

(** A probe changes nothing, so what follows it announces as well. *)
Lemma announces_probe c (k : bool -> M os bool) :
  (forall b, announces (k b)) ->
  announces (bind (check_command_exists c) k).
Proof. intros Hk w w' Hrun. exact (Hk _ w w' Hrun). Qed.

Lemma finds_node_bind {A} (m : M os A) (k : A -> M os bool) :
  replays m -> (forall a, finds_node (k a)) -> finds_node (bind m k).
Proof.
  intros Hm Hk w w' Hrun. unfold bind in Hrun.
  destruct (Hm w) as (tr1 & H1).
  destruct (m w) as [[a | e |] w1]; cbn [snd] in *; [| discriminate ..].
  destruct (Hk a w1 w' Hrun) as (pre & msg & post & Hw' & Hmsg & Hwhich).
  subst w1. exists (tr1 ++ pre), msg, post.
  rewrite <- app_assoc, (after_app w tr1 pre), (after_app w tr1).
  auto.
Qed.

(** The probe of [node]: a run that succeeds past a successful probe
    announces it at once, in the state the probe saw. *)
Lemma finds_node_probe (k : bool -> M os bool) :
  announces (k true) -> finds_node (k false) ->
  finds_node (bind (check_command_exists "node") k).
Proof.
  intros Ht Hf w w' Hrun. unfold bind, check_command_exists in Hrun.
  destruct (shutil_which os (ext w) (environ w) (cwd w) "node") eqn:Hwhich.
  - destruct (Ht w w' Hrun) as (msg & post & Hmsg & Hw').
    exists [], msg, post. auto.
  - exact (Hf w w' Hrun).
Qed.

Lemma finds_node_try (m : M os bool) (h : exn -> M os bool) :
  finds_node m -> (forall e, never_true (h e)) ->
  finds_node (try_except m h).
Proof.
  intros Hm Hh w w' Hrun. unfold try_except in Hrun.
  destruct (m w) as [[a | e |] w1] eqn:Hmw; [| | discriminate].
  - inversion Hrun; subst a w1. exact (Hm w w' Hmw).
  - exfalso. apply (Hh e w1). now rewrite Hrun.
Qed.

(** After a step that found [node] the run may go on with steps that change
    the state only as their events tell. *)
Lemma finds_node_then (m : M os bool) (k : bool -> M os bool) :
  finds_node m -> replays m -> replays (k true) -> finds_node (k false) ->
  finds_node (bind m k).
Proof.
  intros Hm Hrm Hkt Hkf w w' Hrun. unfold bind in Hrun.
  destruct (m w) as [[[|] | e |] w1] eqn:Hmw; [| | discriminate ..].
  - destruct (Hm w w1 Hmw) as (pre & msg & post & Hw1 & Hmsg & Hwhich).
    destruct (Hkt w1) as (tr2 & H2). rewrite Hrun in H2. cbn [snd] in H2.
    exists pre, msg, (post ++ tr2). split; [| auto].
    rewrite H2, Hw1.
    change (pre ++ EvPrint msg :: post ++ tr2)
      with (pre ++ (EvPrint msg :: post) ++ tr2).
    rewrite (app_assoc pre). symmetry. apply after_app.
  - destruct (Hrm w) as (tr1 & H1). rewrite Hmw in H1. cbn [snd] in H1.
    destruct (Hkf w1 w' Hrun) as (pre & msg & post & Hw' & Hmsg & Hwhich).
    subst w1. exists (tr1 ++ pre), msg, post.
    rewrite <- app_assoc, (after_app w tr1 pre), (after_app w tr1).
    auto.
Qed.

End FindsNode.

#[export] Hint Resolve never_true_ret_false : py.

Ltac never_step :=
  lazymatch goal with
  | |- never_true (bind (ret _) _) => apply never_true_bind_ret
  | |- never_true (bind _ _) => apply never_true_bind; intros ?
  | |- never_true (ret false) => apply never_true_ret_false
  | |- never_true (if ?b then _ else _) => destruct b
  end.

Ltac never_auto := cbv zeta; repeat (cbv beta iota; never_step).

(** Through the steps before the probe of [node]. *)
Ltac to_probe :=
  repeat lazymatch goal with
         | |- finds_node (bind (check_command_exists "node") _) => fail
         | |- finds_node (bind _ _) =>
             apply finds_node_bind; [solve [replay_auto] | intros ?]
         end.

Ltac in_found :=
  unfold found_messages;
  repeat first [ apply list_elem_of_here | apply list_elem_of_further ].

Section FindsNodeStrategies.
Context {os : OS}.

Lemma portable_finds_node :
  finds_node (install_nodejs_portable_binary (os:=os)).
Proof.
  unfold install_nodejs_portable_binary.
  apply finds_node_bind; [replay_auto | intros _].
  apply finds_node_try; [| intros e; never_auto].
  cbv zeta. to_probe. apply finds_node_probe.
  - apply announces_probe. intros [|]; cbv beta iota.
    + apply announces_print; [in_found | replay_auto].
    + apply announces_never. never_auto.
  - apply finds_node_never. never_auto.
Qed.

Lemma precompiled_downloads_finds_node b n urls :
  finds_node (precompiled_downloads (os:=os) b n urls)
  /\ replays (precompiled_downloads (os:=os) b n urls).
Proof.
  induction urls as [| url rest [IHf IHr]]; cbn [precompiled_downloads].
  - split; [apply finds_node_never; never_auto | replay_auto].
  - split; [| replay_auto].
    apply finds_node_then; [| replay_auto | replay_auto | exact IHf].
    apply finds_node_try; [| intros e; never_auto].
    to_probe. apply finds_node_probe.
    + apply announces_print; [in_found | replay_auto].
    + apply finds_node_never. never_auto.
Qed.

Lemma precompiled_finds_node :
  finds_node (install_nodejs_precompiled_binary (os:=os)).
Proof.
  unfold install_nodejs_precompiled_binary.
  apply finds_node_bind; [replay_auto | intros _].
  apply finds_node_try; [| intros e; never_auto].
  cbv zeta. to_probe. apply precompiled_downloads_finds_node.
Qed.

Lemma static_finds_node :
  finds_node (install_nodejs_static_binary (os:=os)).
Proof.
  unfold install_nodejs_static_binary.
  apply finds_node_bind; [replay_auto | intros _].
  apply finds_node_try; [| intros e; never_auto].
  cbv zeta. to_probe. apply finds_node_probe.
  - apply announces_print; [in_found | replay_auto].
  - apply finds_node_never. never_auto.
Qed.

Lemma source_finds_node :
  finds_node (install_nodejs_from_source_simple (os:=os)).
Proof.
  unfold install_nodejs_from_source_simple, source_build_try.
  apply finds_node_bind; [replay_auto | intros _].
  apply finds_node_try; [| intros e; never_auto].
  cbv zeta. to_probe.
  apply finds_node_then;
    [| unfold configure_make_install; replay_auto | replay_auto
     | apply finds_node_never; never_auto].
  unfold configure_make_install.
  repeat (to_probe;
          lazymatch goal with
          | |- finds_node (if ?b then _ else _) =>
              destruct b; [| apply finds_node_never; never_auto]
          | _ => idtac
          end).
  apply finds_node_probe.
  - apply announces_print; [in_found | replay_auto].
  - apply finds_node_never. never_auto.
Qed.

Lemma replays_strategies :
  Forall (fun fm : string * M os bool => replays fm.2) (methods (os:=os)).
Proof.
  pose proof (fun b n urls =>
                proj2 (precompiled_downloads_finds_node b n urls)).
  unfold methods.
  repeat (constructor;
          [cbn [snd];
           unfold install_nodejs_portable_binary,
             install_nodejs_precompiled_binary, install_nodejs_static_binary,
             install_nodejs_from_source_simple, source_build_try,
             configure_make_install;
           replay_auto |]).
  constructor.
Qed.

Lemma replays_call fn (m : M os bool) : replays m -> replays (call fn m).
Proof. intros Hm. unfold call. replay_auto. Qed.

Lemma call_finds_node fn (m : M os bool) :
  finds_node m -> replays m -> finds_node (call fn m).
Proof.
  intros Hm Hr. unfold call.
  apply finds_node_bind; [replay_auto | intros _].
  intros w w' Hrun. unfold bind at 1 in Hrun.
  destruct (m w) as [[b | e |] w1] eqn:Hmw; [| discriminate ..].
  unfold bind, log, ret in Hrun. inversion Hrun; subst b w'.
  destruct (Hm w w1 Hmw) as (pre & msg & post & Hw1 & Hmsg & Hwhich).
  exists pre, msg, (post ++ [EvRet fn true]). split; [| auto].
  change (pre ++ EvPrint msg :: post ++ [EvRet fn true])
    with (pre ++ (EvPrint msg :: post) ++ [EvRet fn true]).
  rewrite (app_assoc pre), after_app, <- Hw1. reflexivity.
Qed.

Lemma try_methods_finds_node n i (ms : list (string * M os bool)) :
  Forall (fun fm => finds_node fm.2 /\ replays fm.2) ms ->
  finds_node (try_methods n i ms).
Proof.
  intros Hms. revert i.
  induction Hms as [| [fn m] rest [Hm Hr] _ IH]; intros i; cbn [try_methods].
  - apply finds_node_never. never_auto.
  - apply finds_node_bind; [replay_auto | intros _].
    pose proof (replays_call fn m Hr).
    apply finds_node_then;
      [apply call_finds_node; assumption | assumption | replay_auto |].
    apply finds_node_bind; [replay_auto | intros _]. apply IH.
Qed.

End FindsNodeStrategies.

Lemma install_nodejs_restricted_finds_node {os : OS} :
  finds_node (install_nodejs_restricted (os:=os)).
Proof.
  unfold install_nodejs_restricted.
  do 3 (apply finds_node_bind; [replay_auto | intros _]).
  assert (Hchain : forall n i, finds_node (try_methods n i (methods (os:=os)))).
  { intros n i. apply try_methods_finds_node.
    pose proof (replays_strategies (os:=os)) as Hr. unfold methods in *.
    repeat (apply Forall_cons in Hr as [? Hr]).
    constructor; [split; [exact portable_finds_node | assumption] |].
    constructor; [split; [exact precompiled_finds_node | assumption] |].
    constructor; [split; [exact static_finds_node | assumption] |].
    constructor; [split; [exact source_finds_node | assumption] |].
    constructor. }
  intros w w' Hrun. unfold bind at 1 2, check_command_exists at 1 2 in Hrun.
  destruct (shutil_which os (ext w) (environ w) (cwd w) "node") eqn:Hnode;
    [| exact (Hchain _ _ w w' Hrun)].
  destruct (shutil_which os (ext w) (environ w) (cwd w) "npm");
    [| exact (Hchain _ _ w w' Hrun)].
  cbn [andb] in Hrun.
  assert (Ha : announces
                 (print "Node.js and npm are already installed" ;;
                  run_command1 (os:=os) "node --version" ;;
                  run_command1 "npm --version" ;;
                  ret true)).
  { apply announces_print; [in_found | replay_auto]. }
  destruct (Ha w w' Hrun) as (msg & post & Hmsg & Hw').
  exists [], msg, post. auto.
Qed.

(** X21. The acquisition chain reports success only in runs where [node]
    resolved on [PATH] at a probe: the events of the run divide into those
    before the probe and those after it, which begin with the line that
    announces the find, and [shutil.which("node")] found the command in the
    state the process and the outside were in after the events before the
    probe.  For [npm] the chain promises nothing once the strategies are in
    play, since only the first of them probes [npm]. *)
Theorem install_nodejs_restricted_success_means_node {os : OS}
    (w w' : World os) :
  install_nodejs_restricted w = (Ok true, w') ->
  exists pre msg post,
    trace w' = trace w ++ pre ++ EvPrint msg :: post
    /\ w' = after w (pre ++ EvPrint msg :: post)
    /\ msg ∈ found_messages
    /\ shutil_which os (ext (after w pre)) (environ (after w pre))
         (cwd (after w pre)) "node" = true.
Proof.
  intros Hrun.
  destruct (install_nodejs_restricted_finds_node w w' Hrun)
    as (pre & msg & post & Hw' & Hmsg & Hwhich).
  exists pre, msg, post. split; [| auto].
  rewrite Hw'. apply trace_after.
Qed.

Lemma install_nodejs_restricted_success_means_node_witness :
  let s := node_without_npm in
  let run := install_nodejs_restricted (os := sim_os s) (boot s) in
  run.1 = Ok true
  /\ (exists pre msg post,
        trace run.2 = trace (boot s) ++ pre ++ EvPrint msg :: post
        /\ run.2 = after (boot s) (pre ++ EvPrint msg :: post)
        /\ msg ∈ found_messages
        /\ shutil_which (sim_os s) (ext (after (boot s) pre))
             (environ (after (boot s) pre)) (cwd (after (boot s) pre)) "node"
           = true)
  /\ shutil_which (sim_os s) (ext run.2) (environ run.2) (cwd run.2) "npm"
     = false
  /\ call_log (trace run.2)
     = chain_log [ ("install_nodejs_portable_binary", false);
                   ("install_nodejs_precompiled_binary", true) ].
Proof.
  intros s run.
  split; [vm_compute; reflexivity |]. split.
  - apply (install_nodejs_restricted_success_means_node
             (os := sim_os s) (boot s) run.2).
    vm_compute. reflexivity.
  - vm_compute. split; reflexivity.
Defined.
